(** * cli-progress-reporting: file-backed progress trackers

    A shallow embedding of the persisted state store of
    tuulbelt/cli-progress-reporting:

    - [src/index.ts]            validation helpers, the atomic store and the
                                functional single-tracker API
                                ([init], [increment], [set], [finish], [get],
                                [clear]);
    - [src/progress-builder.ts] the class [ProgressTracker];
    - [src/multi-progress.ts]   the [MultiProgress] group registry;
    - [src/stream-wrapper.ts]   the [ProgressTransform] push adapter.

    Conventions of the embedding.

    - A TypeScript [number] is a [number]: an integer-valued binary64
      [Int z], [NaN], or an infinity.  Addition rounds to binary64
      ([JSNumber.round]: to nearest, ties to even), comparisons with [NaN]
      are false, and the one non-integer intermediate value, the quotient
      in [Math.round((current / total) * 100)], is computed in IEEE binary64
      with the operations of [SpecFloat].  Fractions and the negative zero
      are not represented.  A timestamp and a length are integers and are
      kept as [Z].
    - A string is a sequence of 8-bit characters; its [length] is the number
      of characters.
    - A JavaScript object is the list of its own properties in the order
      JavaScript enumerates them; a parsed file is a [json] value and is not
      coerced into a record, so an entity read from a file may lack fields
      or carry fields of any type, as in the source.
    - The text of a file is [Doc j], the text [JSON.stringify] writes for
      the value [j], or [Malformed].  Reading it back gives [as_parsed j]:
      a number that is not finite has been written as [null].
    - The file system is a finite map from paths to file contents, together
      with the set of paths that cannot be replaced or removed and a log of
      the [node:fs] calls made so far.  The temporary file of a
      write-then-rename has a random suffix; it is never read and its name
      is taken to be new, so it is kept apart from the map: when the rename
      fails and nobody removes it, it is added to [litter].
    - [Date.now()] reads the [clock] of the world; a call is instantaneous. *)

From Stdlib Require Import ZArith String Ascii List Bool Lia.
From Stdlib Require Import Floats.SpecFloat.
From stdpp Require Import gmap strings pretty.

Set Warnings "-register-all".
Open Scope Z_scope.

(* ================================================================= *)
(** ** JavaScript numbers *)

(** The numbers of the program: the integers, [NaN], [Infinity] and
    [-Infinity]. *)
Inductive number : Type :=
| Int (z : Z)
| NaN
| Infinity (negative : bool).

Coercion Int : Z >-> number.

(** An optional argument is read at the type the function expects, so that
    [Some 1] is an optional [number]. *)
Arguments Some {A}%_type_scope & a.

Module JSNumber.

(** binary64 *)
Definition prec : Z := 53.
Definition emax : Z := 1024.

Definition MAX_SAFE_INTEGER : Z := 2 ^ 53 - 1.

(** The Number value of an integer: the nearest binary64. *)
Definition Number (z : Z) : spec_float := binary_normalize prec emax z 0 false.

Definition div (x y : spec_float) : spec_float := SFdiv prec emax x y.
Definition mul (x y : spec_float) : spec_float := SFmul prec emax x y.

Definition to_float (x : number) : spec_float :=
  match x with
  | Int z => Number z
  | NaN => S754_nan
  | Infinity s => S754_infinity s
  end.

(** [Math.round]: the integer closest to [x], ties towards +infinity, that
    is [floor (x + 1/2)] computed exactly; [NaN] and the infinities are
    returned as they are. *)
Definition Math_round (x : spec_float) : number :=
  match x with
  | S754_zero _ => Int 0
  | S754_finite s m e =>
      let n := cond_Zopp s (Zpos m) in
      Int (if 0 <=? e then n * 2 ^ e
           else (2 * n + 2 ^ (- e)) / 2 ^ (- e + 1))
  | S754_infinity s => Infinity s
  | S754_nan => NaN
  end.

(** [Math.round((current / total) * 100)] *)
Definition percentage (current total : number) : number :=
  Math_round (mul (div (to_float current) (to_float total)) (Number 100)).

Definition one : spec_float := S754_finite false 4503599627370496 (-52).

(** The binary64 nearest to the integer [z], ties to the even mantissa: an
    integer below 2^53 in absolute value is kept, a larger one keeps its 53
    leading bits, and one that rounds to 2^1024 or more is infinite. *)
Definition round (z : Z) : number :=
  let a := Z.abs z in
  if a <? 2 ^ 53 then Int z
  else
    let e := Z.log2 a - 52 in
    let q := a / 2 ^ e in
    let r := a mod 2 ^ e in
    let half := 2 ^ (e - 1) in
    let m := if r <? half then q
             else if half <? r then q + 1
             else if Z.even q then q else q + 1 in
    let v := m * 2 ^ e in
    if 2 ^ 1024 <=? v then Infinity (z <? 0) else Int (Z.sgn z * v).

(** [x + y] *)
Definition add (x y : number) : number :=
  match x, y with
  | Int a, Int b => round (a + b)
  | Int _, Infinity s | Infinity s, Int _ => Infinity s
  | Infinity s, Infinity s' => if Bool.eqb s s' then Infinity s else NaN
  | _, _ => NaN
  end.

Definition opp (x : number) : number :=
  match x with
  | Int a => Int (- a)
  | NaN => NaN
  | Infinity s => Infinity (negb s)
  end.

(** [x - y] *)
Definition sub (x y : number) : number := add x (opp y).

(** [x < y], [x <= y], [x >= y] and [x === y]: false when an operand is
    [NaN]. *)
Definition ltb (x y : number) : bool :=
  match x, y with
  | Int a, Int b => a <? b
  | Int _, Infinity s => negb s
  | Infinity s, Int _ => s
  | Infinity s, Infinity s' => s && negb s'
  | _, _ => false
  end.

Definition leb (x y : number) : bool :=
  match x, y with
  | Int a, Int b => a <=? b
  | Int _, Infinity s => negb s
  | Infinity s, Int _ => s
  | Infinity s, Infinity s' => s || negb s'
  | _, _ => false
  end.

Definition geb (x y : number) : bool := leb y x.

Definition eqb (x y : number) : bool :=
  match x, y with
  | Int a, Int b => a =? b
  | Infinity s, Infinity s' => Bool.eqb s s'
  | _, _ => false
  end.

Definition isNaN (x : number) : bool :=
  match x with NaN => true | _ => false end.

(** [Math.min(x, y)] *)
Definition min (x y : number) : number :=
  if isNaN x || isNaN y then NaN
  else if ltb y x then y else x.

End JSNumber.

(* ================================================================= *)
(** ** JSON values and JavaScript objects *)

(** The values the program holds in memory and gives to [JSON.stringify].
    [JNum], [JNaN] and [JInfinity] are the numbers; [JSON.parse] returns
    none of the last two.  Arrays do not occur in the files of this program
    and are left out. *)
Inductive json : Type :=
| JNull
| JBool (b : bool)
| JNum (n : Z)
| JNaN
| JInfinity (negative : bool)
| JStr (s : string)
| JObj (fields : list (string * json)).

Definition obj : Type := list (string * json).

(** Insertion-ordered string-keyed tables: the properties of an object, the
    entries of a [Map<string, V>]. *)
Section Properties.
Context {V : Type}.

(** [o[k]], [m.get(k)]: [None] is [undefined]. *)
Fixpoint get_field (k : string) (o : list (string * V)) : option V :=
  match o with
  | [] => None
  | (k', v) :: o' => if String.eqb k k' then Some v else get_field k o'
  end.

(** [m.set(k, v)], and [o.k = v] for a property name [k] that is written
    out in the source: an existing key keeps its place, a new one goes
    last. *)
Fixpoint set_field (k : string) (v : V) (o : list (string * V)) : list (string * V) :=
  match o with
  | [] => [(k, v)]
  | (k', v') :: o' =>
      if String.eqb k k' then (k, v) :: o' else (k', v') :: set_field k v o'
  end.

(** [delete o[k]], [m.delete(k)] *)
Fixpoint delete_field (k : string) (o : list (string * V)) : list (string * V) :=
  match o with
  | [] => []
  | (k', v') :: o' =>
      if String.eqb k k' then delete_field k o' else (k', v') :: delete_field k o'
  end.
End Properties.

(** The value of a decimal digit. *)
Definition digit (a : ascii) : option N :=
  let n := N_of_ascii a in
  if ((48 <=? n) && (n <=? 57))%N then Some (n - 48)%N else None.

Fixpoint digits_value (s : string) (acc : N) : option N :=
  match s with
  | EmptyString => Some acc
  | String a s' =>
      match digit a with
      | Some d => digits_value s' (10 * acc + d)%N
      | None => None
      end
  end.

(** A property name is an array index when it is the decimal numeral,
    without leading zeros, of an integer below 2^32 - 1. *)
Definition array_index (k : string) : option N :=
  match k with
  | EmptyString => None
  | String a rest =>
      if Ascii.eqb a "0" then (if String.eqb rest "" then Some 0%N else None)
      else match digits_value k 0 with
           | Some n => if (n <? 2 ^ 32 - 1)%N then Some n else None
           | None => None
           end
  end.

(** A new property whose name is the array index [n] goes after the array
    indices below [n] and before every other property. *)
Fixpoint insert_index (n : N) (k : string) (v : json) (o : obj) : obj :=
  match o with
  | [] => [(k, v)]
  | (k', v') :: o' =>
      match array_index k' with
      | Some n' => if (n' <? n)%N then (k', v') :: insert_index n k v o'
                   else (k, v) :: o
      | None => (k, v) :: o
      end
  end.

(** [o[k] = v] on a parsed object, for a name [k] computed at run time.  An
    own property is replaced in place.  Otherwise the name [__proto__]
    reaches the setter of [Object.prototype], which changes the prototype
    of [o] and adds no property; an array index is placed among the array
    indices; any other name goes last. *)
Definition js_assign (k : string) (v : json) (o : obj) : obj :=
  match get_field k o with
  | Some _ => set_field k v o
  | None =>
      if String.eqb k "__proto__" then o
      else match array_index k with
           | Some n => insert_index n k v o
           | None => o ++ [(k, v)]
           end
  end.

(** [typeof v === 'number'] *)
Definition is_number (v : option json) : bool :=
  match v with
  | Some (JNum _) | Some JNaN | Some (JInfinity _) => true
  | _ => false
  end.

(** Reading a property that holds an integer. *)
Definition num_field (k : string) (o : obj) : Z :=
  match get_field k o with Some (JNum n) => n | _ => 0 end.

(** Reading a property that [is_number] has accepted or that the code has
    just assigned a number to. *)
Definition number_field (k : string) (o : obj) : number :=
  match get_field k o with
  | Some (JNum n) => Int n
  | Some (JInfinity s) => Infinity s
  | _ => NaN
  end.

(** A number as a value. *)
Definition json_of_number (n : number) : json :=
  match n with
  | Int z => JNum z
  | NaN => JNaN
  | Infinity s => JInfinity s
  end.

(** [JSON.parse(JSON.stringify(j))]: [JSON.stringify] writes [null] for a
    number that is not finite. *)
Fixpoint as_parsed (j : json) : json :=
  match j with
  | JNaN | JInfinity _ => JNull
  | JObj fields =>
      JObj ((fix each (fs : list (string * json)) : list (string * json) :=
               match fs with
               | [] => []
               | (k, v) :: fs' => (k, as_parsed v) :: each fs'
               end) fields)
  | _ => j
  end.

Definition as_parsed_fields (o : obj) : obj :=
  match as_parsed (JObj o) with JObj o' => o' | _ => o end.

(** Truthiness of an optional string argument: [undefined] and [""] are
    falsy. *)
Definition truthy (s : option string) : option string :=
  match s with
  | Some EmptyString | None => None
  | Some s' => Some s'
  end.

(** [s || d] *)
Definition or_default (s : option string) (d : string) : string :=
  match truthy s with Some s' => s' | None => d end.

(* ================================================================= *)
(** ** Results and exceptions *)

(** [type Result<T> = { ok: true; value: T } | { ok: false; error: string }] *)
Inductive Result (T : Type) : Type :=
| Ok (value : T)
| Err (error : string).
Arguments Ok {T} value.
Arguments Err {T} error.

Definition is_ok {T} (r : Result T) : bool :=
  match r with Ok _ => true | Err _ => false end.

(** How a call that may throw ends. *)
Inductive outcome (T : Type) : Type :=
| Returned (v : T)
| Threw (message : string).
Arguments Returned {T} v.
Arguments Threw {T} message.

(* ================================================================= *)
(** ** The world: files, clock, entropy *)

(** The text of a file: either it does not parse as JSON, or it is the
    text [JSON.stringify] writes for a value. *)
Inductive content : Type :=
| Malformed
| Doc (j : json).

(** [JSON.parse(text)]; [None] when it throws. *)
Definition JSON_parse (text : content) : option json :=
  match text with
  | Malformed => None
  | Doc j => Some (as_parsed j)
  end.

Inductive fs_event : Type :=
| EExists (path : string)
| ERead (path : string)
| EWriteTemp (path : string)
| ERename (path : string)
| EUnlink (path : string).

Record World : Type := mkWorld {
  files : gmap string content;
  readonly : gset string;     (* paths that cannot be replaced or removed *)
  clock : Z;                  (* Date.now() *)
  entropy : string;           (* randomBytes(n).toString('hex') *)
  log : list fs_event;        (* node:fs calls, oldest first *)
  litter : list string        (* temporary files left behind, newest first *)
}.

Definition IO (A : Type) : Type := World -> A * World.

Definition ret {A} (a : A) : IO A := fun w => (a, w).
Definition bind {A B} (c : IO A) (k : A -> IO B) : IO B :=
  fun w => let (a, w') := c w in k a w'.

Notation "'let*' x ':=' c 'in' k" := (bind c (fun x => k))
  (at level 10, x pattern, c at level 100, k at level 200).

Definition record_event (e : fs_event) (w : World) : World :=
  mkWorld (files w) (readonly w) (clock w) (entropy w) (log w ++ [e]) (litter w).

Definition with_files (f : gmap string content) (w : World) : World :=
  mkWorld f (readonly w) (clock w) (entropy w) (log w) (litter w).

Definition with_litter (l : list string) (w : World) : World :=
  mkWorld (files w) (readonly w) (clock w) (entropy w) (log w) l.

Definition Date_now : IO Z := fun w => (clock w, w).

Definition randomHex : IO string := fun w => (entropy w, w).

(** [existsSync(path)] *)
Definition existsSync (path : string) : IO bool :=
  fun w => (bool_decide (is_Some (files w !! path)), record_event (EExists path) w).

(** [readFileSync(path, 'utf-8')]; [None] when it throws (no such file). *)
Definition readFileSync (path : string) : IO (option content) :=
  fun w => (files w !! path, record_event (ERead path) w).

(** [writeFileSync(tempPath, text)] followed by [renameSync(tempPath, path)].
    The temporary file is written; when the rename succeeds it has become
    the file at [path], when the rename throws it stays where it is.  The
    result is [false] when the rename throws. *)
Definition writeTempAndRename (tempPath path : string) (text : content) : IO bool :=
  fun w =>
    let w1 := record_event (EWriteTemp path) w in
    if bool_decide (path ∈ readonly w)
    then (false, with_litter (tempPath :: litter w1) w1)
    else (true, with_files (<[path := text]> (files w)) (record_event (ERename path) w1)).

Fixpoint remove_first (x : string) (l : list string) : list string :=
  match l with
  | [] => []
  | y :: l' => if String.eqb x y then l' else y :: remove_first x l'
  end.

(** [if (existsSync(tempPath)) { unlinkSync(tempPath); }] on a temporary
    file that has been left behind. *)
Definition removeTemp (tempPath : string) : IO unit :=
  fun w =>
    let w1 := record_event (EUnlink tempPath) (record_event (EExists tempPath) w) in
    (tt, with_litter (remove_first tempPath (litter w1)) w1).

(** [unlinkSync(path)]; [false] when it throws. *)
Definition unlinkSync (path : string) : IO bool :=
  fun w =>
    let w1 := record_event (EUnlink path) w in
    if bool_decide (path ∈ readonly w) then (false, w1)
    else match files w !! path with
         | None => (false, w1)
         | Some _ => (true, with_files (delete path (files w)) w1)
         end.

(** [tmpdir()] *)
Definition tmpdir : string := "/tmp".

(** [path.split('/')] *)
Fixpoint segments (path : string) : list string :=
  match path with
  | EmptyString => [EmptyString]
  | String a rest =>
      if Ascii.eqb a "/" then EmptyString :: segments rest
      else match segments rest with
           | seg :: more => String a seg :: more
           | [] => [String a EmptyString]
           end
  end.

(** One step of the normalization of a path: [stack] holds the segments
    kept so far, the last one first.  An empty segment and [.] are dropped;
    [..] removes the segment before it, or is dropped at the root of an
    absolute path. *)
Definition resolve_segment (allowAboveRoot : bool) (stack : list string) (seg : string)
  : list string :=
  if String.eqb seg "" || String.eqb seg "." then stack
  else if String.eqb seg ".." then
    match stack with
    | top :: below =>
        if String.eqb top ".." then (if allowAboveRoot then seg :: stack else stack)
        else below
    | [] => if allowAboveRoot then [seg] else []
    end
  else seg :: stack.

Definition starts_with_slash (path : string) : bool :=
  match path with
  | String a _ => Ascii.eqb a "/"
  | EmptyString => false
  end.

Fixpoint ends_with_slash (path : string) : bool :=
  match path with
  | EmptyString => false
  | String a EmptyString => Ascii.eqb a "/"
  | String _ rest => ends_with_slash rest
  end.

(** [normalize(path)] of [node:path] (POSIX) *)
Definition normalize (path : string) : string :=
  if String.eqb path "" then "."
  else
    let isAbsolute := starts_with_slash path in
    let trailing := ends_with_slash path in
    let kept := rev (fold_left (resolve_segment (negb isAbsolute)) (segments path) []) in
    let body := String.concat "/" kept in
    if String.eqb body "" then
      (if isAbsolute then "/" else if trailing then "./" else ".")
    else (if isAbsolute then "/" else "") +:+ body +:+ (if trailing then "/" else "").

(** [join(dir, name)] of [node:path] *)
Definition join (dir name : string) : string :=
  if String.eqb dir "" then normalize name
  else if String.eqb name "" then normalize dir
  else normalize (dir +:+ "/" +:+ name).

(* ================================================================= *)
(** ** Security helpers ([src/index.ts]) *)

Definition MAX_MESSAGE_LENGTH : Z := 10000.

Definition strlen (s : string) : Z := Z.of_nat (String.length s).

(** The character class [[a-zA-Z0-9_-]]. *)
Definition is_id_char (a : ascii) : bool :=
  let n := N_of_ascii a in
  ((97 <=? n) && (n <=? 122) || (65 <=? n) && (n <=? 90)
   || (48 <=? n) && (n <=? 57) || (n =? 95) || (n =? 45))%N.

Fixpoint all_chars (p : ascii -> bool) (s : string) : bool :=
  match s with
  | EmptyString => true
  | String a s' => p a && all_chars p s'
  end.

(** [/^[a-zA-Z0-9_-]+$/.test(id)] *)
Definition id_regex_test (id : string) : bool :=
  match id with
  | EmptyString => false
  | _ => all_chars is_id_char id
  end.

Definition validateId (id : string) : Result string :=
  if (strlen id =? 0) then Err "ID cannot be empty"
  else if (255 <? strlen id) then Err "ID exceeds maximum length (255 characters)"
  else if negb (id_regex_test id)
  then Err "ID must contain only alphanumeric characters, hyphens, and underscores"
  else Ok id.

(** [filePath.includes(NUL)] *)
Fixpoint includes_nul (s : string) : bool :=
  match s with
  | EmptyString => false
  | String a s' => (N_of_ascii a =? 0)%N || includes_nul s'
  end.

Definition validateFilePath (filePath : string) : Result string :=
  if (strlen filePath =? 0) then Err "File path cannot be empty"
  else if includes_nul filePath then Err "File path contains null byte"
  else Ok filePath.

Definition validateMessage (message : string) : Result string :=
  if (MAX_MESSAGE_LENGTH <? strlen message)
  then Err "Message exceeds maximum length (10000 characters)"
  else Ok message.

(* ================================================================= *)
(** ** Core functions ([src/index.ts]) *)

(** [interface ProgressState], with whole numbers in its numeric fields. *)
Record ProgressState : Type := mkProgressState {
  total : Z;
  current : Z;
  message : string;
  percentage : Z;
  startTime : Z;
  updatedTime : Z;
  complete : bool
}.

(** The object literal with the seven properties of a [ProgressState], in
    the order the source writes them. *)
Definition state_object (s : ProgressState) : obj :=
  [ ("total", JNum (total s));
    ("current", JNum (current s));
    ("message", JStr (message s));
    ("percentage", JNum (percentage s));
    ("startTime", JNum (startTime s));
    ("updatedTime", JNum (updatedTime s));
    ("complete", JBool (complete s)) ].

(** [interface ProgressConfig] *)
Record ProgressConfig : Type := mkConfig {
  id : option string;
  filePath : option string
}.

Definition getProgressFilePath (config : ProgressConfig) : Result string :=
  match truthy (filePath config) with
  | Some fp =>
      match validateFilePath fp with
      | Err e => Err e
      | Ok _ => Ok fp
      end
  | None =>
      let id := or_default (id config) "default" in
      match validateId id with
      | Err e => Err e
      | Ok _ => Ok (join tmpdir ("progress-" +:+ id +:+ ".json"))
      end
  end.

(** The [catch] of [writeProgressAtomic] returns the error and leaves the
    temporary file where it is. *)
Definition writeProgressAtomic (filePath : string) (state : obj) : IO (Result unit) :=
  let* hex := randomHex in
  let tempPath := filePath +:+ ".tmp." +:+ hex in
  let* written := writeTempAndRename tempPath filePath (Doc (JObj state)) in
  ret (if written : bool then Ok tt
       else Err "Failed to write progress: permission denied").

Definition readProgress (filePath : string) : IO (Result obj) :=
  let* present := existsSync filePath in
  if negb present then ret (Err "Progress file does not exist")
  else
    let* text := readFileSync filePath in
    ret (match text with
         | None => Err "Failed to read progress: no such file or directory"
         | Some text =>
             match JSON_parse text with
             | None => Err "Failed to read progress: Unexpected token in JSON"
             | Some JNull =>
                 Err "Failed to read progress: Cannot read properties of null"
             | Some (JObj state) =>
                 if negb (is_number (get_field "total" state))
                    || negb (is_number (get_field "current" state))
                 then Err "Invalid progress file format"
                 else Ok state
             | Some _ => Err "Invalid progress file format"
             end
         end).

(** The object literal of [init].  [message = None] is the argument
    [undefined]: the property then reads as [undefined] and
    [JSON.stringify] leaves it out, so it is not listed. *)
Definition initial_state (total : number) (message : option json) (now : Z) : obj :=
  [ ("total", json_of_number total); ("current", JNum 0) ]
  ++ match message with Some m => [("message", m)] | None => [] end
  ++ [ ("percentage", JNum 0); ("startTime", JNum now); ("updatedTime", JNum now);
       ("complete", JBool false) ].

(** [init] on the arguments it can receive at run time: the types of
    TypeScript are not checked when a caller passes a value it has parsed,
    as [MultiProgress.sync] does with the message. *)
Definition init_with (total : number) (message : option json) (config : ProgressConfig)
  : IO (Result obj) :=
  if JSNumber.isNaN total || JSNumber.leb total 0
  then ret (Err "Total must be a valid number greater than 0")
  else
    let* now := Date_now in
    let state := initial_state total message now in
    match getProgressFilePath config with
    | Err e => ret (Err e)
    | Ok path =>
        let* writeResult := writeProgressAtomic path state in
        match writeResult with
        | Err e => ret (Err e)
        | Ok _ => ret (Ok state)
        end
    end.

(** [init(total, message, config)] *)
Definition init (total : number) (message : string) (config : ProgressConfig)
  : IO (Result obj) :=
  init_with total (Some (JStr message)) config.

(** [if (message) { state.message = message; }] *)
Definition assign_message (message : option string) (state : obj) : obj :=
  match truthy message with
  | Some m => set_field "message" (JStr m) state
  | None => state
  end.

(** [if (state.current >= state.total) { state.complete = true; }] *)
Definition raise_complete (state : obj) : obj :=
  if JSNumber.geb (number_field "current" state) (number_field "total" state)
  then set_field "complete" (JBool true) state
  else state.

(** The assignments [state.current = ...; state.percentage = ...;
    state.updatedTime = ...] shared by [increment] and [set]. *)
Definition assign_progress (current' : number) (now : Z) (state : obj) : obj :=
  let state := set_field "current" (json_of_number current') state in
  let state := set_field "percentage"
    (json_of_number
       (JSNumber.percentage (number_field "current" state) (number_field "total" state)))
    state in
  set_field "updatedTime" (JNum now) state.

Definition increment (amount : option number) (message : option string)
  (config : ProgressConfig) : IO (Result obj) :=
  let amount := default (Int 1) amount in
  if JSNumber.ltb amount 0 then ret (Err "Increment amount must be non-negative")
  else
    match getProgressFilePath config with
    | Err e => ret (Err e)
    | Ok path =>
        let* readResult := readProgress path in
        match readResult with
        | Err e => ret (Err e)
        | Ok state =>
            let* now := Date_now in
            let state :=
              assign_progress
                (JSNumber.min (JSNumber.add (number_field "current" state) amount)
                              (number_field "total" state))
                now state in
            let state := assign_message message state in
            let state := raise_complete state in
            let* writeResult := writeProgressAtomic path state in
            match writeResult with
            | Err e => ret (Err e)
            | Ok _ => ret (Ok state)
            end
        end
    end.

Definition set (current : number) (message : option string)
  (config : ProgressConfig) : IO (Result obj) :=
  if JSNumber.ltb current 0 then ret (Err "Current value must be non-negative")
  else
    match getProgressFilePath config with
    | Err e => ret (Err e)
    | Ok path =>
        let* readResult := readProgress path in
        match readResult with
        | Err e => ret (Err e)
        | Ok state =>
            let* now := Date_now in
            let state :=
              assign_progress (JSNumber.min current (number_field "total" state))
                              now state in
            let state := assign_message message state in
            let state := raise_complete state in
            let* writeResult := writeProgressAtomic path state in
            match writeResult with
            | Err e => ret (Err e)
            | Ok _ => ret (Ok state)
            end
        end
    end.

Definition finish (message : option string) (config : ProgressConfig)
  : IO (Result obj) :=
  match getProgressFilePath config with
  | Err e => ret (Err e)
  | Ok path =>
      let* readResult := readProgress path in
      match readResult with
      | Err e => ret (Err e)
      | Ok state =>
          let state :=
            set_field "current" (json_of_number (number_field "total" state)) state in
          let state := set_field "percentage" (JNum 100) state in
          let state := set_field "complete" (JBool true) state in
          let* now := Date_now in
          let state := set_field "updatedTime" (JNum now) state in
          let state := assign_message message state in
          let* writeResult := writeProgressAtomic path state in
          match writeResult with
          | Err e => ret (Err e)
          | Ok _ => ret (Ok state)
          end
      end
  end.

Definition get (config : ProgressConfig) : IO (Result obj) :=
  match getProgressFilePath config with
  | Err e => ret (Err e)
  | Ok path => readProgress path
  end.

Definition clear (config : ProgressConfig) : IO (Result unit) :=
  match getProgressFilePath config with
  | Err e => ret (Err e)
  | Ok path =>
      let* present := existsSync path in
      if present : bool then
        let* removed := unlinkSync path in
        ret (if removed : bool then Ok tt
             else Err "Failed to clear progress: permission denied")
      else ret (Ok tt)
  end.

(* ================================================================= *)
(** ** ProgressTracker ([src/progress-builder.ts]) *)

(** [interface ProgressTrackerConfig]: [total], [message] and the two
    optional fields of [ProgressConfig]. *)
Record ProgressTrackerConfig : Type := mkTrackerConfig {
  tc_total : number;
  tc_message : string;
  tc_id : option string;
  tc_filePath : option string
}.

Module ProgressTracker.

(** [class ProgressTracker]: its one field is the configuration
    [{ id, filePath }] that names the backing file. *)
Record t : Type := mk { config : ProgressConfig }.

(** The constructor on the arguments it can receive at run time; see
    [init_with].  It keeps the configuration, calls [init] and throws when
    [init] fails. *)
Definition construct (total : number) (message : option json)
  (id filePath : option string) : IO (outcome t) :=
  let config := mkConfig id filePath in
  let* result := init_with total message config in
  ret (match result with
       | Ok _ => Returned (mk config)
       | Err e => Threw ("Failed to initialize progress tracker: " +:+ e)
       end).

(** [new ProgressTracker(config)] *)
Definition new (c : ProgressTrackerConfig) : IO (outcome t) :=
  construct (tc_total c) (Some (JStr (tc_message c))) (tc_id c) (tc_filePath c).

(** [increment(amount = 1, message?)] *)
Definition increment (self : t) (amount : option number) (message : option string)
  : IO (Result obj) := increment amount message (config self).

Definition update (self : t) (value : number) (message : option string)
  : IO (Result obj) := set value message (config self).

Definition done (self : t) (message : option string) : IO (Result obj) :=
  finish message (config self).

Definition get (self : t) : IO (Result obj) := get (config self).

Definition clear (self : t) : IO (Result unit) := clear (config self).

End ProgressTracker.

(* ================================================================= *)
(** ** MultiProgress ([src/multi-progress.ts]) *)

(** [interface MultiProgressTrackerConfig] *)
Record MultiProgressTrackerConfig : Type := mkMemberConfig {
  mc_total : number;
  mc_message : string;
  mc_trackerId : option string
}.

(** [interface MultiProgressConfig] *)
Record MultiProgressConfig : Type := mkMultiConfig {
  mpc_id : option string;
  mpc_filePath : option string
}.

Module MultiProgress.

(** The fields of the class; [trackers] is the [Map] of the handles this
    instance has seen. *)
Record t : Type := mk {
  id : string;
  filePath : string;
  trackers : list (string * ProgressTracker.t)
}.

Definition with_trackers (self : t) (m : list (string * ProgressTracker.t)) : t :=
  mk (id self) (filePath self) m.

(** [j[k1][k2] = v] on a parsed document, where [k1] is written out in the
    source and [k2] is computed; [None] when it throws a [TypeError]
    because [j[k1]] is not an object. *)
Definition assign_in (k1 k2 : string) (v : json) (j : json) : option json :=
  match j with
  | JObj o =>
      match get_field k1 o with
      | Some (JObj inner) => Some (JObj (set_field k1 (JObj (js_assign k2 v inner)) o))
      | _ => None
      end
  | _ => None
  end.

(** [delete j[k1][k2]]; [None] when it throws a [TypeError] because
    [j[k1]] is [undefined] or [null]. *)
Definition delete_in (k1 k2 : string) (j : json) : option json :=
  match j with
  | JObj o =>
      match get_field k1 o with
      | Some (JObj inner) => Some (JObj (set_field k1 (JObj (delete_field k2 inner)) o))
      | Some JNull | None => None
      | Some _ => Some j
      end
  | _ => None
  end.

Definition readState (self : t) : IO (Result json) :=
  let* present := existsSync (filePath self) in
  if negb present then ret (Err "Multi-progress not initialized")
  else
    let* text := readFileSync (filePath self) in
    ret (match text with
         | None => Err "Failed to read multi-progress state: no such file or directory"
         | Some text =>
             match JSON_parse text with
             | None => Err "Failed to read multi-progress state: Unexpected token in JSON"
             | Some state => Ok state
             end
         end).

(** The [catch] of [writeState] removes the temporary file and throws the
    error again. *)
Definition writeState (self : t) (state : json) : IO (outcome unit) :=
  let* hex := randomHex in
  let tempPath := filePath self +:+ "." +:+ hex +:+ ".tmp" in
  let* written := writeTempAndRename tempPath (filePath self) (Doc state) in
  if written : bool then ret (Returned tt)
  else
    let* _ := removeTemp tempPath in
    ret (Threw "permission denied").

Definition generateTrackerId : IO string :=
  let* now := Date_now in
  let* hex := randomHex in
  ret ("tracker-" +:+ pretty now +:+ "-" +:+ hex).

Definition new (config : MultiProgressConfig) : IO (outcome t) :=
  let id := or_default (mpc_id config) "default" in
  let filePath :=
    or_default (mpc_filePath config)
               (join tmpdir ("progress-multi-" +:+ id +:+ ".json")) in
  let self := mk id filePath [] in
  let* present := existsSync filePath in
  if negb present then
    let* created := Date_now in
    let* updated := Date_now in
    let initialState :=
      JObj [ ("trackers", JObj []);
             ("meta", JObj [("created", JNum created); ("updated", JNum updated)]) ] in
    let* w := writeState self initialState in
    ret (match w with
         | Returned _ => Returned self
         | Threw e => Threw e
         end)
  else ret (Returned self).

Definition TypeError : string := "TypeError: Cannot set properties of undefined".

(** The mirror update shared by [add], [remove] and [done]:
    [stateResult.value.meta.updated = Date.now(); this.writeState(...)]. *)
Definition touch_and_write (self : t) (value : json) : IO (outcome unit) :=
  let* now := Date_now in
  match assign_in "meta" "updated" (JNum now) value with
  | None => ret (Threw TypeError)
  | Some value => writeState self value
  end.

Definition add (self : t) (config : MultiProgressTrackerConfig)
  : IO (outcome ProgressTracker.t * t) :=
  let* trackerId :=
    match truthy (mc_trackerId config) with
    | Some i => ret i
    | None => generateTrackerId
    end in
  let* created :=
    ProgressTracker.new
      (mkTrackerConfig (mc_total config) (mc_message config)
                       (Some (id self +:+ "-" +:+ trackerId)) None) in
  match created with
  | Threw e => ret (Threw e, self)
  | Returned tracker =>
      let self := with_trackers self (set_field trackerId tracker (trackers self)) in
      let* stateResult := readState self in
      match stateResult with
      | Ok value =>
          let* trackerState := ProgressTracker.get tracker in
          match trackerState with
          | Ok ts =>
              match assign_in "trackers" trackerId (JObj ts) value with
              | None => ret (Threw TypeError, self)
              | Some value =>
                  let* w := touch_and_write self value in
                  ret (match w with
                       | Returned _ => Returned tracker
                       | Threw e => Threw e
                       end, self)
              end
          | Err _ => ret (Returned tracker, self)
          end
      | Err _ => ret (Returned tracker, self)
      end
  end.

Definition get (self : t) (trackerId : string) : Result ProgressTracker.t :=
  match get_field trackerId (trackers self) with
  | None => Err ("Tracker not found: " +:+ trackerId)
  | Some tracker => Ok tracker
  end.

Definition getAll (self : t) : Result (list (string * ProgressTracker.t)) :=
  Ok (trackers self).

Definition status (self : t) : IO (Result json) := readState self.

Definition remove (self : t) (trackerId : string) : IO (outcome (Result unit) * t) :=
  match get_field trackerId (trackers self) with
  | None => ret (Returned (Err ("Tracker not found: " +:+ trackerId)), self)
  | Some tracker =>
      let* _ := ProgressTracker.clear tracker in
      let self := with_trackers self (delete_field trackerId (trackers self)) in
      let* stateResult := readState self in
      match stateResult with
      | Ok value =>
          match delete_in "trackers" trackerId value with
          | None => ret (Threw TypeError, self)
          | Some value =>
              let* w := touch_and_write self value in
              ret (match w with
                   | Returned _ => Returned (Ok tt)
                   | Threw e => Threw e
                   end, self)
          end
      | Err _ => ret (Returned (Ok tt), self)
      end
  end.

(** [for (const tracker of this.trackers.values()) { tracker.done(); }] *)
Fixpoint done_all (ts : list (string * ProgressTracker.t)) : IO unit :=
  match ts with
  | [] => ret tt
  | (_, tracker) :: rest =>
      let* _ := ProgressTracker.done tracker None in
      done_all rest
  end.

(** The loop of [done] that copies every member's state into the parsed
    aggregate. *)
Fixpoint mirror_all (ts : list (string * ProgressTracker.t)) (value : json)
  : IO (outcome json) :=
  match ts with
  | [] => ret (Returned value)
  | (trackerId, tracker) :: rest =>
      let* trackerState := ProgressTracker.get tracker in
      match trackerState with
      | Ok st =>
          match assign_in "trackers" trackerId (JObj st) value with
          | None => ret (Threw TypeError)
          | Some value => mirror_all rest value
          end
      | Err _ => mirror_all rest value
      end
  end.

Definition done (self : t) : IO (outcome (Result unit)) :=
  let* _ := done_all (trackers self) in
  let* stateResult := readState self in
  match stateResult with
  | Ok value =>
      let* mirrored := mirror_all (trackers self) value in
      match mirrored with
      | Threw e => ret (Threw e)
      | Returned value =>
          let* w := touch_and_write self value in
          ret (match w with
               | Returned _ => Returned (Ok tt)
               | Threw e => Threw e
               end)
      end
  | Err _ => ret (Returned (Ok tt))
  end.

Fixpoint clear_all (ts : list (string * ProgressTracker.t)) : IO unit :=
  match ts with
  | [] => ret tt
  | (_, tracker) :: rest =>
      let* _ := ProgressTracker.clear tracker in
      clear_all rest
  end.

Definition clear (self : t) : IO (Result unit * t) :=
  let* _ := clear_all (trackers self) in
  let self := with_trackers self [] in
  let* present := existsSync (filePath self) in
  if present : bool then
    let* removed := unlinkSync (filePath self) in
    ret (if removed : bool then Ok tt
         else Err "Failed to clear multi-progress: permission denied", self)
  else ret (Ok tt, self).

(** [Object.entries(stateResult.value.trackers)]; [None] when it throws a
    [TypeError] because the operand is [undefined] or [null]. *)
Definition entries (value : json) : option (list (string * json)) :=
  match value with
  | JObj o =>
      match get_field "trackers" o with
      | Some (JObj members) => Some members
      | Some (JStr s) =>
          Some (imap (fun i a => (pretty i, JStr (String a EmptyString)))
                     (list_ascii_of_string s))
      | Some (JNum _) | Some JNaN | Some (JInfinity _) | Some (JBool _) => Some []
      | Some JNull | None => None
      end
  | _ => None
  end.

(** What [sync] reads in an entry of the aggregate before it constructs a
    tracker: [trackerState.total] as [init] sees it in its test
    [isNaN(total) || total <= 0], and [trackerState.message]. *)
Inductive entry_arguments : Type :=
| ReadThrows
| Given (total : number) (message : option json)
| Unrepresented.

(** Reading [.total] of [null] throws a [TypeError]; a property of a number,
    a string or a boolean is [undefined].  In the test of [init] a total
    that is [undefined] or an object counts as [NaN], and [null] and
    [false] count as 0: [init] fails on all of them.  A total that is
    [true] or a string is converted by [Number] and, when [init] accepts
    it, is written as it is; that conversion is not represented. *)
Definition entry_arguments_of (trackerState : json) : entry_arguments :=
  match trackerState with
  | JNull => ReadThrows
  | JObj o =>
      let message := get_field "message" o in
      match get_field "total" o with
      | Some (JNum z) => Given (Int z) message
      | Some (JInfinity s) => Given (Infinity s) message
      | Some JNaN | Some (JObj _) | None => Given NaN message
      | Some JNull | Some (JBool false) => Given (Int 0) message
      | Some (JBool true) | Some (JStr _) => Unrepresented
      end
  | _ => Given NaN None
  end.

(** The loop of [sync]: a member this instance knows is skipped, for any
    other a tracker is constructed and kept.  The result is [None] when the
    loop meets an entry whose total is not represented. *)
Fixpoint sync_entries (self : t) (es : list (string * json))
  : IO (option (outcome unit) * t) :=
  match es with
  | [] => ret (Some (Returned tt), self)
  | (trackerId, trackerState) :: rest =>
      match get_field trackerId (trackers self) with
      | Some _ => sync_entries self rest
      | None =>
          match entry_arguments_of trackerState with
          | Unrepresented => ret (None, self)
          | ReadThrows =>
              ret (Some (Threw "TypeError: Cannot read properties of null"), self)
          | Given total message =>
              let* created :=
                ProgressTracker.construct total message
                  (Some (id self +:+ "-" +:+ trackerId)) None in
              match created with
              | Threw e => ret (Some (Threw e), self)
              | Returned newTracker =>
                  sync_entries
                    (with_trackers self (set_field trackerId newTracker (trackers self)))
                    rest
              end
          end
      end
  end.

Definition sync (self : t) : IO (option (outcome (Result unit)) * t) :=
  let* stateResult := readState self in
  match stateResult with
  | Err e => ret (Some (Returned (Err e)), self)
  | Ok value =>
      match entries value with
      | None => ret (Some (Threw TypeError), self)
      | Some es =>
          let* r := sync_entries self es in
          ret (match fst r with
               | Some (Returned _) => Some (Returned (Ok tt))
               | Some (Threw e) => Some (Threw e)
               | None => None
               end, snd r)
      end
  end.

End MultiProgress.

(* ================================================================= *)
(** ** ProgressTransform ([src/stream-wrapper.ts]) *)

(** [interface StreamProgressConfig] *)
Record StreamProgressConfig : Type := mkStreamConfig {
  sc_tracker : ProgressTrackerConfig;
  sc_updateInterval : option number
}.

Module ProgressTransform.

Record t : Type := mk {
  tracker : ProgressTracker.t;
  updateInterval : number;
  bytesProcessed : number;
  lastEmittedBytes : number
}.

(** A chunk is a [Buffer]; its size is [chunk.length]. *)
Definition chunk : Type := list Byte.byte.
Definition chunkSize (c : chunk) : Z := Z.of_nat (List.length c).

(** What one call of [_transform] or [_flush] does besides updating the
    fields: the ['progress'] events it emits and the argument it gives to
    its callback ([pushed = None] for [callback()]). *)
Inductive callback : Type :=
| CbError (message : string)
| CbOk (pushed : option chunk).

Record step : Type := mkStep {
  self' : t;
  emitted : list obj;
  called : callback
}.

Definition new (config : StreamProgressConfig) : IO (outcome t) :=
  let* created := ProgressTracker.new (sc_tracker config) in
  ret (match created with
       | Threw e => Threw e
       | Returned tracker =>
           Returned (mk tracker (default (Int 0) (sc_updateInterval config)) 0 0)
       end).

Definition _transform (self : t) (c : chunk) : IO step :=
  let bytesProcessed := JSNumber.add (bytesProcessed self) (chunkSize c) in
  let self := mk (tracker self) (updateInterval self) bytesProcessed (lastEmittedBytes self) in
  let* result := ProgressTracker.update (tracker self) bytesProcessed None in
  match result with
  | Err e => ret (mkStep self [] (CbError ("Progress tracking error: " +:+ e)))
  | Ok value =>
      let bytesSinceLastEmit := JSNumber.sub bytesProcessed (lastEmittedBytes self) in
      if JSNumber.eqb (updateInterval self) 0
         || JSNumber.geb bytesSinceLastEmit (updateInterval self)
      then ret (mkStep (mk (tracker self) (updateInterval self) bytesProcessed bytesProcessed)
                       [value] (CbOk (Some c)))
      else ret (mkStep self [] (CbOk (Some c)))
  end.

Definition _flush (self : t) : IO step :=
  let* result := ProgressTracker.done (tracker self) None in
  match result with
  | Err e => ret (mkStep self [] (CbError ("Failed to complete progress: " +:+ e)))
  | Ok value => ret (mkStep self [value] (CbOk None))
  end.

(** The stream machinery around the two hooks: chunks are handed to
    [_transform] one after the other; an error given to the callback
    destroys the stream; when the input ends, [_flush] runs.  The result
    lists the events emitted, in order, and the chunks the reader of the
    stream receives: a chunk pushed with no byte in it is not queued. *)
Record run_result : Type := mkRun {
  final : t;
  events : list obj;
  output : list chunk;
  failure : option string
}.

Definition readable_push (pushed : option chunk) (queue : list chunk) : list chunk :=
  match pushed with
  | Some p => if chunkSize p =? 0 then queue else p :: queue
  | None => queue
  end.

Fixpoint run (self : t) (chunks : list chunk) : IO run_result :=
  match chunks with
  | [] =>
      let* s := _flush self in
      ret (mkRun (self' s) (emitted s) []
                 (match called s with CbError e => Some e | CbOk _ => None end))
  | c :: rest =>
      let* s := _transform self c in
      match called s with
      | CbError e => ret (mkRun (self' s) (emitted s) [] (Some e))
      | CbOk pushed =>
          let* r := run (self' s) rest in
          ret (mkRun (final r) (emitted s ++ events r)
                     (readable_push pushed (output r))
                     (failure r))
      end
  end.

End ProgressTransform.

(* ================================================================= *)
(** ** The tracker factory and the builder
       ([src/index.ts], [src/progress-builder.ts]) *)

(** [createProgress(config)] returns [new ProgressTracker(config)]. *)
Definition createProgress (config : ProgressTrackerConfig)
  : IO (outcome ProgressTracker.t) :=
  ProgressTracker.new config.

Module ProgressBuilder.

(** [private config: Partial<ProgressTrackerConfig>]; [None] is a field
    that has not been set. *)
Record t : Type := mk {
  total : option number;
  message : option string;
  id : option string;
  filePath : option string
}.

(** [new ProgressBuilder()] *)
Definition new : t := mk None None None None.

Definition withTotal (self : t) (v : number) : t :=
  mk (Some v) (message self) (id self) (filePath self).

Definition withMessage (self : t) (v : string) : t :=
  mk (total self) (Some v) (id self) (filePath self).

Definition withId (self : t) (v : string) : t :=
  mk (total self) (message self) (Some v) (filePath self).

Definition withFilePath (self : t) (v : string) : t :=
  mk (total self) (message self) (id self) (Some v).


End ProgressBuilder.

(* ================================================================= *)
(** ** ProgressStream ([src/progress-stream.ts]) *)

(** [interface ProgressStreamConfig] *)
Record ProgressStreamConfig : Type := mkProgressStreamConfig {
  ps_tracker : ProgressTrackerConfig;
  ps_incrementAmount : option number
}.

Module ProgressStream.

Record t : Type := mk {
  tracker : ProgressTracker.t;
  incrementAmount : number;
  isDone : bool
}.

(** [IteratorResult<ProgressState>]; [value = None] is [undefined]. *)
Record IteratorResult : Type := mkResult {
  done : bool;
  value : option obj
}.

(** What [throw] throws: the error it was given, or an [Error] of its
    own. *)
Inductive thrown : Type :=
| Rethrown
| NewError (message : string).

Definition new (config : ProgressStreamConfig) : IO (outcome t) :=
  let* created := createProgress (ps_tracker config) in
  ret (match created with
       | Threw e => Threw e
       | Returned tracker =>
           Returned (mk tracker (default (Int 1) (ps_incrementAmount config)) false)
       end).

Definition next (self : t) : IO (outcome IteratorResult * t) :=
  if isDone self then ret (Returned (mkResult true None), self)
  else
    let* result :=
      ProgressTracker.increment (tracker self) (Some (incrementAmount self)) None in
    match result with
    | Err e => ret (Threw ("Progress stream error: " +:+ e), self)
    | Ok state => ret (Returned (mkResult false (Some state)), self)
    end.

(** [return(value?)] *)
Definition return_ (self : t) (v : option obj) : IO (outcome IteratorResult * t) :=
  if negb (isDone self) then
    let self := mk (tracker self) (incrementAmount self) true in
    let* result := ProgressTracker.done (tracker self) None in
    match result with
    | Err e => ret (Threw ("Failed to complete progress: " +:+ e), self)
    | Ok state => ret (Returned (mkResult true (Some (default state v))), self)
    end
  else ret (Returned (mkResult true v), self).

(** [throw(error)]; [errorMessage] is [error.message] for an [Error] and
    [String(error)] for any other value. *)
Definition throw (self : t) (errorMessage : string) : IO (thrown * t) :=
  if negb (isDone self) then
    let self := mk (tracker self) (incrementAmount self) true in
    let* result :=
      ProgressTracker.done (tracker self) (Some ("Failed: " +:+ errorMessage)) in
    match result with
    | Err e => ret (NewError ("Failed to mark progress as failed: " +:+ e), self)
    | Ok _ => ret (Rethrown, self)
    end
  else ret (Rethrown, self).

End ProgressStream.

(** [ProgressTransform.getProgress()] ([src/stream-wrapper.ts]) *)
Definition getProgress (self : ProgressTransform.t) : IO (Result obj) :=
  ProgressTracker.get (ProgressTransform.tracker self).

(* ================================================================= *)
(** ** The command line ([src/cli/parser.ts], [src/cli/executor.ts]) *)

Module CLI.

Definition isValidId (id : string) : bool :=
  id_regex_test id && (0 <? strlen id) && (strlen id <=? 255).

(** [args.indexOf(x)] *)
Fixpoint indexOf (args : list string) (x : string) : Z :=
  match args with
  | [] => -1
  | a :: rest =>
      if String.eqb a x then 0
      else let i := indexOf rest x in if i =? -1 then -1 else i + 1
  end.

Definition parseFlag (args : list string) (flag : string) : option string :=
  let index := indexOf args flag in
  if (index =? -1) || (Z.of_nat (length args) <=? index + 1) then None
  else nth_error args (Z.to_nat (index + 1)).


(** [type MultiCommand]: every variant carries [multiId]. *)
Inductive MultiAction : Type :=
| MultiInit
| MultiAdd (trackerId : string) (total : number) (message : option string)
| MultiStatus
| MultiDone
| MultiClear.

Record MultiCommand : Type := mkMultiCommand {
  multiId : string;
  action : MultiAction
}.

(** What [handleResult] does before the process exits: it prints the value
    as JSON, or the word [Success], on the standard output and exits with
    status 0, or it prints the error on the standard error and exits with
    status 1. *)
Inductive report : Type :=
| Printed (value : json)
| Success
| Failed (line : string).


(** Truthiness of a value. *)
Definition is_truthy (j : json) : bool :=
  match j with
  | JNull => false
  | JBool b => b
  | JNum n => negb (n =? 0)
  | JNaN => false
  | JInfinity _ => true
  | JStr s => negb (String.eqb s "")
  | JObj _ => true
  end.

(** [result.value] is [None] for a [Result<void>]. *)
Definition handleResult (result : Result (option json)) : report :=
  match result with
  | Ok (Some v) => if is_truthy v then Printed v else Success
  | Ok None => Success
  | Err e => Failed ("Error: " +:+ e)
  end.

Definition of_state (r : Result obj) : Result (option json) :=
  match r with Ok state => Ok (Some (JObj state)) | Err e => Err e end.

Definition of_json (r : Result json) : Result (option json) :=
  match r with Ok v => Ok (Some v) | Err e => Err e end.

Definition of_void (r : Result unit) : Result (option json) :=
  match r with Ok _ => Ok None | Err e => Err e end.



(** [for (const { id } of getAllResult.value) { multi.remove(id); }] *)
Fixpoint remove_each (multi : MultiProgress.t) (ids : list string)
  : IO (outcome unit * MultiProgress.t) :=
  match ids with
  | [] => ret (Returned tt, multi)
  | i :: rest =>
      let* r := MultiProgress.remove multi i in
      match fst r with
      | Threw e => ret (Threw e, snd r)
      | Returned _ => remove_each (snd r) rest
      end
  end.

(** An exception that [executeMultiCommand] does not catch ends the
    process: the outcome is [Threw]. *)
Definition executeMultiCommand (command : MultiCommand) : IO (outcome report) :=
  let* constructed := MultiProgress.new (mkMultiConfig (Some (multiId command)) None) in
  match constructed with
  | Threw e => ret (Threw e)
  | Returned multi =>
      match action command with
      | MultiInit | MultiStatus =>
          let* result := MultiProgress.status multi in
          ret (Returned (handleResult (of_json result)))
      | MultiAdd trackerId total message =>
          let* added :=
            MultiProgress.add multi
              (mkMemberConfig total (or_default message "Processing") (Some trackerId)) in
          match fst added with
          | Threw e => ret (Threw e)
          | Returned tracker =>
              let* result := ProgressTracker.get tracker in
              ret (Returned (handleResult (of_state result)))
          end
      | MultiDone =>
          let* _ :=
            match MultiProgress.getAll multi with
            | Ok all => MultiProgress.done_all all
            | Err _ => ret tt
            end in
          let* result := MultiProgress.status multi in
          ret (Returned (handleResult (of_json result)))
      | MultiClear =>
          let* removed :=
            match MultiProgress.getAll multi with
            | Ok all => remove_each multi (map fst all)
            | Err _ => ret (Returned tt, multi)
            end in
          match fst removed with
          | Threw e => ret (Threw e)
          | Returned _ =>
              let* result := clear (mkConfig (Some ("multi-" +:+ multiId command)) None) in
              ret (Returned (handleResult (of_void result)))
          end
      end
  end.

End CLI.

(* ================================================================= *)
(** ** Vocabulary of the statements *)

(** The state a successful [increment], [set] and [finish] computes from the
    state it has read, at time [now]; [update_state] is the part that
    [increment] and [set] have in common. *)
Definition update_state (current' : number) (message : option string) (now : Z)
  (state : obj)
  : obj :=
  raise_complete (assign_message message (assign_progress current' now state)).

Definition increment_state (amount : number) (message : option string) (now : Z)
  (state : obj) : obj :=
  update_state
    (JSNumber.min (JSNumber.add (number_field "current" state) amount)
                  (number_field "total" state))
    message now state.

Definition set_state (current : number) (message : option string) (now : Z)
  (state : obj) : obj :=
  update_state (JSNumber.min current (number_field "total" state)) message now state.

Definition finish_state (message : option string) (now : Z) (state : obj) : obj :=
  assign_message message
    (set_field "updatedTime" (JNum now)
       (set_field "complete" (JBool true)
          (set_field "percentage" (JNum 100)
             (set_field "current" (json_of_number (number_field "total" state))
                state)))).

(** The read-modify-write cycle the three operations share. *)
Definition mutate (config : ProgressConfig) (f : Z -> obj -> obj) : IO (Result obj) :=
  match getProgressFilePath config with
  | Err e => ret (Err e)
  | Ok path =>
      let* readResult := readProgress path in
      match readResult with
      | Err e => ret (Err e)
      | Ok state =>
          let* now := Date_now in
          let* writeResult := writeProgressAtomic path (f now state) in
          match writeResult with
          | Err e => ret (Err e)
          | Ok _ => ret (Ok (f now state))
          end
      end
  end.

(** The file at [path] holds the entity [state], with [total] and [current]
    numbers: [state] is what [JSON.parse] makes of the text of the file. *)
Definition stored (w : World) (path : string) (state : obj) : Prop :=
  exists j,
    files w !! path = Some (Doc j)
    /\ as_parsed j = JObj state
    /\ is_number (get_field "total" state) = true
    /\ is_number (get_field "current" state) = true.

(** A number as it is read back from a file: [null] when it is not
    finite. *)
Definition written (n : number) : json := as_parsed (json_of_number n).

(** The invariants of a progress entity read from a file; [total] lies in
    the range of the integers that a [number] holds exactly. *)
Definition Inv (state : obj) : Prop :=
  exists t c s u,
    get_field "total" state = Some (JNum t)
    /\ get_field "current" state = Some (JNum c)
    /\ get_field "startTime" state = Some (JNum s)
    /\ get_field "updatedTime" state = Some (JNum u)
    /\ get_field "percentage" state
       = Some (written (JSNumber.percentage c t))
    /\ 0 <= c <= t
    /\ 0 < t <= JSNumber.MAX_SAFE_INTEGER
    /\ s <= u.

(** The mutations of a single tracker. *)
Inductive mutation : Type :=
| MInit (total : number) (message : string)
| MIncrement (amount : option number) (message : option string)
| MSet (current : number) (message : option string)
| MFinish (message : option string).

Definition run_mutation (m : mutation) (config : ProgressConfig) : IO (Result obj) :=
  match m with
  | MInit total message => init total message config
  | MIncrement amount message => increment amount message config
  | MSet current message => set current message config
  | MFinish message => finish message config
  end.

(** Time passes between two calls. *)
Definition advance (dt : Z) (w : World) : World :=
  mkWorld (files w) (readonly w) (clock w + dt) (entropy w) (log w) (litter w).

(** A history of one tracker: each mutation is made [dt] milliseconds after
    the previous one.  The result records, for every call, what it returned
    and the world it left. *)
Fixpoint run_history (config : ProgressConfig) (h : list (Z * mutation)) (w : World)
  : list (Result obj * World) :=
  match h with
  | [] => []
  | (dt, m) :: h' =>
      let rw := run_mutation m config (advance dt w) in
      rw :: run_history config h' (snd rw)
  end.

(** The numbers given to a mutation are in range: a total is an integer
    that a [number] holds exactly, an amount and a counter are not [NaN]. *)
Definition in_range (m : mutation) : Prop :=
  match m with
  | MInit (Int total) _ => total <= JSNumber.MAX_SAFE_INTEGER
  | MInit _ _ => False
  | MIncrement amount _ => default (Int 1) amount <> NaN
  | MSet current _ => current <> NaN
  | MFinish _ => True
  end.

(** A step of a history is well timed when the clock has not gone back and
    the numbers given are in range. *)
Definition well_timed (e : Z * mutation) : Prop := 0 <= fst e /\ in_range (snd e).

Definition is_update (m : mutation) : bool :=
  match m with MInit _ _ => false | _ => true end.

(** The optional [message] argument of an update. *)
Definition message_arg (m : mutation) : option string :=
  match m with
  | MInit _ message => Some message
  | MIncrement _ message | MSet _ message | MFinish message => message
  end.

(** Every entity stored at [path] satisfies the invariants and was started
    no later than the present time. *)
Definition valid_store (w : World) (path : string) : Prop :=
  forall state, stored w path state ->
    Inv state /\ num_field "startTime" state <= clock w.

(** The call returned [r] and left the world [w']: whenever it succeeded, the
    entity it returned has been written to the file at [path], and the
    entity that is read from the file satisfies the invariants. *)
Definition sound (path : string) (rw : Result obj * World) : Prop :=
  forall state, fst rw = Ok state ->
    files (snd rw) !! path = Some (Doc (JObj state))
    /\ stored (snd rw) path (as_parsed_fields state)
    /\ Inv (as_parsed_fields state).

(** What [increment] and [set] write back, given the state they read at
    [path] in the world [w] and the new value [current'] of the counter. *)
Definition writes_back (w : World) (path : string) (state : obj) (current' : number)
  (rw : Result obj * World) : Prop :=
  exists state',
    fst rw = Ok state'
    /\ files (snd rw) !! path = Some (Doc (JObj state'))
    /\ get_field "total" state' = get_field "total" state
    /\ get_field "current" state' = Some (json_of_number current')
    /\ get_field "percentage" state'
       = Some (json_of_number
                 (JSNumber.percentage current' (number_field "total" state)))
    /\ get_field "updatedTime" state' = Some (JNum (clock w))
    /\ get_field "complete" state'
       = if JSNumber.geb current' (number_field "total" state)
         then Some (JBool true)
         else get_field "complete" state.

(** The same with the completion flag as a comparison: the flag written is
    [current' >= total]. *)
Definition writes_back_flag_as_comparison (path : string) (state : obj)
  (current' : Z) (rw : Result obj * World) : Prop :=
  exists state',
    fst rw = Ok state'
    /\ files (snd rw) !! path = Some (Doc (JObj state'))
    /\ get_field "current" state' = Some (JNum current')
    /\ get_field "complete" state'
       = Some (JBool (num_field "total" state <=? current')).

(** A world in which nothing is read-only and the clock shows [now]. *)
Definition fresh_world (now : Z) : World := mkWorld ∅ ∅ now "00000000" [] [].


(** *** Sample worlds *)

Definition job : ProgressConfig := mkConfig (Some "job"%string) None.
Definition job_path : string := "/tmp/progress-job.json".

(** A world whose only file is the entity [s] at [path]. *)
Definition world_with (path : string) (s : ProgressState) (now : Z) : World :=
  mkWorld {[ path := Doc (JObj (state_object s)) ]} ∅ now "00000000" [] [].

Definition job_running : ProgressState :=
  {| total := 100; current := 40; message := "copying"; percentage := 40;
     startTime := 1000; updatedTime := 2000; complete := false |}.

Definition job_finished : ProgressState :=
  {| total := 100; current := 100; message := "done"; percentage := 100;
     startTime := 1000; updatedTime := 2000; complete := true |}.

(** A history: create, advance, set back, complete. *)
Definition job_history : list (Z * mutation) :=
  [ (0, MInit 100 "start");
    (5, MIncrement (Some 42) None);
    (5, MSet 7 None);
    (5, MFinish (Some "done"%string)) ].

(** A property of the entity a call returned. *)
Definition result_field (k : string) (r : Result obj) : option json :=
  match r with
  | Ok state => get_field k state
  | Err _ => None
  end.

(** An identifier that leaves the directory of the progress files. *)
Definition escaping_id : string := "x/../../etc/cron.d/job".

(** The path [join] makes of it. *)
Definition escaping_path : string := "/etc/cron.d/job.json".

(** An entity file that lacks five of the seven required fields, and one
    whose [percentage] is a string. *)
Definition truncated_entity : obj := [("total", JNum 100); ("current", JNum 5)].

Definition mistyped_entity : obj :=
  [ ("total", JNum 100); ("current", JNum 5); ("message", JNum 7);
    ("percentage", JStr "half"); ("startTime", JNull); ("updatedTime", JBool true);
    ("complete", JStr "no") ].

Definition world_of_file (path : string) (text : content) : World :=
  mkWorld {[ path := text ]} ∅ 3000 "00000000" [] [].

Definition default_group : MultiProgress.t :=
  MultiProgress.mk "default" "/tmp/progress-multi-default.json" [].

(** A message of 10001 characters. *)
Fixpoint repeat_char (a : ascii) (n : nat) : string :=
  match n with
  | O => EmptyString
  | S n' => String a (repeat_char a n')
  end.

Definition long_message : string := repeat_char "m"%char (Z.to_nat 10001).

(** *** The push adapter *)

(** Bytes received since the last notification, once [c] has been counted. *)
Definition bytesSinceLastEmit (self : ProgressTransform.t) (c : ProgressTransform.chunk)
  : number :=
  JSNumber.sub
    (JSNumber.add (ProgressTransform.bytesProcessed self) (ProgressTransform.chunkSize c))
    (ProgressTransform.lastEmittedBytes self).

(** The last notification of a run. *)
Definition final_event (r : ProgressTransform.run_result) : option obj :=
  last (ProgressTransform.events r).

Definition job_created : ProgressState :=
  {| total := 100; current := 0; message := "copying"; percentage := 0;
     startTime := 1000; updatedTime := 1000; complete := false |}.

(** An adapter on the tracker [job] that has not seen a byte yet. *)
Definition job_stream (updateInterval : number) : ProgressTransform.t :=
  ProgressTransform.mk (ProgressTracker.mk job) updateInterval 0 0.

Definition ten_bytes : ProgressTransform.chunk := repeat Byte.x00 10.

(** *** The group registry *)




(** The identifier [add] gives to the new member, and the configuration of
    its tracker. *)
Definition member_id (config : MultiProgressTrackerConfig) (w : World) : string :=
  match truthy (mc_trackerId config) with
  | Some i => i
  | None => "tracker-" +:+ pretty (clock w) +:+ "-" +:+ entropy w
  end.

Definition member_config (self : MultiProgress.t) (config : MultiProgressTrackerConfig)
  (w : World) : ProgressTrackerConfig :=
  mkTrackerConfig (mc_total config) (mc_message config)
    (Some (MultiProgress.id self +:+ "-" +:+ member_id config w)) None.

(** The copy of member [trackerId] in what [status()] returned. *)
Definition snapshot (trackerId : string) (r : Result json) : option json :=
  match r with
  | Ok (JObj o) =>
      match get_field "trackers" o with
      | Some (JObj members) => get_field trackerId members
      | _ => None
      end
  | _ => None
  end.

Definition group_path (groupId : string) : string :=
  join tmpdir ("progress-multi-" +:+ groupId +:+ ".json").

Definition member_path (groupId trackerId : string) : string :=
  join tmpdir ("progress-" +:+ (groupId +:+ "-" +:+ trackerId) +:+ ".json").

(** The aggregate document of a group with the members [members]. *)
Definition aggregate (members : obj) (created updated : Z) : json :=
  JObj [ ("trackers", JObj members);
         ("meta", JObj [("created", JNum created); ("updated", JNum updated)]) ].

(** Every member listed in the aggregate [value] is known to the instance. *)
Definition knows_all (self : MultiProgress.t) (value : json) : Prop :=
  exists es,
    MultiProgress.entries value = Some es
    /\ Forall (fun e => is_Some (get_field (fst e) (MultiProgress.trackers self))) es.

(** What the caller of the staleness scenario observes. *)
Record observation : Type := mkObservation {
  status_after_add : Result json;
  status_after_increment : Result json;
  member_after_increment : Result obj;
  sync_result : option (outcome (Result unit));
  status_after_sync : Result json;
  status_after_done : Result json;
  member_after_done : Result obj
}.

(** A group is created and a member added; the member is incremented
    through its own handle; the group is asked for its status and the
    member for its state; [sync()] is called and the status asked again;
    then [done()] is called and the status and the state of the member are
    asked once more.  [d1] to [d5] are the times that pass before [add],
    the increment, the first status, [sync] and [done]. *)
Definition staleness_scenario (groupId trackerId : string) (total : number)
  (message : string) (amount : option number) (note : option string)
  (d1 d2 d3 d4 d5 : Z) (w : World) : option observation :=
  match MultiProgress.new (mkMultiConfig (Some groupId) None) w with
  | (Returned group, w1) =>
      match MultiProgress.add group (mkMemberConfig total message (Some trackerId))
              (advance d1 w1) with
      | ((Returned tracker, group), w2) =>
          let (s0, w3) := MultiProgress.status group w2 in
          let (_, w4) := ProgressTracker.increment tracker amount note (advance d2 w3) in
          let (s1, w5) := MultiProgress.status group (advance d3 w4) in
          let (m1, w6) := ProgressTracker.get tracker w5 in
          let (synced, w7) := MultiProgress.sync group (advance d4 w6) in
          let (s2, w8) := MultiProgress.status (snd synced) w7 in
          let (_, w9) := MultiProgress.done (snd synced) (advance d5 w8) in
          let (s3, w10) := MultiProgress.status (snd synced) w9 in
          let (m2, _) := ProgressTracker.get tracker w10 in
          Some (mkObservation s0 s1 m1 (fst synced) s2 s3 m2)
      | _ => None
      end
  | _ => None
  end.

(** A group with one member whose aggregate file has been removed. *)
Definition build_group : MultiProgress.t :=
  MultiProgress.mk "build" (group_path "build")
    [("compile"%string, ProgressTracker.mk (mkConfig (Some "build-compile"%string) None))].

Definition build_world : World :=
  world_with (member_path "build" "compile") job_running 3000.

(** *** More sample worlds and vocabulary *)


(** The file name of the tracker [id] inside the directory of the progress
    files. *)
Definition progress_file_name (id : string) : string := "progress-" +:+ id +:+ ".json".

(** The bytes of a list of chunks. *)
Definition total_size (chunks : list ProgressTransform.chunk) : Z :=
  fold_right (fun c n => ProgressTransform.chunkSize c + n) 0 chunks.

(** The caller asks an iterator for its next result again and again; [dts]
    are the times that pass before each call.  The results are listed in
    order. *)
Fixpoint nexts (dts : list Z) (self : ProgressStream.t)
  : IO (list (outcome ProgressStream.IteratorResult) * ProgressStream.t) :=
  match dts with
  | [] => ret ([], self)
  | dt :: rest =>
      fun w =>
        let (r, w1) := ProgressStream.next self (advance dt w) in
        let (rs, w2) := nexts rest (snd r) w1 in
        ((fst r :: fst rs, snd rs), w2)
  end.

(** An open stream on the tracker [job] that adds [a] per call. *)
Definition job_iterator (a : number) : ProgressStream.t :=
  ProgressStream.mk (ProgressTracker.mk job) a false.

(** The file at [path] holds an entity whose total is [t]. *)
Definition holds_total (w : World) (path : string) (t : Z) : Prop :=
  exists state, stored w path state /\ get_field "total" state = Some (JNum t).

(** The file at [path] holds a completed entity with total [t]: the counter
    is at the total, the percentage is 100 and the flag is set. *)
Definition completed_at (w : World) (path : string) (t : Z) : Prop :=
  exists state,
    files w !! path = Some (Doc (JObj state))
    /\ stored w path state
    /\ get_field "total" state = Some (JNum t)
    /\ get_field "current" state = Some (JNum t)
    /\ get_field "percentage" state = Some (JNum 100)
    /\ get_field "complete" state = Some (JBool true).

(** The file at [path] holds the state a tracker starts with when it is
    constructed at time [now] from the entry [entry] of an aggregate: the
    total and the message of the entry, the counter 0, not complete. *)
Definition restarted_at (w : World) (path : string) (entry : json) (now : Z) : Prop :=
  exists total message,
    MultiProgress.entry_arguments_of entry = MultiProgress.Given total message
    /\ JSNumber.ltb 0 total = true
    /\ files w !! path = Some (Doc (JObj (initial_state total message now))).

(** A group that knows no member, over an aggregate that lists the member
    [compile] of the group [build]. *)
Definition stranger : MultiProgress.t := MultiProgress.mk "build" (group_path "build") [].

Definition build_aggregate_world : World :=
  mkWorld {[ group_path "build" := Doc (aggregate [("compile"%string, JObj (state_object job_running))] 1000 2000);
             member_path "build" "compile" := Doc (JObj (state_object job_running)) ]}
          ∅ 3000 "00000000" [] [].

(** The arguments a mutation lets through: a total above 0, an amount or a
    counter that is [NaN] or is not below 0. *)
Definition accepts (m : mutation) : Prop :=
  match m with
  | MInit total _ => JSNumber.ltb 0 total = true
  | MIncrement amount _ =>
      default (Int 1) amount = NaN \/ JSNumber.leb 0 (default (Int 1) amount) = true
  | MSet current _ => current = NaN \/ JSNumber.leb 0 current = true
  | MFinish _ => True
  end.

(** A value that [JSON.parse] can return: it holds no number that is not
    finite. *)
Definition parsed_value (j : json) : Prop := as_parsed j = j.

(** What a call leaves behind besides the files: nothing, or the temporary
    file of the write that failed. *)
Definition litter_of (config : ProgressConfig) (w w' : World) : Prop :=
  litter w' = litter w
  \/ exists path,
       getProgressFilePath config = Ok path
       /\ path ∈ readonly w
       /\ litter w' = (path +:+ ".tmp." +:+ entropy w) :: litter w.


(** The call succeeded and wrote what it returned, with the number [v] in
    [field]; the number is not finite, so the file holds [null] in its
    place and the entity cannot be read any more. *)
Definition corrupts (config : ProgressConfig) (path field : string) (v : number)
  (rw : Result obj * World) : Prop :=
  exists state',
    fst rw = Ok state'
    /\ files (snd rw) !! path = Some (Doc (JObj state'))
    /\ get_field field state' = Some (json_of_number v)
    /\ get_field field (as_parsed_fields state') = Some JNull
    /\ fst (get config (snd rw)) = Err "Invalid progress file format".

(** The chunks on which a notification is due, in the words of the
    throttle: one is due when the threshold is 0 or when the bytes received
    since the last notification, this chunk included, have reached the
    threshold; [since] counts the bytes received since the last
    notification, and a notification sets it back to 0. *)
Fixpoint due (threshold since : Z) (sizes : list Z) : list bool :=
  match sizes with
  | [] => []
  | n :: rest =>
      if (threshold =? 0) || (threshold <=? since + n)
      then true :: due threshold 0 rest
      else false :: due threshold (since + n) rest
  end.

(** The number of notifications that are due. *)
Definition count_due (threshold since : Z) (sizes : list Z) : nat :=
  length (List.filter (fun b : bool => b) (due threshold since sizes)).

(** The chunks a reader of the stream can receive: those with a byte in
    them. *)
Definition with_bytes (chunks : list ProgressTransform.chunk)
  : list ProgressTransform.chunk :=
  List.filter (fun c => negb (ProgressTransform.chunkSize c =? 0)) chunks.

(** The byte count after the chunks have been counted one by one. *)
Definition counted (start : number) (chunks : list ProgressTransform.chunk) : number :=
  fold_left (fun n c => JSNumber.add n (ProgressTransform.chunkSize c)) chunks start.


(** The aggregate file of the group can be read and replaced, and holds
    the two tables [trackers] and [meta]. *)
Definition mirror_ready (self : MultiProgress.t) (w : World) : Prop :=
  (exists j o members meta,
     files w !! MultiProgress.filePath self = Some (Doc j)
     /\ as_parsed j = JObj o
     /\ get_field "trackers" o = Some (JObj members)
     /\ get_field "meta" o = Some (JObj meta))
  /\ (MultiProgress.filePath self ∉ readonly w).

(** No member of the registry keeps its state in the aggregate file. *)
Definition members_apart (self : MultiProgress.t) : Prop :=
  forall trackerId tracker path,
    In (trackerId, tracker) (MultiProgress.trackers self) ->
    getProgressFilePath (ProgressTracker.config tracker) = Ok path ->
    path <> MultiProgress.filePath self.

(** The snapshot shows a completed member with the total of [state0]. *)
Definition shows_completed (s : option json) (state0 : obj) : Prop :=
  exists state,
    s = Some (JObj state)
    /\ get_field "total" state = get_field "total" state0
    /\ get_field "current" state = get_field "total" state0
    /\ get_field "percentage" state = Some (JNum 100)
    /\ get_field "complete" state = Some (JBool true).
(* ================================================================= *)
(** ** Facts about numbers *)

Module JSNumberFacts.
Import JSNumber.

Lemma digits2_pos_iter (k p : positive) :
  digits2_pos (Pos.iter xO p k) = (digits2_pos p + k)%positive.
Proof.
  induction k as [|k IH] using Pos.peano_ind.
  - simpl. lia.
  - rewrite Pos.iter_succ. simpl. rewrite IH. lia.
Qed.

Lemma digits2_pos_bound (p : positive) :
  forall n, 0 <= n -> Zpos p < 2 ^ n -> Zpos (digits2_pos p) <= n.
Proof.
  induction p as [p IH|p IH|]; intros n Hn Hlt.
  - assert (n <> 0) by (intros ->; simpl in Hlt; lia).
    replace n with (Z.succ (n - 1)) in Hlt by lia.
    rewrite Z.pow_succ_r in Hlt by lia.
    specialize (IH (n - 1) ltac:(lia) ltac:(lia)). simpl. lia.
  - assert (n <> 0) by (intros ->; simpl in Hlt; lia).
    replace n with (Z.succ (n - 1)) in Hlt by lia.
    rewrite Z.pow_succ_r in Hlt by lia.
    specialize (IH (n - 1) ltac:(lia) ltac:(lia)). simpl. lia.
  - assert (n <> 0) by (intros ->; simpl in Hlt; lia). simpl. lia.
Qed.

(** A 53-bit mantissa with an exponent in range is already rounded. *)
Lemma binary_round_aux_canonical s (m : positive) (e : Z) :
  Zpos (digits2_pos m) = 53 -> -1074 <= e <= 971 ->
  binary_round_aux prec emax s (Zpos m) e loc_Exact = S754_finite s m e.
Proof.
  intros Hd He.
  assert (Hf : fexp prec emax (Zdigits2 (Zpos m) + e) - e = 0).
  { unfold fexp, emin, prec, emax, Zdigits2. lia. }
  unfold binary_round_aux, shr_fexp.
  rewrite Hf. cbn [shr shr_record_of_loc shr_m loc_of_shr_record round_nearest_even].
  rewrite Hf. cbn [shr shr_record_of_loc shr_m].
  destruct (Z.leb_spec e (emax - prec)) as [_|Hgt]; [reflexivity|].
  unfold emax, prec in Hgt. lia.
Qed.

(** A positive safe integer is a finite, positive number. *)
Lemma Number_safe_finite (t : Z) :
  0 < t <= MAX_SAFE_INTEGER ->
  exists m e, Number t = S754_finite false m e.
Proof.
  intros [Hpos Hp]. destruct t as [|p|p]; try lia.
  assert (Hd : Zpos (digits2_pos p) <= 53).
  { apply digits2_pos_bound; [lia|]. unfold MAX_SAFE_INTEGER in Hp. lia. }
  unfold Number, binary_normalize, binary_round.
  assert (Hf : fexp prec emax (Zpos (digits2_pos p) + 0) = Zpos (digits2_pos p) - 53).
  { unfold fexp, emin, prec, emax. lia. }
  rewrite Hf. unfold shl_align.
  destruct (Zpos (digits2_pos p) - 53 - 0) as [|k|k] eqn:Hk; try lia.
  - rewrite binary_round_aux_canonical by lia. eauto.
  - rewrite binary_round_aux_canonical; [eauto| |lia].
    rewrite digits2_pos_iter. lia.
Qed.

(** [x / x] is [1] for every finite [x] other than zero. *)
Lemma div_self s m e : div (S754_finite s m e) (S754_finite s m e) = one.
Proof.
  unfold div, SFdiv, SFdiv_core_binary.
  rewrite !Z.sub_diag.
  change (Z.min (fexp prec emax 0) 0) with (-53).
  change (0 - -53) with 53.
  cbv iota.
  change (IntDef.Z.shiftl (Z.pos m) 53) with (Z.shiftl (Z.pos m) 53).
  change IntDef.Z.div_eucl with Z.div_eucl.
  rewrite Z.shiftl_mul_pow2 by lia.
  destruct (Z.div_eucl (Zpos m * 2 ^ 53) (Zpos m)) as [q r] eqn:Hqr.
  assert (Hq : q = 2 ^ 53).
  { change q with (fst (q, r)). rewrite <- Hqr.
    fold (Z.div (Zpos m * 2 ^ 53) (Zpos m)).
    rewrite Z.mul_comm. apply Z.div_mul. lia. }
  assert (Hr : r = 0).
  { change r with (snd (q, r)). rewrite <- Hqr.
    fold (Z.modulo (Zpos m * 2 ^ 53) (Zpos m)).
    rewrite Z.mul_comm. apply Z.mod_mul. lia. }
  subst q r.
  assert (Hl : new_location (Zpos m) 0 = loc_Exact).
  { unfold new_location. destruct (Z.even (Zpos m)); reflexivity. }
  rewrite Hl. destruct s; reflexivity.
Qed.

(** [Math.round((total / total) * 100)] is [100]. *)
Lemma percentage_full (t : Z) :
  0 < t <= MAX_SAFE_INTEGER -> percentage t t = 100.
Proof.
  intros Ht. destruct (Number_safe_finite t Ht) as (m & e & Hn).
  unfold percentage, to_float. rewrite Hn, div_self. reflexivity.
Qed.

(** [Math.round((0 / total) * 100)] is [0]. *)
Lemma percentage_zero (t : Z) :
  0 < t <= MAX_SAFE_INTEGER -> percentage 0 t = 0.
Proof.
  intros Ht. destruct (Number_safe_finite t Ht) as (m & e & Hn).
  unfold percentage, to_float. rewrite Hn. reflexivity.
Qed.

(** The quotient is rounded to binary64 before it is scaled: 29 of 200 is
    14.499999999999998 percent, not 14.5. *)
Example percentage_29_200 : percentage 29 200 = 14.
Proof. reflexivity. Qed.

(** A percentage of [NaN] is [NaN]. *)
Lemma percentage_nan (t : number) : percentage NaN t = NaN.
Proof.
  unfold percentage, div, mul. simpl.
  destruct (to_float t); reflexivity.
Qed.

(** *** Rounding of integers *)

Lemma round_exact (z : Z) : Z.abs z <= 2 ^ 53 -> round z = Int z.
Proof.
  intros Hz. unfold round.
  destruct (Z.ltb_spec (Z.abs z) (2 ^ 53)) as [_|Hge]; [reflexivity|].
  assert (Hcases : z = 2 ^ 53 \/ z = - 2 ^ 53) by lia.
  destruct Hcases as [-> | ->]; reflexivity.
Qed.

(** An integer from 2^53 on rounds to a finite number from 2^53 on, or to
    [Infinity]. *)
Lemma round_large (z : Z) :
  2 ^ 53 <= z -> leb (Int (2 ^ 53)) (round z) = true.
Proof.
  intros Hz. unfold round.
  assert (Ha : Z.abs z = z) by lia. rewrite Ha.
  destruct (Z.ltb_spec z (2 ^ 53)) as [Hlt|_]; [lia|].
  assert (Hlog : 53 <= Z.log2 z).
  { change 53 with (Z.log2 (2 ^ 53)). apply Z.log2_le_mono. exact Hz. }
  set (e := Z.log2 z - 52).
  assert (He : 1 <= e) by (unfold e; lia).
  assert (Hpow : 2 ^ (52 + e) <= z).
  { replace (52 + e) with (Z.log2 z) by (unfold e; lia).
    apply Z.log2_spec. lia. }
  assert (Hpe : 0 < 2 ^ e) by (apply Z.pow_pos_nonneg; lia).
  assert (Hq : 2 ^ 52 <= z / 2 ^ e).
  { apply Z.div_le_lower_bound; [exact Hpe|].
    rewrite Z.pow_add_r in Hpow by lia. lia. }
  set (q := z / 2 ^ e) in *.
  set (m := if z mod 2 ^ e <? 2 ^ (e - 1) then q
            else if 2 ^ (e - 1) <? z mod 2 ^ e then q + 1
                 else if Z.even q then q else q + 1).
  assert (Hm : q <= m).
  { unfold m. repeat destruct (_ <? _); try destruct (Z.even q); lia. }
  assert (Hv : 2 ^ 53 <= m * 2 ^ e).
  { assert (H2 : 2 ^ 1 <= 2 ^ e) by (apply Z.pow_le_mono_r; lia).
    change (2 ^ 53) with (2 ^ 52 * 2 ^ 1). 
    apply Z.mul_le_mono_nonneg; lia. }
  destruct (2 ^ 1024 <=? m * 2 ^ e).
  - destruct (z <? 0) eqn:Hneg; [apply Z.ltb_lt in Hneg; lia|reflexivity].
  - assert (Hs : Z.sgn z = 1) by (apply Z.sgn_pos; lia).
    rewrite Hs. simpl. apply Z.leb_le. lia.
Qed.

(** Adding an amount that is not negative and capping at the total is
    exact as long as the counter and the total are not beyond 2^53: a sum
    that is rounded is above the total. *)
Lemma min_add_exact (c a t : Z) :
  - 2 ^ 53 <= c -> 0 <= a -> t <= 2 ^ 53 ->
  min (add (Int c) (Int a)) (Int t) = Int (Z.min (c + a) t).
Proof.
  intros Hc Ha Ht. unfold add.
  destruct (Z.le_gt_cases (2 ^ 53) (c + a)) as [Hbig|Hsmall].
  - pose proof (round_large _ Hbig) as Hr.
    destruct (round (c + a)) as [v| |s]; simpl in Hr; try discriminate.
    + apply Z.leb_le in Hr. unfold min. simpl.
      destruct (Z.ltb_spec t v).
      * f_equal. lia.
      * f_equal. lia.
    + destruct s; [discriminate|]. unfold min. simpl. f_equal. lia.
  - rewrite round_exact by lia. unfold min. simpl.
    destruct (Z.ltb_spec t (c + a)); f_equal; lia.
Qed.

Lemma min_exact (c t : Z) : min (Int c) (Int t) = Int (Z.min c t).
Proof. unfold min. simpl. destruct (Z.ltb_spec t c); f_equal; lia. Qed.

(** [round] gives the Number value of the integer. *)
Example round_is_Number :
  map (fun z => to_float (round z))
      [ 2 ^ 53; 2 ^ 53 + 1; 2 ^ 53 + 2; 2 ^ 53 + 3; - (2 ^ 53 + 1); 2 ^ 60 + 12345;
        2 ^ 64 - 1; 3 ^ 400; 2 ^ 1024 - 2 ^ 970 - 1; 2 ^ 1024 - 2 ^ 970; - 2 ^ 1024 ]
  = map Number
      [ 2 ^ 53; 2 ^ 53 + 1; 2 ^ 53 + 2; 2 ^ 53 + 3; - (2 ^ 53 + 1); 2 ^ 60 + 12345;
        2 ^ 64 - 1; 3 ^ 400; 2 ^ 1024 - 2 ^ 970 - 1; 2 ^ 1024 - 2 ^ 970; - 2 ^ 1024 ].
Proof. vm_compute. reflexivity. Qed.

(** Beyond 2^53 a sum is rounded: 2^53 + 1 is 2^53. *)
Example add_beyond_safe : add (Int (2 ^ 53)) 1 = Int (2 ^ 53).
Proof. reflexivity. Qed.

Lemma not_ltb_zero (x : number) :
  ltb x 0 = false <-> x = NaN \/ leb 0 x = true.
Proof.
  destruct x as [z| |s]; simpl.
  - rewrite Z.ltb_ge, Z.leb_le. split; [auto|intros [H|H]; [discriminate|exact H]].
  - split; auto.
  - destruct s; simpl; split; auto. intros [H|H]; discriminate.
Qed.

Lemma positive_total (x : number) :
  isNaN x || leb x 0 = false <-> ltb 0 x = true.
Proof.
  destruct x as [z| |s]; simpl.
  - rewrite Z.leb_gt, Z.ltb_lt. reflexivity.
  - split; discriminate.
  - destruct s; simpl; split; auto; discriminate.
Qed.

End JSNumberFacts.

(* ================================================================= *)
(** ** Facts about objects and the store *)

Section PropertyFacts.
Context {V : Type}.
Implicit Types (o : list (string * V)) (k : string) (v : V).

Lemma get_set_eq k v o : get_field k (set_field k v o) = Some v.
Proof.
  induction o as [|[k' v'] o IH]; simpl.
  - now rewrite String.eqb_refl.
  - destruct (String.eqb_spec k k') as [->|Hne]; simpl.
    + now rewrite String.eqb_refl.
    + destruct (String.eqb_spec k k'); [contradiction|exact IH].
Qed.

Lemma get_set_ne k k' v o :
  k <> k' -> get_field k' (set_field k v o) = get_field k' o.
Proof.
  intros Hne. induction o as [|[k0 v0] o IH]; simpl.
  - destruct (String.eqb_spec k' k); [congruence|reflexivity].
  - destruct (String.eqb_spec k k0) as [->|Hk]; simpl.
    + destruct (String.eqb_spec k' k0); [congruence|reflexivity].
    + destruct (String.eqb_spec k' k0); [reflexivity|exact IH].
Qed.

Lemma get_delete_eq k o : get_field k (delete_field k o) = None.
Proof.
  induction o as [|[k' v'] o IH]; simpl; [reflexivity|].
  destruct (String.eqb_spec k k') as [->|Hne]; simpl; [exact IH|].
  destruct (String.eqb_spec k k'); [contradiction|exact IH].
Qed.

Lemma get_delete_ne k k' o :
  k <> k' -> get_field k' (delete_field k o) = get_field k' o.
Proof.
  intros Hne. induction o as [|[k0 v0] o IH]; simpl; [reflexivity|].
  destruct (String.eqb_spec k k0) as [->|Hk]; simpl.
  - destruct (String.eqb_spec k' k0); [congruence|exact IH].
  - destruct (String.eqb_spec k' k0); [reflexivity|exact IH].
Qed.
End PropertyFacts.

Lemma get_app k (o o' : obj) :
  get_field k (o ++ o')
  = match get_field k o with Some v => Some v | None => get_field k o' end.
Proof.
  induction o as [|[k' v'] o IH]; simpl; [reflexivity|].
  destruct (String.eqb k k'); [reflexivity|exact IH].
Qed.

Lemma get_insert_index_eq n k v o :
  get_field k o = None -> get_field k (insert_index n k v o) = Some v.
Proof.
  induction o as [|[k' v'] o IH]; simpl; intros Hk.
  - now rewrite String.eqb_refl.
  - destruct (String.eqb_spec k k') as [->|Hne]; [discriminate|].
    destruct (array_index k') as [n'|]; [destruct (n' <? n)%N|]; simpl.
    + destruct (String.eqb_spec k k'); [contradiction|]. now apply IH.
    + now rewrite String.eqb_refl.
    + now rewrite String.eqb_refl.
Qed.

Lemma get_insert_index_ne n k k' v o :
  k <> k' -> get_field k' (insert_index n k v o) = get_field k' o.
Proof.
  intros Hne. induction o as [|[k0 v0] o IH]; simpl.
  - destruct (String.eqb_spec k' k); [congruence|reflexivity].
  - destruct (array_index k0) as [n'|]; [destruct (n' <? n)%N|]; simpl.
    + destruct (String.eqb k' k0); [reflexivity|exact IH].
    + destruct (String.eqb_spec k' k); [congruence|reflexivity].
    + destruct (String.eqb_spec k' k); [congruence|reflexivity].
Qed.

(** A computed property name other than [__proto__] is assigned. *)
Lemma get_js_assign_eq k v o :
  k <> "__proto__"%string \/ is_Some (get_field k o) ->
  get_field k (js_assign k v o) = Some v.
Proof.
  intros Hk. unfold js_assign.
  destruct (get_field k o) as [v0|] eqn:Hg; [apply get_set_eq|].
  destruct (String.eqb_spec k "__proto__") as [->|Hne].
  - destruct Hk as [Hk|[x Hx]]; [contradiction|discriminate].
  - destruct (array_index k) as [n|].
    + now apply get_insert_index_eq.
    + rewrite get_app, Hg. simpl. now rewrite String.eqb_refl.
Qed.

Lemma get_js_assign_ne k k' v o :
  k <> k' -> get_field k' (js_assign k v o) = get_field k' o.
Proof.
  intros Hne. unfold js_assign.
  destruct (get_field k o) as [v0|] eqn:Hg; [now apply get_set_ne|].
  destruct (String.eqb k "__proto__"); [reflexivity|].
  destruct (array_index k) as [n|].
  - now apply get_insert_index_ne.
  - rewrite get_app. destruct (get_field k' o); [reflexivity|].
    simpl. destruct (String.eqb_spec k' k); [congruence|reflexivity].
Qed.

(** The name [__proto__] is not: the object keeps the properties it has. *)
Lemma js_assign_proto v o :
  get_field "__proto__" o = None -> js_assign "__proto__" v o = o.
Proof. intros H. unfold js_assign. now rewrite H. Qed.

(** *** Values as they are read back *)

Lemma json_nested_ind (P : json -> Prop) :
  P JNull ->
  (forall b, P (JBool b)) ->
  (forall n, P (JNum n)) ->
  P JNaN ->
  (forall s, P (JInfinity s)) ->
  (forall s, P (JStr s)) ->
  (forall fields, Forall (fun kv => P (snd kv)) fields -> P (JObj fields)) ->
  forall j, P j.
Proof.
  intros Hnull Hbool Hnum Hnan Hinf Hstr Hobj.
  fix IH 1.
  intros [ |b|n| |s|s|fields];
    [exact Hnull|apply Hbool|apply Hnum|exact Hnan|apply Hinf|apply Hstr|].
  apply Hobj. induction fields as [|[k v] fields IHf]; constructor.
  - apply IH.
  - exact IHf.
Qed.

Lemma as_parsed_fields_map o :
  as_parsed_fields o = map (fun kv => (fst kv, as_parsed (snd kv))) o.
Proof.
  unfold as_parsed_fields. simpl.
  induction o as [|[k v] o IH]; simpl; [reflexivity|]. now rewrite IH.
Qed.

Lemma as_parsed_obj o : as_parsed (JObj o) = JObj (as_parsed_fields o).
Proof. reflexivity. Qed.

Lemma as_parsed_idem j : as_parsed (as_parsed j) = as_parsed j.
Proof.
  induction j as [ |b|n| |s|s|fields IH] using json_nested_ind; try reflexivity.
  rewrite !as_parsed_obj. f_equal. rewrite !as_parsed_fields_map.
  rewrite map_map. simpl.
  induction IH as [|[k v] fields Hv _ IHf]; simpl; [reflexivity|].
  simpl in Hv. now rewrite Hv, IHf.
Qed.

Lemma get_as_parsed_fields k o :
  get_field k (as_parsed_fields o) = option_map as_parsed (get_field k o).
Proof.
  rewrite as_parsed_fields_map.
  induction o as [|[k' v'] o IH]; simpl; [reflexivity|].
  destruct (String.eqb k k'); [reflexivity|exact IH].
Qed.

Lemma as_parsed_set_field k v o :
  as_parsed_fields (set_field k v o) = set_field k (as_parsed v) (as_parsed_fields o).
Proof.
  rewrite !as_parsed_fields_map.
  induction o as [|[k' v'] o IH]; simpl; [reflexivity|].
  destruct (String.eqb k k'); simpl; [reflexivity|]. now rewrite IH.
Qed.

Lemma parsed_value_obj o : parsed_value (JObj o) <-> as_parsed_fields o = o.
Proof.
  unfold parsed_value. rewrite as_parsed_obj. split; [intros [=]|intros ->]; auto.
Qed.

Lemma parsed_value_as_parsed j : parsed_value (as_parsed j).
Proof. apply as_parsed_idem. Qed.

Lemma parsed_value_field k o v :
  parsed_value (JObj o) -> get_field k o = Some v -> parsed_value v.
Proof.
  intros Ho Hv. apply parsed_value_obj in Ho.
  pose proof (get_as_parsed_fields k o) as Hg. rewrite Ho, Hv in Hg.
  simpl in Hg. unfold parsed_value. congruence.
Qed.

Lemma parsed_value_set_field k v o :
  parsed_value (JObj o) -> parsed_value v -> parsed_value (JObj (set_field k v o)).
Proof.
  intros Ho Hv. apply parsed_value_obj. apply parsed_value_obj in Ho.
  rewrite as_parsed_set_field, Ho, Hv. reflexivity.
Qed.

(** A number in a parsed value is finite. *)
Lemma parsed_number v :
  parsed_value v -> is_number (Some v) = true -> exists n, v = JNum n.
Proof.
  unfold parsed_value. destruct v; simpl; try discriminate; eauto.
Qed.

Lemma parsed_number_field k o :
  parsed_value (JObj o) -> is_number (get_field k o) = true ->
  get_field k o = Some (JNum (num_field k o)) /\ number_field k o = Int (num_field k o).
Proof.
  intros Ho Hn. unfold num_field, number_field.
  destruct (get_field k o) as [v|] eqn:Hg; [|discriminate].
  destruct (parsed_number v (parsed_value_field _ _ _ Ho Hg) Hn) as [n ->]. auto.
Qed.

Lemma num_set_eq k n o : num_field k (set_field k (JNum n) o) = n.
Proof. unfold num_field. now rewrite get_set_eq. Qed.

Lemma num_set_ne k k' v o : k <> k' -> num_field k' (set_field k v o) = num_field k' o.
Proof. intros H. unfold num_field. now rewrite get_set_ne. Qed.

Lemma num_field_get k o n : get_field k o = Some (JNum n) -> num_field k o = n.
Proof. intros H. unfold num_field. now rewrite H. Qed.

Lemma number_set_eq k n o : number_field k (set_field k (json_of_number n) o) = n.
Proof. unfold number_field. rewrite get_set_eq. now destruct n. Qed.

Lemma number_set_ne k k' v o :
  k <> k' -> number_field k' (set_field k v o) = number_field k' o.
Proof. intros H. unfold number_field. now rewrite get_set_ne. Qed.

Lemma number_field_get k o n : get_field k o = Some (JNum n) -> number_field k o = Int n.
Proof. intros H. unfold number_field. now rewrite H. Qed.

(** Reading and writing property by property. *)
Ltac fields :=
  repeat first
    [ rewrite get_set_eq
    | rewrite num_set_eq
    | rewrite number_set_eq
    | rewrite get_set_ne by discriminate
    | rewrite num_set_ne by discriminate
    | rewrite number_set_ne by discriminate ].

Lemma truthy_Some m s : truthy m = Some s -> m = Some s /\ s <> EmptyString.
Proof. destruct m as [[|a m']|]; simpl; intros H; inversion H; subst; split; congruence. Qed.

Lemma get_assign_message_ne m k o :
  k <> "message"%string -> get_field k (assign_message m o) = get_field k o.
Proof.
  intros Hk. unfold assign_message. destruct (truthy m); [|reflexivity].
  apply get_set_ne. congruence.
Qed.

Lemma num_assign_message_ne m k o :
  k <> "message"%string -> num_field k (assign_message m o) = num_field k o.
Proof. intros Hk. unfold num_field. now rewrite get_assign_message_ne. Qed.

Lemma number_assign_message_ne m k o :
  k <> "message"%string -> number_field k (assign_message m o) = number_field k o.
Proof. intros Hk. unfold number_field. now rewrite get_assign_message_ne. Qed.

Lemma get_raise_complete_ne k o :
  k <> "complete"%string -> get_field k (raise_complete o) = get_field k o.
Proof.
  intros Hk. unfold raise_complete.
  destruct (JSNumber.geb _ _); [|reflexivity]. apply get_set_ne. congruence.
Qed.

Lemma num_raise_complete_ne k o :
  k <> "complete"%string -> num_field k (raise_complete o) = num_field k o.
Proof. intros Hk. unfold num_field. now rewrite get_raise_complete_ne. Qed.

(** *** The store *)

Definition after_read (path : string) (w : World) : World :=
  record_event (ERead path) (record_event (EExists path) w).

Definition after_write (path : string) (text : content) (w : World) : World :=
  with_files (<[path := text]> (files w))
    (record_event (ERename path) (record_event (EWriteTemp path) w)).

(** The world after a write whose rename failed: the temporary file is
    left behind. *)
Definition after_failed_write (path : string) (w : World) : World :=
  with_litter ((path +:+ ".tmp." +:+ entropy w) :: litter w)
    (record_event (EWriteTemp path) w).

Lemma stored_intro w path raw :
  files w !! path = Some (Doc (JObj raw)) ->
  is_number (get_field "total" (as_parsed_fields raw)) = true ->
  is_number (get_field "current" (as_parsed_fields raw)) = true ->
  stored w path (as_parsed_fields raw).
Proof. intros Hf Ht Hc. exists (JObj raw). auto. Qed.

Lemma stored_parsed w path state : stored w path state -> parsed_value (JObj state).
Proof. intros (j & _ & Hj & _). rewrite <- Hj. apply parsed_value_as_parsed. Qed.

Lemma stored_total w path state :
  stored w path state ->
  get_field "total" state = Some (JNum (num_field "total" state))
  /\ number_field "total" state = Int (num_field "total" state).
Proof.
  intros Hs. apply parsed_number_field; [eapply stored_parsed; eauto|].
  now destruct Hs as (j & _ & _ & Ht & _).
Qed.

Lemma stored_current w path state :
  stored w path state ->
  get_field "current" state = Some (JNum (num_field "current" state))
  /\ number_field "current" state = Int (num_field "current" state).
Proof.
  intros Hs. apply parsed_number_field; [eapply stored_parsed; eauto|].
  now destruct Hs as (j & _ & _ & _ & Hc).
Qed.

(** The entity a write leaves at [path], when what was written holds only
    finite numbers. *)
Lemma stored_after_write w path state :
  parsed_value (JObj state) ->
  is_number (get_field "total" state) = true ->
  is_number (get_field "current" state) = true ->
  stored (after_write path (Doc (JObj state)) w) path state.
Proof.
  intros Hp Ht Hc. exists (JObj state).
  split; [simpl; apply lookup_insert_eq|]. auto.
Qed.

Lemma readProgress_stored w path state :
  stored w path state -> readProgress path w = (Ok state, after_read path w).
Proof.
  intros (j & Hf & Hj & Ht & Hc). unfold readProgress, bind, existsSync, readFileSync, ret.
  rewrite bool_decide_eq_true_2 by (rewrite Hf; eauto). simpl.
  rewrite Hf. simpl. rewrite Hj, Ht, Hc. reflexivity.
Qed.

(** What [readProgress] makes of a file that parses. *)
Lemma readProgress_doc w path j :
  files w !! path = Some (Doc j) ->
  fst (readProgress path w)
  = match as_parsed j with
    | JNull => Err "Failed to read progress: Cannot read properties of null"
    | JObj state =>
        if negb (is_number (get_field "total" state))
           || negb (is_number (get_field "current" state))
        then Err "Invalid progress file format"
        else Ok state
    | _ => Err "Invalid progress file format"
    end.
Proof.
  intros Hf. unfold readProgress, bind, existsSync, readFileSync, ret.
  rewrite bool_decide_eq_true_2 by (rewrite Hf; eauto). simpl.
  rewrite Hf. reflexivity.
Qed.

Lemma readProgress_inv w path state w' :
  readProgress path w = (Ok state, w') ->
  stored w path state /\ w' = after_read path w.
Proof.
  unfold readProgress, bind, existsSync, readFileSync, ret, stored.
  destruct (bool_decide _); simpl; [|discriminate].
  destruct (files w !! path) as [[|j]|] eqn:Hf; simpl; try discriminate.
  destruct (as_parsed j) as [ | | | | | |o] eqn:Hj; try discriminate.
  destruct (is_number (get_field "total" o)) eqn:Ht,
           (is_number (get_field "current" o)) eqn:Hc;
    simpl; try discriminate.
  intros H; inversion H; subst. split; [|reflexivity]. exists j. auto.
Qed.

Lemma readProgress_log w path r w' :
  readProgress path w = (r, w') ->
  files w' = files w /\ clock w' = clock w /\ readonly w' = readonly w
  /\ litter w' = litter w /\ entropy w' = entropy w.
Proof.
  unfold readProgress, bind, existsSync, readFileSync, ret.
  destruct (bool_decide _); simpl; intros H; inversion H; subst; auto 6.
Qed.

Lemma writeProgressAtomic_ok w path state :
  (path ∉ readonly w) ->
  writeProgressAtomic path state w = (Ok tt, after_write path (Doc (JObj state)) w).
Proof.
  intros H. unfold writeProgressAtomic, bind, randomHex, writeTempAndRename, ret.
  now rewrite bool_decide_eq_false_2.
Qed.

Lemma writeProgressAtomic_inv w path state w' :
  writeProgressAtomic path state w = (Ok tt, w') ->
  (path ∉ readonly w) /\ w' = after_write path (Doc (JObj state)) w.
Proof.
  unfold writeProgressAtomic, bind, randomHex, writeTempAndRename, ret.
  destruct (bool_decide_reflect (path ∈ readonly w)); intros H; inversion H; auto.
Qed.

(** A write fails when the rename does, and then leaves its temporary
    file. *)
Lemma writeProgressAtomic_failed w path state e w' :
  writeProgressAtomic path state w = (Err e, w') ->
  path ∈ readonly w /\ w' = after_failed_write path w.
Proof.
  unfold writeProgressAtomic, bind, randomHex, writeTempAndRename, ret.
  destruct (bool_decide_reflect (path ∈ readonly w)); intros H; inversion H; auto.
Qed.

(** *** The three mutations are read-modify-write cycles *)

Lemma increment_mutate amount message config :
  increment amount message config
  = if JSNumber.ltb (default (Int 1) amount) 0
    then ret (Err "Increment amount must be non-negative")
    else mutate config (increment_state (default (Int 1) amount) message).
Proof. reflexivity. Qed.

Lemma set_mutate current message config :
  set current message config
  = if JSNumber.ltb current 0 then ret (Err "Current value must be non-negative")
    else mutate config (set_state current message).
Proof. reflexivity. Qed.

Lemma finish_mutate message config :
  finish message config = mutate config (finish_state message).
Proof. reflexivity. Qed.

Lemma mutate_run config f w path state :
  getProgressFilePath config = Ok path ->
  stored w path state ->
  (path ∉ readonly w) ->
  mutate config f w
  = (Ok (f (clock w) state),
     after_write path (Doc (JObj (f (clock w) state))) (after_read path w)).
Proof.
  intros Hp Hs Hw. unfold mutate. rewrite Hp. unfold bind at 1.
  rewrite (readProgress_stored _ _ _ Hs). unfold bind, Date_now.
  rewrite writeProgressAtomic_ok by exact Hw. reflexivity.
Qed.

Lemma mutate_inv config f w state' w' :
  mutate config f w = (Ok state', w') ->
  exists path state,
    getProgressFilePath config = Ok path
    /\ stored w path state
    /\ (path ∉ readonly w)
    /\ state' = f (clock w) state
    /\ w' = after_write path (Doc (JObj state')) (after_read path w).
Proof.
  unfold mutate. destruct (getProgressFilePath config) as [path|e] eqn:Hp;
    [|discriminate].
  unfold bind at 1. destruct (readProgress path w) as [[state|e] w1] eqn:Hr;
    [|discriminate].
  apply readProgress_inv in Hr as [Hs ->].
  unfold bind, Date_now.
  destruct (writeProgressAtomic path _ _) as [[[]|e] w2] eqn:Hw; [|discriminate].
  apply writeProgressAtomic_inv in Hw as [Hro ->].
  unfold ret. intros H; inversion H; subst.
  exists path, state. auto.
Qed.

Lemma after_write_lookup path text w :
  files (after_write path text w) !! path = Some text.
Proof. simpl. apply lookup_insert_eq. Qed.

(* ================================================================= *)
(** ** The single tracker *)

Lemma update_state_fields c' message now state :
  let state' := update_state c' message now state in
  get_field "total" state' = get_field "total" state
  /\ get_field "current" state' = Some (json_of_number c')
  /\ get_field "percentage" state'
     = Some (json_of_number (JSNumber.percentage c' (number_field "total" state)))
  /\ get_field "updatedTime" state' = Some (JNum now)
  /\ get_field "startTime" state' = get_field "startTime" state
  /\ get_field "complete" state'
     = (if JSNumber.geb c' (number_field "total" state) then Some (JBool true)
        else get_field "complete" state)
  /\ get_field "message" state'
     = match truthy message with
       | Some m => Some (JStr m)
       | None => get_field "message" state
       end.
Proof.
  intros state'. subst state'. unfold update_state.
  repeat split.
  - rewrite get_raise_complete_ne, get_assign_message_ne by discriminate.
    unfold assign_progress. now fields.
  - rewrite get_raise_complete_ne, get_assign_message_ne by discriminate.
    unfold assign_progress. now fields.
  - rewrite get_raise_complete_ne, get_assign_message_ne by discriminate.
    unfold assign_progress. now fields.
  - rewrite get_raise_complete_ne, get_assign_message_ne by discriminate.
    unfold assign_progress. now fields.
  - rewrite get_raise_complete_ne, get_assign_message_ne by discriminate.
    unfold assign_progress. now fields.
  - unfold raise_complete.
    rewrite !number_assign_message_ne by discriminate.
    unfold assign_progress. fields.
    destruct (JSNumber.geb _ _); fields; [reflexivity|].
    rewrite get_assign_message_ne by discriminate. now fields.
  - rewrite get_raise_complete_ne by discriminate.
    unfold assign_message. destruct (truthy message); fields; [reflexivity|].
    unfold assign_progress. now fields.
Qed.

Lemma finish_state_fields message now state :
  let state' := finish_state message now state in
  get_field "total" state' = get_field "total" state
  /\ get_field "current" state' = Some (json_of_number (number_field "total" state))
  /\ get_field "percentage" state' = Some (JNum 100)
  /\ get_field "updatedTime" state' = Some (JNum now)
  /\ get_field "startTime" state' = get_field "startTime" state
  /\ get_field "complete" state' = Some (JBool true)
  /\ get_field "message" state'
     = match truthy message with
       | Some m => Some (JStr m)
       | None => get_field "message" state
       end.
Proof.
  intros state'. subst state'. unfold finish_state.
  repeat split;
    try (rewrite get_assign_message_ne by discriminate; now fields).
  unfold assign_message. destruct (truthy message); fields; reflexivity.
Qed.

(** The states the updates compute hold only finite numbers when the
    state they start from does and the numbers they assign are finite. *)
Lemma parsed_assign_message message state :
  parsed_value (JObj state) -> parsed_value (JObj (assign_message message state)).
Proof.
  intros H. unfold assign_message. destruct (truthy message); [|exact H].
  now apply parsed_value_set_field.
Qed.

Lemma parsed_raise_complete state :
  parsed_value (JObj state) -> parsed_value (JObj (raise_complete state)).
Proof.
  intros H. unfold raise_complete. destruct (JSNumber.geb _ _); [|exact H].
  now apply parsed_value_set_field.
Qed.

Lemma parsed_finish_state message now state :
  parsed_value (JObj state) ->
  is_number (get_field "total" state) = true ->
  parsed_value (JObj (finish_state message now state)).
Proof.
  intros H Ht. unfold finish_state.
  apply parsed_assign_message.
  repeat (apply parsed_value_set_field; [|reflexivity]).
  apply parsed_value_set_field; [exact H|].
  destruct (parsed_number_field _ _ H Ht) as [_ ->]. reflexivity.
Qed.

Lemma parsed_update_state (c' : Z) message now state :
  parsed_value (JObj state) ->
  parsed_value
    (json_of_number (JSNumber.percentage c' (number_field "total" state))) ->
  parsed_value (JObj (update_state c' message now state)).
Proof.
  intros H Hp. unfold update_state.
  apply parsed_raise_complete, parsed_assign_message.
  unfold assign_progress.
  apply parsed_value_set_field; [|reflexivity].
  apply parsed_value_set_field.
  - now apply parsed_value_set_field.
  - now fields.
Qed.

(** What a successful update computed, and from what. *)
Lemma update_inv m config w state' w' :
  is_update m = true ->
  run_mutation m config w = (Ok state', w') ->
  exists path state f,
    getProgressFilePath config = Ok path
    /\ stored w path state
    /\ state' = f (clock w) state
    /\ w' = after_write path (Doc (JObj state')) (after_read path w)
    /\ match m with
       | MInit _ _ => False
       | MIncrement amount message =>
           JSNumber.ltb (default (Int 1) amount) 0 = false
           /\ f = increment_state (default (Int 1) amount) message
       | MSet current message =>
           JSNumber.ltb current 0 = false /\ f = set_state current message
       | MFinish message => f = finish_state message
       end.
Proof.
  intros Hu Hrun. destruct m as [t msg|amount msg|c msg|msg]; simpl in *;
    [discriminate| | |].
  - rewrite increment_mutate in Hrun.
    destruct (JSNumber.ltb (default (Int 1) amount) 0) eqn:Hlt; [discriminate|].
    apply mutate_inv in Hrun as (path & state & Hp & Hs & _ & -> & ->).
    exists path, state, (increment_state (default (Int 1) amount) msg).
    split; [exact Hp|]. split; [exact Hs|]. do 2 (split; [reflexivity|]).
    split; reflexivity.
  - rewrite set_mutate in Hrun.
    destruct (JSNumber.ltb c 0) eqn:Hlt; [discriminate|].
    apply mutate_inv in Hrun as (path & state & Hp & Hs & _ & -> & ->).
    exists path, state, (set_state c msg).
    split; [exact Hp|]. split; [exact Hs|]. do 2 (split; [reflexivity|]).
    split; reflexivity.
  - rewrite finish_mutate in Hrun.
    apply mutate_inv in Hrun as (path & state & Hp & Hs & _ & -> & ->).
    exists path, state, (finish_state msg).
    split; [exact Hp|]. split; [exact Hs|]. now do 2 (split; [reflexivity|]).
Qed.

Lemma stored_inj w path s1 s2 : stored w path s1 -> stored w path s2 -> s1 = s2.
Proof. intros (j1 & H1 & P1 & _) (j2 & H2 & P2 & _). congruence. Qed.

(** An update that succeeded read the entity stored at the path of its
    configuration, and wrote back what it returned. *)
Lemma update_inv_at m config w state' w' path state :
  is_update m = true ->
  getProgressFilePath config = Ok path ->
  stored w path state ->
  run_mutation m config w = (Ok state', w') ->
  files w' !! path = Some (Doc (JObj state'))
  /\ clock w' = clock w
  /\ match m with
     | MInit _ _ => False
     | MIncrement amount message =>
         JSNumber.ltb (default (Int 1) amount) 0 = false
         /\ state' = increment_state (default (Int 1) amount) message (clock w) state
     | MSet current message =>
         JSNumber.ltb current 0 = false
         /\ state' = set_state current message (clock w) state
     | MFinish message => state' = finish_state message (clock w) state
     end.
Proof.
  intros Hu Hp Hs Hrun.
  destruct (update_inv _ _ _ _ _ Hu Hrun) as (p & s & f & Hp' & Hs' & Hst & Hw' & Hm).
  assert (p = path) by congruence. subst p.
  assert (s = state) by (eapply stored_inj; eauto). subst s.
  split; [rewrite Hw'; apply after_write_lookup|].
  split; [rewrite Hw'; reflexivity|].
  destruct m; try contradiction; [destruct Hm as [? ->]|destruct Hm as [? ->]|subst f];
    auto.
Qed.

(** What [init] does when it succeeds. *)
Lemma init_with_inv t message config w state' w' :
  init_with t message config w = (Ok state', w') ->
  exists path,
    getProgressFilePath config = Ok path
    /\ JSNumber.ltb 0 t = true
    /\ (path ∉ readonly w)
    /\ state' = initial_state t message (clock w)
    /\ w' = after_write path (Doc (JObj state')) w.
Proof.
  unfold init_with.
  destruct (JSNumber.isNaN t || JSNumber.leb t 0) eqn:Hg; [discriminate|].
  apply JSNumberFacts.positive_total in Hg.
  unfold bind, Date_now.
  destruct (getProgressFilePath config) as [path|e]; [|discriminate].
  destruct (writeProgressAtomic path _ w) as [[[]|e] w1] eqn:Hw; [|discriminate].
  apply writeProgressAtomic_inv in Hw as [Hro ->].
  unfold ret. intros H'; inversion H'; subst. eauto 6.
Qed.

Lemma init_inv t message config w state' w' :
  init t message config w = (Ok state', w') ->
  exists path,
    getProgressFilePath config = Ok path
    /\ JSNumber.ltb 0 t = true
    /\ state' = initial_state t (Some (JStr message)) (clock w)
    /\ w' = after_write path (Doc (JObj state')) w.
Proof.
  intros H. apply init_with_inv in H as (path & Hp & Ht & _ & Hs & Hw). eauto.
Qed.

Lemma init_with_run t message config path w :
  JSNumber.ltb 0 t = true ->
  getProgressFilePath config = Ok path ->
  (path ∉ readonly w) ->
  init_with t message config w
  = (Ok (initial_state t message (clock w)),
     after_write path (Doc (JObj (initial_state t message (clock w)))) w).
Proof.
  intros Ht Hp Hw. unfold init_with.
  apply JSNumberFacts.positive_total in Ht. rewrite Ht, Hp.
  unfold bind, Date_now. rewrite writeProgressAtomic_ok by exact Hw. reflexivity.
Qed.

(** A write leaves the clock, the entropy and the read-only paths alone;
    when it fails it leaves the files alone and one temporary file
    behind. *)
Lemma writeProgressAtomic_frame path state w r w' :
  writeProgressAtomic path state w = (r, w') ->
  clock w' = clock w /\ readonly w' = readonly w /\ entropy w' = entropy w
  /\ (forall e, r = Err e ->
        files w' = files w /\ litter w' = (path +:+ ".tmp." +:+ entropy w) :: litter w)
  /\ (forall v, r = Ok v -> litter w' = litter w).
Proof.
  unfold writeProgressAtomic, bind, randomHex, writeTempAndRename, ret.
  case_bool_decide; intros Heq; inversion Heq; subst; simpl;
    repeat split; auto; discriminate.
Qed.

Lemma mutate_frame config f w r w' :
  mutate config f w = (r, w') ->
  clock w' = clock w /\ readonly w' = readonly w /\ entropy w' = entropy w
  /\ (forall e, r = Err e -> files w' = files w /\ litter_of config w w')
  /\ (forall v, r = Ok v -> litter w' = litter w).
Proof.
  unfold mutate, litter_of.
  destruct (getProgressFilePath config) as [path|e0] eqn:Hp;
    [|intros Heq; inversion Heq; subst; repeat split; auto; discriminate].
  unfold bind at 1.
  destruct (readProgress path w) as [[state|e0] w1] eqn:Hr;
    pose proof Hr as Hr'; apply readProgress_log in Hr' as (Hf & Hc & Hro & Hl & He);
    [|intros Heq; inversion Heq; subst; repeat split; auto; discriminate].
  unfold bind, Date_now.
  destruct (writeProgressAtomic path _ w1) as [[[]|e0] w2] eqn:Hw;
    pose proof Hw as Hw'';
    apply writeProgressAtomic_frame in Hw'' as (Hc2 & Hro2 & He2 & Hf2 & Hl2);
    intros Heq; inversion Heq; subst; repeat split; try congruence; try discriminate.
  - intros v _. rewrite (Hl2 tt eq_refl). exact Hl.
  - destruct (Hf2 e0 eq_refl) as [Hf3 _]. congruence.
  - right. exists path. split; [reflexivity|].
    apply writeProgressAtomic_failed in Hw as [Hin _].
    split; [now rewrite <- Hro|].
    destruct (Hf2 e0 eq_refl) as [_ Hl3]. rewrite Hl3, He, Hl. reflexivity.
Qed.

Lemma init_with_frame t message config w r w' :
  init_with t message config w = (r, w') ->
  clock w' = clock w /\ readonly w' = readonly w /\ entropy w' = entropy w
  /\ (forall e, r = Err e -> files w' = files w /\ litter_of config w w')
  /\ (forall v, r = Ok v -> litter w' = litter w).
Proof.
  unfold init_with, litter_of.
  destruct (JSNumber.isNaN t || JSNumber.leb t 0);
    [intros Heq; inversion Heq; subst; repeat split; auto; discriminate|].
  unfold bind, Date_now.
  destruct (getProgressFilePath config) as [path|e0];
    [|intros Heq; inversion Heq; subst; repeat split; auto; discriminate].
  destruct (writeProgressAtomic path _ w) as [[[]|e0] w2] eqn:Hw;
    pose proof Hw as Hw'';
    apply writeProgressAtomic_frame in Hw'' as (Hc2 & Hro2 & He2 & Hf2 & Hl2);
    intros Heq; inversion Heq; subst; repeat split; try congruence; try discriminate.
  - intros v _. exact (Hl2 tt eq_refl).
  - exact (proj1 (Hf2 e0 eq_refl)).
  - right. exists path. split; [reflexivity|].
    apply writeProgressAtomic_failed in Hw as [Hin _].
    split; [exact Hin|]. exact (proj2 (Hf2 e0 eq_refl)).
Qed.

(** A call leaves the clock alone, and the files too when it fails. *)
Lemma run_mutation_frame m config w r w' :
  run_mutation m config w = (r, w') ->
  clock w' = clock w /\ readonly w' = readonly w /\ entropy w' = entropy w
  /\ (forall e, r = Err e -> files w' = files w /\ litter_of config w w')
  /\ (forall v, r = Ok v -> litter w' = litter w).
Proof.
  assert (Hskip : forall e : string,
            (Err e, w) = (r, w') ->
            clock w' = clock w /\ readonly w' = readonly w /\ entropy w' = entropy w
            /\ (forall e, r = Err e -> files w' = files w /\ litter_of config w w')
            /\ (forall v, r = Ok v -> litter w' = litter w)).
  { intros e Heq; inversion Heq; subst. unfold litter_of.
    repeat split; auto; discriminate. }
  destruct m as [t msg|amount msg|c msg|msg]; simpl.
  - apply init_with_frame.
  - rewrite increment_mutate.
    destruct (JSNumber.ltb _ 0); [apply Hskip|apply mutate_frame].
  - rewrite set_mutate.
    destruct (JSNumber.ltb _ 0); [apply Hskip|apply mutate_frame].
  - rewrite finish_mutate. apply mutate_frame.
Qed.

(** *** The invariants *)

(** The counter an update computes from arguments in range lies between 0
    and the total. *)
Lemma capped_sum (c t : Z) (a : number) :
  0 <= c <= t -> t <= JSNumber.MAX_SAFE_INTEGER ->
  a <> NaN -> JSNumber.ltb a 0 = false ->
  exists c', JSNumber.min (JSNumber.add (Int c) a) (Int t) = Int c' /\ 0 <= c' <= t.
Proof.
  intros Hc Ht Hn Ha. unfold JSNumber.MAX_SAFE_INTEGER in Ht.
  destruct a as [z| |s]; [| congruence |].
  - simpl in Ha. apply Z.ltb_ge in Ha.
    exists (Z.min (c + z) t). split; [|lia].
    apply JSNumberFacts.min_add_exact; lia.
  - destruct s; [discriminate|]. exists t. split; [|lia].
    unfold JSNumber.min. simpl. reflexivity.
Qed.

Lemma capped (t : Z) (v : number) :
  0 <= t -> v <> NaN -> JSNumber.ltb v 0 = false ->
  exists c', JSNumber.min v (Int t) = Int c' /\ 0 <= c' <= t.
Proof.
  intros Ht Hn Hv.
  destruct v as [z| |s]; [| congruence |].
  - simpl in Hv. apply Z.ltb_ge in Hv.
    exists (Z.min z t). split; [apply JSNumberFacts.min_exact|lia].
  - destruct s; [discriminate|]. exists t. split; [|lia].
    unfold JSNumber.min. simpl. reflexivity.
Qed.

Lemma get_parsed_number k o n :
  get_field k o = Some (JNum n) -> get_field k (as_parsed_fields o) = Some (JNum n).
Proof. intros H. now rewrite get_as_parsed_fields, H. Qed.

Lemma Inv_update_state (c' : Z) message now state :
  Inv state ->
  num_field "startTime" state <= now ->
  0 <= c' <= num_field "total" state ->
  Inv (as_parsed_fields (update_state c' message now state)).
Proof.
  intros (t & c & s & u & Ht & Hc & Hs & Hu & Hpc & Hb & Htot & Hsu) Hnow Hc'.
  destruct (update_state_fields c' message now state)
    as (F1 & F2 & F3 & F4 & F5 & _ & _).
  rewrite (num_field_get _ _ _ Ht) in *. rewrite (num_field_get _ _ _ Hs) in *.
  rewrite (number_field_get _ _ _ Ht) in F3.
  exists t, c', s, now.
  rewrite !get_as_parsed_fields, F1, F2, F3, F4, F5, Ht, Hs. simpl.
  repeat split; auto; lia.
Qed.

Lemma Inv_finish_state message now state :
  Inv state ->
  num_field "startTime" state <= now ->
  Inv (as_parsed_fields (finish_state message now state)).
Proof.
  intros (t & c & s & u & Ht & Hc & Hs & Hu & Hpc & Hb & Htot & Hsu) Hnow.
  destruct (finish_state_fields message now state)
    as (F1 & F2 & F3 & F4 & F5 & _ & _).
  rewrite (num_field_get _ _ _ Hs) in *.
  rewrite (number_field_get _ _ _ Ht) in F2.
  exists t, t, s, now.
  rewrite !get_as_parsed_fields, F1, F2, F3, F4, F5, Ht, Hs. simpl.
  rewrite JSNumberFacts.percentage_full by exact Htot.
  repeat split; auto; lia.
Qed.

Lemma Inv_init_state (t : Z) message now :
  0 < t <= JSNumber.MAX_SAFE_INTEGER ->
  Inv (as_parsed_fields (initial_state t (Some (JStr message)) now)).
Proof.
  intros Ht. exists t, 0, now, now.
  rewrite JSNumberFacts.percentage_zero by exact Ht.
  repeat split; try reflexivity; lia.
Qed.

Lemma valid_store_advance dt w path :
  0 <= dt -> valid_store w path -> valid_store (advance dt w) path.
Proof.
  intros Hdt Hv state Hs. destruct (Hv state Hs) as [Hi Hc].
  split; [exact Hi|]. simpl. lia.
Qed.

Lemma Inv_bounds state :
  Inv state ->
  0 <= num_field "current" state <= num_field "total" state
  /\ 0 < num_field "total" state <= JSNumber.MAX_SAFE_INTEGER
  /\ number_field "current" state = Int (num_field "current" state)
  /\ number_field "total" state = Int (num_field "total" state).
Proof.
  intros (t & c & s & u & Ht & Hc & _ & _ & _ & Hb & Htot & _).
  rewrite (num_field_get _ _ _ Ht), (num_field_get _ _ _ Hc).
  rewrite (number_field_get _ _ _ Ht), (number_field_get _ _ _ Hc).
  repeat split; lia.
Qed.

Lemma Inv_numbers state :
  Inv state ->
  is_number (get_field "total" state) = true
  /\ is_number (get_field "current" state) = true.
Proof.
  intros (t & c & s & u & Ht & Hc & _). now rewrite Ht, Hc.
Qed.

(** One mutation on a valid store: what it returns is valid, and so is the
    store it leaves. *)
Lemma mutation_sound config path m w :
  getProgressFilePath config = Ok path ->
  valid_store w path ->
  in_range m ->
  sound path (run_mutation m config w)
  /\ valid_store (snd (run_mutation m config w)) path.
Proof.
  intros Hp Hv Hr.
  destruct (run_mutation m config w) as [r w'] eqn:Hrun.
  destruct (run_mutation_frame _ _ _ _ _ Hrun) as (Hclock & _ & _ & Hfail & _).
  destruct r as [state'|e]; simpl.
  - assert (Hgoal : Inv (as_parsed_fields state')
                    /\ files w' !! path = Some (Doc (JObj state'))
                    /\ num_field "startTime" (as_parsed_fields state') <= clock w).
    { destruct (is_update m) eqn:Hu.
      - destruct (update_inv _ _ _ _ _ Hu Hrun)
          as (p & state & f & Hp' & Hs & Hst & Hw' & Hm).
        assert (p = path) by congruence. subst p.
        destruct (Hv state Hs) as [Hi Hstart].
        destruct (Inv_bounds _ Hi) as (Hb & Ht & Hnc & Hnt).
        assert (Hkeep : forall c' msg,
                  num_field "startTime"
                    (as_parsed_fields (update_state c' msg (clock w) state))
                  = num_field "startTime" state).
        { intros c' msg. unfold num_field. rewrite get_as_parsed_fields.
          destruct (update_state_fields c' msg (clock w) state)
            as (_ & _ & _ & _ & F5 & _). rewrite F5.
          destruct Hi as (t0 & c0 & s0 & u0 & _ & _ & Hs0 & _). now rewrite Hs0. }
        split; [|split; [rewrite Hw'; apply after_write_lookup|]].
        + destruct m as [| amount msg | c msg | msg]; try contradiction.
          * destruct Hm as [Ha ->]. subst state'. simpl in Hr.
            unfold increment_state. rewrite Hnc, Hnt.
            destruct (capped_sum _ _ _ Hb (proj2 Ht) Hr Ha) as (c' & -> & Hc').
            apply Inv_update_state; auto.
          * destruct Hm as [Ha ->]. subst state'. simpl in Hr.
            unfold set_state. rewrite Hnt.
            destruct (capped (num_field "total" state) c ltac:(lia) Hr Ha)
              as (c' & -> & Hc').
            apply Inv_update_state; auto.
          * subst f state'. apply Inv_finish_state; auto.
        + destruct m as [| amount msg | c msg | msg]; try contradiction.
          * destruct Hm as [Ha ->]. subst state'.
            unfold increment_state. now rewrite Hkeep.
          * destruct Hm as [Ha ->]. subst state'.
            unfold set_state. now rewrite Hkeep.
          * subst f state'. unfold num_field. rewrite get_as_parsed_fields.
            destruct (finish_state_fields msg (clock w) state)
              as (_ & _ & _ & _ & F5 & _). rewrite F5.
            destruct Hi as (t0 & c0 & s0 & u0 & _ & _ & Hs0 & _).
            rewrite Hs0. simpl. unfold num_field in Hstart.
            now rewrite Hs0 in Hstart.
      - destruct m as [t msg| | |]; try discriminate. simpl in Hrun, Hr.
        destruct t as [t| |s]; try contradiction.
        apply init_inv in Hrun as (p & Hp' & Ht & Hst & Hw').
        assert (p = path) by congruence. subst p.
        simpl in Ht. apply Z.ltb_lt in Ht.
        split; [subst state'; apply Inv_init_state; lia|].
        split; [rewrite Hw'; apply after_write_lookup|].
        subst state'. unfold num_field. simpl. lia. }
    destruct Hgoal as (Hi & Hf & Hstart).
    assert (Hst : stored w' path (as_parsed_fields state')).
    { destruct (Inv_numbers _ Hi) as [Hn1 Hn2]. now apply stored_intro. }
    split.
    + intros state Heq. inversion Heq; subst. auto.
    + intros state Hs. rewrite (stored_inj _ _ _ _ Hs Hst).
      split; [exact Hi|lia].
  - split; [intros state Heq; discriminate|].
    intros state (j & Hs & Hn). rewrite (proj1 (Hfail e eq_refl)) in Hs.
    destruct (Hv state (ex_intro _ j (conj Hs Hn))) as [Hi Hstart].
    split; [exact Hi|lia].
Qed.

(* ================================================================= *)
(** ** Properties of the single tracker *)

Ltac holds_entity s := exists (JObj s); repeat split; reflexivity.

(** C1 (amended).  For every stored entity state and every non-negative
    amount, [increment(amount)] succeeds on a writable file and writes back a
    state with [current' = Math.min(current + amount, total)],
    [percentage = Math.round((current' / total) * 100)] and
    [updatedTime = Date.now()]; [set(value)] does the same with
    [current' = Math.min(value, total)].  The sum is the sum of JavaScript:
    it is the exact [min(current + amount, total)] as long as the counter
    and the total are integers not beyond 2^53, and is rounded beyond.  The
    completion flag is raised when [current' >= total] and is otherwise left
    as it was read: it is never cleared. *)
Theorem C1_increment_set_write_back :
  forall config path w state amount message,
    getProgressFilePath config = Ok path ->
    stored w path state ->
    (path ∉ readonly w) ->
    JSNumber.leb 0 amount = true ->
    writes_back w path state
      (JSNumber.min (JSNumber.add (number_field "current" state) amount)
                    (number_field "total" state))
      (increment (Some amount) message config w)
    /\ writes_back w path state
         (JSNumber.min amount (number_field "total" state))
         (set amount message config w)
    /\ (forall a : Z,
          amount = Int a ->
          - 2 ^ 53 <= num_field "current" state ->
          num_field "total" state <= 2 ^ 53 ->
          JSNumber.min (JSNumber.add (number_field "current" state) amount)
                       (number_field "total" state)
          = Int (Z.min (num_field "current" state + a) (num_field "total" state))
          /\ JSNumber.min amount (number_field "total" state)
             = Int (Z.min a (num_field "total" state))).
Proof.
  intros config path w state amount message Hp Hs Hw Ha.
  assert (Hlt : JSNumber.ltb amount 0 = false).
  { apply JSNumberFacts.not_ltb_zero. now right. }
  split; [|split].
  - rewrite increment_mutate. change (default (Int 1) (Some amount)) with amount.
    rewrite Hlt. rewrite (mutate_run _ _ _ _ _ Hp Hs Hw).
    eexists. split; [reflexivity|]. split; [apply after_write_lookup|].
    destruct (update_state_fields
                (JSNumber.min (JSNumber.add (number_field "current" state) amount)
                              (number_field "total" state))
                message (clock w) state) as (H1 & H2 & H3 & H4 & _ & H6 & _).
    unfold increment_state. auto.
  - rewrite set_mutate. rewrite Hlt.
    rewrite (mutate_run _ _ _ _ _ Hp Hs Hw).
    eexists. split; [reflexivity|]. split; [apply after_write_lookup|].
    destruct (update_state_fields
                (JSNumber.min amount (number_field "total" state))
                message (clock w) state) as (H1 & H2 & H3 & H4 & _ & H6 & _).
    unfold set_state. auto.
  - intros a -> Hc Ht. simpl in Ha. apply Z.leb_le in Ha.
    rewrite (proj2 (stored_current _ _ _ Hs)), (proj2 (stored_total _ _ _ Hs)).
    split; [now apply JSNumberFacts.min_add_exact|apply JSNumberFacts.min_exact].
Qed.

Lemma C1_witness :
  getProgressFilePath job = Ok job_path
  /\ stored (world_with job_path job_running 3000) job_path (state_object job_running)
  /\ (job_path ∉ readonly (world_with job_path job_running 3000))
  /\ JSNumber.leb 0 2 = true
  /\ writes_back (world_with job_path job_running 3000) job_path
       (state_object job_running) 42
       (increment (Some 2) None job (world_with job_path job_running 3000))
  /\ writes_back (world_with job_path job_running 3000) job_path
       (state_object job_running) 2
       (set 2 None job (world_with job_path job_running 3000)).
Proof.
  assert (Hp : getProgressFilePath job = Ok job_path) by reflexivity.
  assert (Hs : stored (world_with job_path job_running 3000) job_path
                 (state_object job_running)) by holds_entity (state_object job_running).
  assert (Hw : job_path ∉ readonly (world_with job_path job_running 3000))
    by (simpl; apply not_elem_of_empty).
  assert (Ha : JSNumber.leb 0 2 = true) by reflexivity.
  split; [exact Hp|]. split; [exact Hs|]. split; [exact Hw|]. split; [exact Ha|].
  destruct (C1_increment_set_write_back job job_path _ _ 2 None Hp Hs Hw Ha)
    as (Hi & Hset & _).
  split; [exact Hi|exact Hset].
Defined.

(** C1 as stated fails: after [finish], [set(5)] on a tracker of 100 writes
    back [current = 5] with [complete = true], although [5 >= 100] is false. *)
Lemma C1_counterexample :
  fst (set 5 None job (world_with job_path job_finished 3000))
  = Ok (state_object
          {| total := 100; current := 5; message := "done"; percentage := 5;
             startTime := 1000; updatedTime := 3000; complete := true |})
  /\ (100 <=? 5) = false
  /\ ~ writes_back_flag_as_comparison job_path (state_object job_finished)
        (Z.min 5 100) (set 5 None job (world_with job_path job_finished 3000)).
Proof.
  split; [reflexivity|]. split; [reflexivity|].
  intros (state' & Hr & _ & _ & Hc).
  vm_compute in Hr. inversion Hr; subst state'. discriminate Hc.
Qed.

(** The entity a mutation has written with a number that is not finite
    cannot be read. *)
Lemma unreadable_after_write config path w state field :
  getProgressFilePath config = Ok path ->
  field = "total"%string \/ field = "current"%string ->
  get_field field (as_parsed_fields state) = Some JNull ->
  fst (get config (after_write path (Doc (JObj state)) w))
  = Err "Invalid progress file format".
Proof.
  intros Hp Hfield Hnull. unfold get. rewrite Hp.
  rewrite (readProgress_doc _ _ (JObj state)) by apply after_write_lookup.
  rewrite as_parsed_obj.
  destruct Hfield as [-> | ->]; rewrite Hnull.
  - reflexivity.
  - now destruct (is_number (get_field "total" (as_parsed_fields state))).
Qed.

(** C2 fails.  [init] refuses a total that is [NaN], but [increment] and
    [set] only test [amount < 0] and [current < 0], which is false of
    [NaN]: on every initialized tracker [set(NaN)] and [increment(NaN)]
    succeed and write [current] and [percentage] as [NaN], that is as
    [null]; and [init(Infinity)] succeeds and writes [total] as [null].
    The entity written has no counter between 0 and the total, and no
    operation can read it afterwards. *)
Theorem C2_not_a_number_is_written :
  forall config path w state message text,
    getProgressFilePath config = Ok path ->
    stored w path state ->
    (path ∉ readonly w) ->
    corrupts config path "current" NaN (set NaN message config w)
    /\ result_field "percentage" (fst (set NaN message config w)) = Some JNaN
    /\ corrupts config path "current" NaN (increment (Some NaN) message config w)
    /\ result_field "percentage" (fst (increment (Some NaN) message config w))
       = Some JNaN
    /\ corrupts config path "total" (Infinity false)
         (init (Infinity false) text config w).
Proof.
  intros config path w state message text Hp Hs Hw.
  assert (Hupd : forall c', c' = NaN ->
            corrupts config path "current" NaN
              (Ok (update_state c' message (clock w) state),
               after_write path (Doc (JObj (update_state c' message (clock w) state)))
                 (after_read path w))
            /\ get_field "percentage" (update_state c' message (clock w) state)
               = Some JNaN).
  { intros c' ->.
    destruct (update_state_fields NaN message (clock w) state)
      as (_ & F2 & F3 & _).
    rewrite JSNumberFacts.percentage_nan in F3.
    split; [|exact F3].
    eexists. split; [reflexivity|]. split; [apply after_write_lookup|].
    split; [exact F2|].
    assert (Hnull : get_field "current"
                      (as_parsed_fields (update_state NaN message (clock w) state))
                    = Some JNull)
      by (now rewrite get_as_parsed_fields, F2).
    split; [exact Hnull|].
    cbn [snd].
    apply (unreadable_after_write config path _ _ "current" Hp); [now right|exact Hnull]. }
  assert (Hadd : JSNumber.min (JSNumber.add (number_field "current" state) NaN)
                              (number_field "total" state) = NaN).
  { unfold JSNumber.add. now destruct (number_field "current" state). }
  assert (Hset : JSNumber.min NaN (number_field "total" state) = NaN) by reflexivity.
  rewrite set_mutate, increment_mutate.
  change (JSNumber.ltb NaN 0) with false.
  change (JSNumber.ltb (default (Int 1) (Some NaN)) 0) with false.
  cbv iota. rewrite !(mutate_run _ _ _ _ _ Hp Hs Hw).
  unfold set_state, increment_state. change (default (Int 1) (Some NaN)) with NaN.
  destruct (Hupd _ Hset) as [S1 S2]. destruct (Hupd _ Hadd) as [I1 I2].
  split; [exact S1|]. split; [exact S2|]. split; [exact I1|]. split; [exact I2|].
  unfold init.
  rewrite (init_with_run (Infinity false) _ config path w eq_refl Hp Hw).
  eexists. split; [reflexivity|]. split; [apply after_write_lookup|].
  split; [reflexivity|]. split; [reflexivity|].
  cbn [snd].
  apply (unreadable_after_write config path _ _ "total" Hp); [now left|reflexivity].
Qed.

(** On the running job of 100: [set(NaN)] succeeds, and [get] fails
    afterwards. *)
Lemma C2_witness :
  getProgressFilePath job = Ok job_path
  /\ stored (world_with job_path job_running 3000) job_path (state_object job_running)
  /\ (job_path ∉ readonly (world_with job_path job_running 3000))
  /\ corrupts job job_path "current" NaN
       (set NaN None job (world_with job_path job_running 3000))
  /\ fst (set NaN None job (world_with job_path job_running 3000))
     = Ok [ ("total", JNum 100); ("current", JNaN); ("message", JStr "copying");
            ("percentage", JNaN); ("startTime", JNum 1000); ("updatedTime", JNum 3000);
            ("complete", JBool false) ].
Proof.
  assert (Hp : getProgressFilePath job = Ok job_path) by reflexivity.
  assert (Hs : stored (world_with job_path job_running 3000) job_path
                 (state_object job_running)) by holds_entity (state_object job_running).
  assert (Hw : job_path ∉ readonly (world_with job_path job_running 3000))
    by (simpl; apply not_elem_of_empty).
  split; [exact Hp|]. split; [exact Hs|]. split; [exact Hw|].
  split.
  - exact (proj1 (C2_not_a_number_is_written job job_path _ _ None "start" Hp Hs Hw)).
  - reflexivity.
Defined.

(** X30.  Where the invariants hold.  Along every history of a tracker --
    any sequence of [init], [increment], [set] and [finish] calls on a
    store that holds no entity or a valid one, made while the clock does
    not go back, with totals in the range of exact integers and no amount
    or counter that is [NaN] -- every successful mutation writes the entity
    it returns, and the entity in the file satisfies the invariants
    [0 <= current <= total], [total > 0],
    [percentage = Math.round((current / total) * 100)] and
    [startTime <= updatedTime]. *)
Theorem invariants_hold_for_numbers_in_range :
  forall config path h w,
    getProgressFilePath config = Ok path ->
    valid_store w path ->
    Forall well_timed h ->
    Forall (sound path) (run_history config h w).
Proof.
  intros config path h. induction h as [|[dt m] h IH]; intros w Hp Hv Hh.
  - constructor.
  - inversion Hh as [|? ? [Hdt Hr] Hh']; subst. simpl in Hdt, Hr.
    destruct (mutation_sound config path m (advance dt w) Hp
                (valid_store_advance _ _ _ Hdt Hv) Hr) as [Hs Hv'].
    simpl. constructor; [exact Hs|].
    apply IH; auto.
Qed.

Lemma invariants_hold_for_numbers_in_range_witness :
  getProgressFilePath job = Ok job_path
  /\ valid_store (fresh_world 1000) job_path
  /\ Forall well_timed job_history
  /\ Forall (sound job_path) (run_history job job_history (fresh_world 1000))
  /\ Forall (fun rw => is_ok (fst rw) = true)
       (run_history job job_history (fresh_world 1000)).
Proof.
  assert (Hp : getProgressFilePath job = Ok job_path) by reflexivity.
  assert (Hv : valid_store (fresh_world 1000) job_path).
  { intros state (j & Hf & _). simpl in Hf. rewrite lookup_empty in Hf. discriminate. }
  assert (Hh : Forall well_timed job_history).
  { repeat constructor; simpl; unfold JSNumber.MAX_SAFE_INTEGER; try lia;
      discriminate. }
  split; [exact Hp|]. split; [exact Hv|]. split; [exact Hh|].
  split.
  - exact (invariants_hold_for_numbers_in_range job job_path job_history
             (fresh_world 1000) Hp Hv Hh).
  - repeat constructor.
Defined.

(** C9.  The completion flag is monotone: when the stored entity has
    [complete = true], every successful [increment], [set] and [finish]
    writes back [complete = true], whatever the new value of [current]. *)
Theorem C9_complete_is_never_cleared :
  forall m config path w state state' w',
    is_update m = true ->
    getProgressFilePath config = Ok path ->
    stored w path state ->
    get_field "complete" state = Some (JBool true) ->
    run_mutation m config w = (Ok state', w') ->
    get_field "complete" state' = Some (JBool true)
    /\ files w' !! path = Some (Doc (JObj state')).
Proof.
  intros m config path w state state' w' Hu Hp Hs Hc Hrun.
  destruct (update_inv_at _ _ _ _ _ _ _ Hu Hp Hs Hrun) as (Hf & _ & Hm).
  split; [|exact Hf].
  destruct m as [| amount msg | c msg | msg]; try contradiction.
  - destruct Hm as [_ ->]. unfold increment_state.
    match goal with
    | |- get_field _ (update_state ?c ?m ?n ?s) = _ =>
        destruct (update_state_fields c m n s) as (_ & _ & _ & _ & _ & F6 & _)
    end.
    rewrite F6. now destruct (JSNumber.geb _ _).
  - destruct Hm as [_ ->]. unfold set_state.
    match goal with
    | |- get_field _ (update_state ?c ?m ?n ?s) = _ =>
        destruct (update_state_fields c m n s) as (_ & _ & _ & _ & _ & F6 & _)
    end.
    rewrite F6. now destruct (JSNumber.geb _ _).
  - subst state'.
    now destruct (finish_state_fields msg (clock w) state)
      as (_ & _ & _ & _ & _ & F6 & _).
Qed.

(** A completed tracker of 100 set back to 5 stays complete. *)
Lemma C9_witness :
  is_update (MSet 5 None) = true
  /\ getProgressFilePath job = Ok job_path
  /\ stored (world_with job_path job_finished 3000) job_path (state_object job_finished)
  /\ get_field "complete" (state_object job_finished) = Some (JBool true)
  /\ get_field "current"
       (state_object
          {| total := 100; current := 5; message := "done"; percentage := 5;
             startTime := 1000; updatedTime := 3000; complete := true |})
     = Some (JNum 5)
  /\ get_field "complete"
       (state_object
          {| total := 100; current := 5; message := "done"; percentage := 5;
             startTime := 1000; updatedTime := 3000; complete := true |})
     = Some (JBool true).
Proof.
  assert (Hu : is_update (MSet 5 None) = true) by reflexivity.
  assert (Hp : getProgressFilePath job = Ok job_path) by reflexivity.
  assert (Hs : stored (world_with job_path job_finished 3000) job_path
                 (state_object job_finished)) by holds_entity (state_object job_finished).
  assert (Hc : get_field "complete" (state_object job_finished) = Some (JBool true))
    by reflexivity.
  assert (Hrun : run_mutation (MSet 5 None) job (world_with job_path job_finished 3000)
                 = (Ok (state_object
                          {| total := 100; current := 5; message := "done";
                             percentage := 5; startTime := 1000;
                             updatedTime := 3000; complete := true |}),
                    snd (set 5 None job (world_with job_path job_finished 3000))))
    by reflexivity.
  split; [exact Hu|]. split; [exact Hp|]. split; [exact Hs|]. split; [exact Hc|].
  split; [reflexivity|].
  exact (proj1 (C9_complete_is_never_cleared _ _ _ _ _ _ _ Hu Hp Hs Hc Hrun)).
Defined.

(** C10.  The empty string given as the optional message to [increment],
    [set] or [finish] leaves the stored message as it was; the message field
    changes only when the message given is a non-empty string, and then it
    becomes that string. *)
Theorem C10_empty_message_is_ignored :
  forall m config path w state state' w',
    is_update m = true ->
    getProgressFilePath config = Ok path ->
    stored w path state ->
    run_mutation m config w = (Ok state', w') ->
    files w' !! path = Some (Doc (JObj state'))
    /\ (message_arg m = Some EmptyString ->
        get_field "message" state' = get_field "message" state)
    /\ (get_field "message" state' <> get_field "message" state ->
        exists s, message_arg m = Some s /\ s <> EmptyString
                  /\ get_field "message" state' = Some (JStr s)).
Proof.
  intros m config path w state state' w' Hu Hp Hs Hrun.
  destruct (update_inv_at _ _ _ _ _ _ _ Hu Hp Hs Hrun) as (Hf & _ & Hm).
  split; [exact Hf|].
  assert (Hmsg : get_field "message" state'
                 = match truthy (message_arg m) with
                   | Some s => Some (JStr s)
                   | None => get_field "message" state
                   end).
  { destruct m as [| amount msg | c msg | msg]; try contradiction; simpl.
    - destruct Hm as [_ ->]. unfold increment_state.
      match goal with
      | |- get_field _ (update_state ?c ?m ?n ?s) = _ =>
          now destruct (update_state_fields c m n s) as (_ & _ & _ & _ & _ & _ & F7)
      end.
    - destruct Hm as [_ ->]. unfold set_state.
      match goal with
      | |- get_field _ (update_state ?c ?m ?n ?s) = _ =>
          now destruct (update_state_fields c m n s) as (_ & _ & _ & _ & _ & _ & F7)
      end.
    - subst state'.
      now destruct (finish_state_fields msg (clock w) state)
        as (_ & _ & _ & _ & _ & _ & F7). }
  split.
  - intros He. rewrite Hmsg, He. reflexivity.
  - intros Hne. rewrite Hmsg in Hne |- *.
    destruct (truthy (message_arg m)) as [s|] eqn:Ht; [|contradiction].
    apply truthy_Some in Ht as [Hm' Hs']. exists s. auto.
Qed.

Lemma C10_witness :
  is_update (MIncrement (Some 1) (Some EmptyString)) = true
  /\ getProgressFilePath job = Ok job_path
  /\ stored (world_with job_path job_running 3000) job_path (state_object job_running)
  /\ get_field "message"
       (state_object
          {| total := 100; current := 41; message := "copying"; percentage := 41;
             startTime := 1000; updatedTime := 3000; complete := false |})
     = get_field "message" (state_object job_running).
Proof.
  assert (Hu : is_update (MIncrement (Some 1) (Some EmptyString)) = true)
    by reflexivity.
  assert (Hp : getProgressFilePath job = Ok job_path) by reflexivity.
  assert (Hs : stored (world_with job_path job_running 3000) job_path
                 (state_object job_running)) by holds_entity (state_object job_running).
  assert (Hrun : run_mutation (MIncrement (Some 1) (Some EmptyString)) job
                   (world_with job_path job_running 3000)
                 = (Ok (state_object
                          {| total := 100; current := 41; message := "copying";
                             percentage := 41; startTime := 1000;
                             updatedTime := 3000; complete := false |}),
                    snd (increment (Some 1) (Some EmptyString) job
                           (world_with job_path job_running 3000))))
    by reflexivity.
  split; [exact Hu|]. split; [exact Hp|]. split; [exact Hs|].
  exact (proj1 (proj2 (C10_empty_message_is_ignored _ _ _ _ _ _ _ Hu Hp Hs Hrun))
           eq_refl).
Defined.

(* ================================================================= *)
(** ** Validation *)

Lemma all_chars_spec p s :
  all_chars p s = true <-> (forall a, In a (list_ascii_of_string s) -> p a = true).
Proof.
  induction s as [|a s IH]; simpl.
  - split; [intros _ ? []|reflexivity].
  - rewrite andb_true_iff, IH. split.
    + intros [Ha Hs] b [<-|Hb]; auto.
    + intros H. split; [apply H; now left|intros b Hb; apply H; now right].
Qed.

(** [validateId] accepts exactly the identifiers of 1 to 255 characters
    taken from [[a-zA-Z0-9_-]]. *)
Lemma validateId_spec i :
  validateId i = Ok i
  <-> (1 <= strlen i <= 255
       /\ forall a, In a (list_ascii_of_string i) -> is_id_char a = true).
Proof.
  unfold validateId, id_regex_test.
  destruct (Z.eqb_spec (strlen i) 0) as [H0|H0].
  { split; [discriminate|]. intros [[? ?] _]. lia. }
  destruct (Z.ltb_spec 255 (strlen i)) as [H255|H255].
  { split; [discriminate|]. intros [[? ?] _]. lia. }
  assert (Hlen : 1 <= strlen i <= 255) by (unfold strlen in *; lia).
  destruct i as [|a i]; [unfold strlen in H0; simpl in H0; lia|].
  destruct (all_chars is_id_char (String a i)) eqn:Hall; simpl.
  - split; [|reflexivity]. intros _. split; [exact Hlen|].
    exact (proj1 (all_chars_spec is_id_char (String a i)) Hall).
  - split; [discriminate|]. intros [_ H].
    pose proof (proj2 (all_chars_spec is_id_char (String a i)) H). congruence.
Qed.

Lemma validateId_result i : validateId i = Ok i \/ exists e, validateId i = Err e.
Proof.
  unfold validateId.
  destruct (_ =? _); [eauto|]. destruct (_ <? _); [eauto|].
  destruct (negb _); eauto.
Qed.

(** A path separator and a NUL are outside the character class. *)
Example separators_are_not_id_chars :
  is_id_char "/"%char = false /\ is_id_char "\"%char = false
  /\ is_id_char "."%char = false /\ is_id_char (ascii_of_N 0) = false.
Proof. repeat split; reflexivity. Qed.

(** Every operation of the functional API rejects a non-empty identifier
    that [validateId] rejects, and does so without touching the file
    system. *)
Lemma single_tracker_rejects_invalid_id i e :
  i <> EmptyString ->
  validateId i = Err e ->
  let config := mkConfig (Some i) None in
  forall w,
    (forall m, exists e', run_mutation m config w = (Err e', w))
    /\ get config w = (Err e, w)
    /\ clear config w = (Err e, w).
Proof.
  intros Hi He config w.
  assert (Hp : getProgressFilePath config = Err e).
  { unfold getProgressFilePath, config. simpl.
    unfold or_default. destruct i as [|a i]; [congruence|]. simpl.
    now rewrite He. }
  split; [|split].
  - intros [t msg|amount msg|c msg|msg]; simpl.
    + unfold init, init_with.
      destruct (JSNumber.isNaN t || JSNumber.leb t 0); [eexists; reflexivity|].
      unfold bind, Date_now. rewrite Hp. eexists; reflexivity.
    + unfold increment. destruct (JSNumber.ltb _ 0); [eexists; reflexivity|].
      rewrite Hp. eexists; reflexivity.
    + unfold set. destruct (JSNumber.ltb _ 0); [eexists; reflexivity|].
      rewrite Hp. eexists; reflexivity.
    + unfold finish. rewrite Hp. eexists; reflexivity.
  - unfold get. now rewrite Hp.
  - unfold clear. now rewrite Hp.
Qed.

(** C3.  The constructor of [MultiProgress] never calls [validateId]: with
    the group identifier ["x/../../etc/cron.d/job"], which [validateId]
    rejects, it goes on to probe the file system and to create the
    aggregate file at the path [join] builds from that identifier, which is
    outside the directory of the progress files. *)
Theorem C3_group_id_reaches_the_file_system :
  validateId escaping_id
  = Err "ID must contain only alphanumeric characters, hyphens, and underscores"
  /\ fst (MultiProgress.new (mkMultiConfig (Some escaping_id) None) (fresh_world 1000))
     = Returned (MultiProgress.mk escaping_id escaping_path [])
  /\ log (snd (MultiProgress.new (mkMultiConfig (Some escaping_id) None)
                 (fresh_world 1000)))
     = [EExists escaping_path; EWriteTemp escaping_path; ERename escaping_path]
  /\ files (snd (MultiProgress.new (mkMultiConfig (Some escaping_id) None)
                   (fresh_world 1000))) !! escaping_path
     = Some (Doc (JObj [ ("trackers", JObj []);
                         ("meta", JObj [("created", JNum 1000);
                                        ("updated", JNum 1000)]) ])).
Proof. repeat split; reflexivity. Qed.

(** C5.  [readProgress] checks the type of [total] and [current] only: a
    file without [message], [percentage], [startTime], [updatedTime] and
    [complete] is decoded successfully, and so is one in which those fields
    have the wrong types.  [MultiProgress.readState] checks nothing: the
    empty object and a bare number are returned as group snapshots. *)
Theorem C5_decode_accepts_malformed_entities :
  fst (readProgress job_path (world_of_file job_path (Doc (JObj truncated_entity))))
  = Ok truncated_entity
  /\ get_field "message" truncated_entity = None
  /\ get_field "percentage" truncated_entity = None
  /\ get_field "startTime" truncated_entity = None
  /\ get_field "updatedTime" truncated_entity = None
  /\ get_field "complete" truncated_entity = None
  /\ fst (readProgress job_path (world_of_file job_path (Doc (JObj mistyped_entity))))
     = Ok mistyped_entity
  /\ is_number (get_field "percentage" mistyped_entity) = false
  /\ is_number (get_field "startTime" mistyped_entity) = false
  /\ is_number (get_field "updatedTime" mistyped_entity) = false
  /\ fst (MultiProgress.readState default_group
            (world_of_file "/tmp/progress-multi-default.json" (Doc (JObj []))))
     = Ok (JObj [])
  /\ fst (MultiProgress.readState default_group
            (world_of_file "/tmp/progress-multi-default.json" (Doc (JNum 7))))
     = Ok (JNum 7).
Proof. repeat split; reflexivity. Qed.

(** [readProgress] does reject a file whose [total] or [current] is missing
    or is not a number. *)
Lemma readProgress_checks_total_and_current w path state w' :
  readProgress path w = (Ok state, w') ->
  (exists t, get_field "total" state = Some (JNum t))
  /\ (exists c, get_field "current" state = Some (JNum c)).
Proof.
  intros H. apply readProgress_inv in H as [Hs _].
  destruct (stored_total _ _ _ Hs) as [Ht _].
  destruct (stored_current _ _ _ Hs) as [Hc _]. eauto.
Qed.

(** C7.  No operation calls [validateMessage]: [increment] given a message
    of 10001 characters, which [validateMessage] rejects, reads the file,
    stores the message and writes the file back. *)
Theorem C7_over_length_message_is_stored :
  strlen long_message = 10001
  /\ validateMessage long_message
     = Err "Message exceeds maximum length (10000 characters)"
  /\ result_field "message"
       (fst (increment (Some 1) (Some long_message) job
               (world_with job_path job_running 3000)))
     = Some (JStr long_message)
  /\ log (snd (increment (Some 1) (Some long_message) job
                 (world_with job_path job_running 3000)))
     = [EExists job_path; ERead job_path; EWriteTemp job_path; ERename job_path]
  /\ result_field "message"
       (fst (init 100 long_message job (fresh_world 1000)))
     = Some (JStr long_message).
Proof. repeat split; vm_compute; reflexivity. Qed.

(** [validateMessage] itself accepts exactly the messages of at most
    [MAX_MESSAGE_LENGTH] characters. *)
Lemma validateMessage_spec message :
  validateMessage message = Ok message <-> strlen message <= MAX_MESSAGE_LENGTH.
Proof.
  unfold validateMessage. destruct (Z.ltb_spec MAX_MESSAGE_LENGTH (strlen message)).
  - split; [discriminate|lia].
  - split; [lia|reflexivity].
Qed.

(* ================================================================= *)
(** ** The push adapter *)

Lemma finish_ok_fields message config w state' w' :
  finish message config w = (Ok state', w') ->
  get_field "complete" state' = Some (JBool true)
  /\ get_field "percentage" state' = Some (JNum 100)
  /\ exists t, get_field "total" state' = Some (JNum t)
               /\ get_field "current" state' = Some (JNum t).
Proof.
  rewrite finish_mutate. intros H.
  apply mutate_inv in H as (path & state & _ & Hs & _ & -> & _).
  destruct (finish_state_fields message (clock w) state)
    as (F1 & F2 & F3 & _ & _ & F6 & _).
  destruct (stored_total _ _ _ Hs) as [Ht Hn].
  split; [exact F6|]. split; [exact F3|].
  exists (num_field "total" state). split; [now rewrite F1|].
  now rewrite F2, Hn.
Qed.

Lemma flush_emitted self w :
  ProgressTransform.emitted (fst (ProgressTransform._flush self w))
  = match fst (ProgressTracker.done (ProgressTransform.tracker self) None w) with
    | Ok value => [value]
    | Err _ => []
    end.
Proof.
  unfold ProgressTransform._flush, bind.
  destruct (ProgressTracker.done _ None w) as [[v|e] w1]; reflexivity.
Qed.

(** [_transform], case by case. *)
Lemma transform_spec self c w :
  ProgressTransform._transform self c w
  = let count :=
      JSNumber.add (ProgressTransform.bytesProcessed self)
                   (ProgressTransform.chunkSize c) in
    let counted :=
      ProgressTransform.mk (ProgressTransform.tracker self)
        (ProgressTransform.updateInterval self) count
        (ProgressTransform.lastEmittedBytes self) in
    match ProgressTracker.update (ProgressTransform.tracker self) count None w with
    | (Err e, w1) =>
        (ProgressTransform.mkStep counted []
           (ProgressTransform.CbError ("Progress tracking error: " +:+ e)), w1)
    | (Ok value, w1) =>
        if JSNumber.eqb (ProgressTransform.updateInterval self) 0
           || JSNumber.geb (bytesSinceLastEmit self c)
                           (ProgressTransform.updateInterval self)
        then (ProgressTransform.mkStep
                (ProgressTransform.mk (ProgressTransform.tracker self)
                   (ProgressTransform.updateInterval self) count count)
                [value] (ProgressTransform.CbOk (Some c)), w1)
        else (ProgressTransform.mkStep counted []
                (ProgressTransform.CbOk (Some c)), w1)
    end.
Proof.
  unfold ProgressTransform._transform, bind, bytesSinceLastEmit. cbv zeta.
  cbn [ProgressTransform.tracker ProgressTransform.updateInterval
       ProgressTransform.lastEmittedBytes].
  destruct (ProgressTracker.update _ _ None w) as [[v|e] w1]; [|reflexivity].
  destruct (_ || _); reflexivity.
Qed.

Lemma transform_emitted self c w :
  ProgressTransform.emitted (fst (ProgressTransform._transform self c w))
  = match fst (ProgressTracker.update (ProgressTransform.tracker self)
                 (JSNumber.add (ProgressTransform.bytesProcessed self)
                               (ProgressTransform.chunkSize c))
                 None w) with
    | Ok value =>
        if JSNumber.eqb (ProgressTransform.updateInterval self) 0
           || JSNumber.geb (bytesSinceLastEmit self c)
                           (ProgressTransform.updateInterval self)
        then [value] else []
    | Err _ => []
    end.
Proof.
  rewrite transform_spec. cbv zeta.
  destruct (ProgressTracker.update _ _ None w) as [[v|e] w1]; simpl; [|reflexivity].
  destruct (_ || _); reflexivity.
Qed.

Lemma run_nil self w :
  ProgressTransform.run self [] w
  = let (s, w1) := ProgressTransform._flush self w in
    (ProgressTransform.mkRun (ProgressTransform.self' s) (ProgressTransform.emitted s) []
       (match ProgressTransform.called s with
        | ProgressTransform.CbError e => Some e
        | ProgressTransform.CbOk _ => None
        end), w1).
Proof. reflexivity. Qed.

Lemma run_cons self c rest w :
  ProgressTransform.run self (c :: rest) w
  = let (s, w1) := ProgressTransform._transform self c w in
    match ProgressTransform.called s with
    | ProgressTransform.CbError e =>
        (ProgressTransform.mkRun (ProgressTransform.self' s)
           (ProgressTransform.emitted s) [] (Some e), w1)
    | ProgressTransform.CbOk pushed =>
        let (r, w2) := ProgressTransform.run (ProgressTransform.self' s) rest w1 in
        (ProgressTransform.mkRun (ProgressTransform.final r)
           (ProgressTransform.emitted s ++ ProgressTransform.events r)
           (ProgressTransform.readable_push pushed (ProgressTransform.output r))
           (ProgressTransform.failure r), w2)
    end.
Proof.
  simpl. unfold bind at 1.
  destruct (ProgressTransform._transform self c w) as [s w1].
  destruct (ProgressTransform.called s); [reflexivity|].
  unfold bind. destruct (ProgressTransform.run _ rest w1); reflexivity.
Qed.

(** A run that did not fail ends with the notification of [_flush]. *)
Lemma run_final_event chunks :
  forall self w,
    ProgressTransform.failure (fst (ProgressTransform.run self chunks w)) = None ->
    exists self1 w1 value,
      fst (ProgressTracker.done (ProgressTransform.tracker self1) None w1) = Ok value
      /\ final_event (fst (ProgressTransform.run self chunks w)) = Some value.
Proof.
  induction chunks as [|c rest IH]; intros self w.
  - rewrite run_nil. unfold ProgressTransform._flush, bind.
    destruct (ProgressTracker.done (ProgressTransform.tracker self) None w)
      as [[v|e] w1] eqn:Hd; simpl; [|discriminate].
    intros _. exists self, w, v. rewrite Hd. auto.
  - rewrite run_cons.
    destruct (ProgressTransform._transform self c w) as [s w1].
    destruct (ProgressTransform.called s) as [e|pushed]; simpl; [discriminate|].
    specialize (IH (ProgressTransform.self' s) w1).
    destruct (ProgressTransform.run (ProgressTransform.self' s) rest w1)
      as [r w2] eqn:Hr. simpl in *.
    intros Hf. destruct (IH Hf) as (self1 & w1' & v & Hd & Hl).
    exists self1, w1', v. split; [exact Hd|].
    unfold final_event in *. simpl.
    rewrite last_app, Hl. reflexivity.
Qed.

(** The counters within the range of exact integers: the throttle of
    [_transform] is the throttle of [due]. *)
Lemma transform_due self c (i b l : Z) :
  ProgressTransform.updateInterval self = Int i ->
  ProgressTransform.bytesProcessed self = Int b ->
  ProgressTransform.lastEmittedBytes self = Int l ->
  0 <= l <= b -> b + ProgressTransform.chunkSize c <= 2 ^ 53 ->
  JSNumber.add (ProgressTransform.bytesProcessed self) (ProgressTransform.chunkSize c)
  = Int (b + ProgressTransform.chunkSize c)
  /\ JSNumber.eqb (ProgressTransform.updateInterval self) 0
     || JSNumber.geb (bytesSinceLastEmit self c) (ProgressTransform.updateInterval self)
     = (i =? 0) || (i <=? (b - l) + ProgressTransform.chunkSize c).
Proof.
  intros Hi Hb Hl Hlb Hsafe.
  assert (Hn : 0 <= ProgressTransform.chunkSize c)
    by (unfold ProgressTransform.chunkSize; lia).
  unfold bytesSinceLastEmit. rewrite Hi, Hb, Hl.
  unfold JSNumber.sub, JSNumber.add, JSNumber.opp.
  rewrite JSNumberFacts.round_exact by lia.
  rewrite JSNumberFacts.round_exact by lia.
  split; [reflexivity|]. simpl. unfold JSNumber.geb. simpl.
  replace (b + ProgressTransform.chunkSize c + - l)
    with (b - l + ProgressTransform.chunkSize c) by lia.
  reflexivity.
Qed.

(** Along a run that does not fail, with counters in the range of exact
    integers, the notifications are those that are due, and one more at the
    end. *)
Lemma run_notifies_when_due chunks :
  forall self w (i b l : Z),
    ProgressTransform.updateInterval self = Int i ->
    ProgressTransform.bytesProcessed self = Int b ->
    ProgressTransform.lastEmittedBytes self = Int l ->
    0 <= l <= b -> b + total_size chunks <= 2 ^ 53 ->
    ProgressTransform.failure (fst (ProgressTransform.run self chunks w)) = None ->
    length (ProgressTransform.events (fst (ProgressTransform.run self chunks w)))
    = (count_due i (b - l) (map ProgressTransform.chunkSize chunks) + 1)%nat.
Proof.
  induction chunks as [|c rest IH]; intros self w i b l Hi Hb Hl Hlb Hsafe.
  - rewrite run_nil. unfold ProgressTransform._flush, bind.
    destruct (ProgressTracker.done _ None w) as [[v|e] w1]; simpl;
      [reflexivity|discriminate].
  - assert (Hn : 0 <= ProgressTransform.chunkSize c)
      by (unfold ProgressTransform.chunkSize; lia).
    assert (Hrest : 0 <= total_size rest).
    { clear. induction rest as [|c' rest IH]; simpl; [lia|].
      unfold ProgressTransform.chunkSize. lia. }
    simpl in Hsafe.
    destruct (transform_due self c i b l Hi Hb Hl Hlb ltac:(lia)) as [Hcount Hcond].
    rewrite run_cons, transform_spec. cbv zeta. rewrite Hcount, Hcond.
    destruct (ProgressTracker.update _ _ None w) as [[v|e] w1]; [|discriminate].
    unfold count_due. cbn [map due].
    destruct ((i =? 0) || (i <=? b - l + ProgressTransform.chunkSize c)).
    + cbn [ProgressTransform.called ProgressTransform.self' ProgressTransform.emitted].
      specialize (IH (ProgressTransform.mk (ProgressTransform.tracker self)
                        (ProgressTransform.updateInterval self)
                        (Int (b + ProgressTransform.chunkSize c))
                        (Int (b + ProgressTransform.chunkSize c)))
                     w1 i (b + ProgressTransform.chunkSize c)
                     (b + ProgressTransform.chunkSize c) Hi eq_refl eq_refl
                     ltac:(lia) ltac:(lia)).
      destruct (ProgressTransform.run _ rest w1) as [r w2]. simpl in *.
      intros Hf. rewrite (IH Hf). unfold count_due.
      replace (b + ProgressTransform.chunkSize c - (b + ProgressTransform.chunkSize c))
        with 0 by lia.
      reflexivity.
    + cbn [ProgressTransform.called ProgressTransform.self' ProgressTransform.emitted].
      specialize (IH (ProgressTransform.mk (ProgressTransform.tracker self)
                        (ProgressTransform.updateInterval self)
                        (Int (b + ProgressTransform.chunkSize c))
                        (ProgressTransform.lastEmittedBytes self))
                     w1 i (b + ProgressTransform.chunkSize c) l Hi eq_refl Hl
                     ltac:(lia) ltac:(lia)).
      destruct (ProgressTransform.run _ rest w1) as [r w2]. simpl in *.
      intros Hf. rewrite (IH Hf). unfold count_due.
      replace (b + ProgressTransform.chunkSize c - l)
        with (b - l + ProgressTransform.chunkSize c) by lia.
      reflexivity.
Qed.

(** C8 (amended).  On a chunk the adapter adds the size of the chunk to its
    byte count and emits a notification exactly when the tracker accepted
    the new count and the threshold is 0 or the bytes received since the
    last notification have reached it (are greater than or equal to it); it
    then emits the state the tracker returned, once, and records the count
    as the count of the last notification; otherwise that record stays as
    it is.  At the end of the stream it calls [done()] on the tracker and,
    whenever that call succeeds, emits exactly one notification whatever the
    threshold and the byte counters are; a run that ends without error
    therefore closes with a notification that has [complete = true],
    [percentage = 100] and [current = total], and, with counters in the
    range of exact integers, has notified on the chunks on which a
    notification was due and on no other. *)
Theorem C8_notifications :
  forall self w,
    (forall c,
       let s := fst (ProgressTransform._transform self c w) in
       let count :=
         JSNumber.add (ProgressTransform.bytesProcessed self)
                      (ProgressTransform.chunkSize c) in
       let updated :=
         fst (ProgressTracker.update (ProgressTransform.tracker self) count None w) in
       (ProgressTransform.emitted s <> []
        <-> is_ok updated = true
            /\ (JSNumber.eqb (ProgressTransform.updateInterval self) 0 = true
                \/ JSNumber.geb (bytesSinceLastEmit self c)
                                (ProgressTransform.updateInterval self) = true))
       /\ (ProgressTransform.emitted s <> [] ->
           updated = Ok (hd [] (ProgressTransform.emitted s))
           /\ length (ProgressTransform.emitted s) = 1%nat)
       /\ ProgressTransform.bytesProcessed (ProgressTransform.self' s) = count
       /\ ProgressTransform.lastEmittedBytes (ProgressTransform.self' s)
          = match ProgressTransform.emitted s with
            | [] => ProgressTransform.lastEmittedBytes self
            | _ :: _ => count
            end
       /\ ProgressTransform.updateInterval (ProgressTransform.self' s)
          = ProgressTransform.updateInterval self
       /\ ProgressTransform.tracker (ProgressTransform.self' s)
          = ProgressTransform.tracker self)
    /\ (forall updateInterval bytesProcessed lastEmittedBytes,
          let finished :=
            fst (ProgressTracker.done (ProgressTransform.tracker self) None w) in
          let flushed :=
            fst (ProgressTransform._flush
                   (ProgressTransform.mk (ProgressTransform.tracker self)
                      updateInterval bytesProcessed lastEmittedBytes) w) in
          ProgressTransform.emitted flushed
          = match finished with Ok value => [value] | Err _ => [] end
          /\ ProgressTransform.self' flushed
             = ProgressTransform.mk (ProgressTransform.tracker self)
                 updateInterval bytesProcessed lastEmittedBytes)
    /\ (forall chunks,
          ProgressTransform.failure (fst (ProgressTransform.run self chunks w)) = None ->
          (exists value t,
             final_event (fst (ProgressTransform.run self chunks w)) = Some value
             /\ get_field "complete" value = Some (JBool true)
             /\ get_field "percentage" value = Some (JNum 100)
             /\ get_field "total" value = Some (JNum t)
             /\ get_field "current" value = Some (JNum t))
          /\ (forall i b l : Z,
                ProgressTransform.updateInterval self = Int i ->
                ProgressTransform.bytesProcessed self = Int b ->
                ProgressTransform.lastEmittedBytes self = Int l ->
                0 <= l <= b -> b + total_size chunks <= 2 ^ 53 ->
                length (ProgressTransform.events
                          (fst (ProgressTransform.run self chunks w)))
                = (count_due i (b - l) (map ProgressTransform.chunkSize chunks)
                   + 1)%nat)).
Proof.
  intros self w. split; [|split].
  - intros c s count updated. subst s count updated.
    rewrite transform_emitted, transform_spec. cbv zeta.
    destruct (ProgressTracker.update _ _ None w) as [[v|e] w1]; cbn [fst is_ok].
    + destruct (_ || _) eqn:Hcond;
        cbn [ProgressTransform.self' ProgressTransform.bytesProcessed
             ProgressTransform.lastEmittedBytes ProgressTransform.updateInterval
             ProgressTransform.tracker].
      * apply orb_true_iff in Hcond.
        repeat split; auto; discriminate.
      * apply orb_false_iff in Hcond as [H0 H1].
        repeat split; auto; try congruence.
        intros [_ [H|H]]; congruence.
    + cbn [ProgressTransform.self' ProgressTransform.bytesProcessed
           ProgressTransform.lastEmittedBytes ProgressTransform.updateInterval
           ProgressTransform.tracker].
      repeat split; auto; try congruence. intros [? _]; discriminate.
  - intros i b l finished flushed. subst finished flushed.
    rewrite flush_emitted. split; [reflexivity|].
    unfold ProgressTransform._flush, bind. cbn [ProgressTransform.tracker].
    destruct (ProgressTracker.done _ None w) as [[v|e] w1]; reflexivity.
  - intros chunks Hf. split.
    + destruct (run_final_event chunks self w Hf) as (self1 & w1 & v & Hd & Hl).
      unfold ProgressTracker.done in Hd.
      destruct (finish None (ProgressTracker.config (ProgressTransform.tracker self1)) w1)
        as [r w2] eqn:Hfin.
      simpl in Hd. subst r.
      destruct (finish_ok_fields _ _ _ _ _ Hfin) as (Hc & Hp & t & Ht & Hcur).
      exists v, t. auto.
    + intros i b l Hi Hb Hl Hlb Hsafe.
      now apply run_notifies_when_due.
Qed.

(** On a tracker of 100 bytes, with nothing notified yet and no error, a run
    over two chunks of ten bytes ends with the completed state. *)
Lemma C8_witness :
  ProgressTransform.failure
    (fst (ProgressTransform.run (job_stream 0) [ten_bytes; ten_bytes]
            (world_with job_path job_created 3000))) = None
  /\ exists value t,
       final_event
         (fst (ProgressTransform.run (job_stream 0) [ten_bytes; ten_bytes]
                 (world_with job_path job_created 3000))) = Some value
       /\ get_field "complete" value = Some (JBool true)
       /\ get_field "percentage" value = Some (JNum 100)
       /\ get_field "total" value = Some (JNum t)
       /\ get_field "current" value = Some (JNum t).
Proof.
  assert (Hf : ProgressTransform.failure
                 (fst (ProgressTransform.run (job_stream 0) [ten_bytes; ten_bytes]
                         (world_with job_path job_created 3000))) = None)
    by reflexivity.
  split; [exact Hf|].
  exact (proj1 (proj2 (proj2 (C8_notifications (job_stream 0)
                                (world_with job_path job_created 3000)))
                  [ten_bytes; ten_bytes] Hf)).
Defined.

(** C8 as stated fails.  With a threshold of 10 bytes, a first chunk of
    exactly 10 bytes is notified although the bytes received since the last
    notification (10) do not exceed the threshold.  And at the end of a
    stream whose tracker file has been removed, [done()] fails and no
    notification is emitted. *)
Lemma C8_counterexample :
  ProgressTransform.emitted
    (fst (ProgressTransform._transform (job_stream 10) ten_bytes
            (world_with job_path job_created 3000)))
  = [ state_object
        {| total := 100; current := 10; message := "copying"; percentage := 10;
           startTime := 1000; updatedTime := 3000; complete := false |} ]
  /\ ProgressTransform.updateInterval (job_stream 10) = 10
  /\ bytesSinceLastEmit (job_stream 10) ten_bytes = 10
  /\ (10 <? 10) = false
  /\ ProgressTransform.emitted
       (fst (ProgressTransform._flush (job_stream 10) (fresh_world 3000))) = [].
Proof. repeat split; reflexivity. Qed.

(* ================================================================= *)
(** ** The group registry *)

(** Calls leave the set of read-only paths and the clock alone. *)
Definition same_env (w w' : World) : Prop :=
  readonly w' = readonly w /\ clock w' = clock w /\ entropy w' = entropy w.

Lemma same_env_refl w : same_env w w.
Proof. repeat split. Qed.

Lemma same_env_trans w1 w2 w3 : same_env w1 w2 -> same_env w2 w3 -> same_env w1 w3.
Proof. unfold same_env. intros (? & ? & ?) (? & ? & ?). repeat split; congruence. Qed.

Lemma readProgress_env path w r w' :
  readProgress path w = (r, w') -> same_env w w' /\ files w' = files w.
Proof.
  unfold readProgress, bind, existsSync, readFileSync, ret.
  destruct (bool_decide _); simpl; intros Heq; inversion Heq; subst;
    repeat split; reflexivity.
Qed.

Lemma writeProgressAtomic_env path state w r w' :
  writeProgressAtomic path state w = (r, w') -> same_env w w'.
Proof.
  unfold writeProgressAtomic, bind, randomHex, writeTempAndRename, ret.
  case_bool_decide; intros Heq; inversion Heq; subst; repeat split; reflexivity.
Qed.

Lemma mutate_env config f w r w' : mutate config f w = (r, w') -> same_env w w'.
Proof.
  unfold mutate.
  destruct (getProgressFilePath config) as [path|e0];
    [|intros Heq; inversion Heq; subst; apply same_env_refl].
  unfold bind at 1.
  destruct (readProgress path w) as [[state|e0] w1] eqn:Hr;
    apply readProgress_env in Hr as [He _];
    [|intros Heq; inversion Heq; subst; exact He].
  unfold bind, Date_now.
  destruct (writeProgressAtomic path _ w1) as [[[]|e0] w2] eqn:Hw;
    apply writeProgressAtomic_env in Hw;
    intros Heq; inversion Heq; subst; eapply same_env_trans; eauto.
Qed.

Lemma get_env tracker w r w' :
  ProgressTracker.get tracker w = (r, w') -> same_env w w' /\ files w' = files w.
Proof.
  unfold ProgressTracker.get, get.
  destruct (getProgressFilePath _) as [path|e0];
    [apply readProgress_env|].
  intros Heq; inversion Heq; subst. split; [apply same_env_refl|reflexivity].
Qed.

Lemma clear_env tracker w r w' :
  ProgressTracker.clear tracker w = (r, w') -> same_env w w'.
Proof.
  unfold ProgressTracker.clear, clear.
  destruct (getProgressFilePath _) as [path|e0];
    [|intros Heq; inversion Heq; subst; apply same_env_refl].
  unfold bind, existsSync, unlinkSync, ret.
  destruct (bool_decide (is_Some _)); simpl.
  - case_bool_decide; [intros Heq; inversion Heq; subst; repeat split; reflexivity|].
    destruct (files _ !! path); intros Heq; inversion Heq; subst;
      repeat split; reflexivity.
  - intros Heq; inversion Heq; subst. repeat split; reflexivity.
Qed.

Lemma done_all_env ts : forall w, same_env w (snd (MultiProgress.done_all ts w)).
Proof.
  induction ts as [|[i tracker] ts IH]; intros w; simpl; [apply same_env_refl|].
  unfold bind.
  destruct (ProgressTracker.done tracker None w) as [r w1] eqn:Hd.
  unfold ProgressTracker.done in Hd. rewrite finish_mutate in Hd.
  apply mutate_env in Hd. eapply same_env_trans; [exact Hd|apply IH].
Qed.

Lemma mirror_all_env ts :
  forall value w,
    same_env w (snd (MultiProgress.mirror_all ts value w))
    /\ files (snd (MultiProgress.mirror_all ts value w)) = files w.
Proof.
  induction ts as [|[i tracker] ts IH]; intros value w; simpl.
  - split; [apply same_env_refl|reflexivity].
  - unfold bind.
    destruct (ProgressTracker.get tracker w) as [r w1] eqn:Hg.
    apply get_env in Hg as [He Hf].
    destruct r as [st|e].
    + destruct (MultiProgress.assign_in "trackers" i (JObj st) value) as [value'|].
      * destruct (IH value' w1) as [He' Hf'].
        split; [eapply same_env_trans; eauto|congruence].
      * simpl. auto.
    + destruct (IH value w1) as [He' Hf'].
      split; [eapply same_env_trans; eauto|congruence].
Qed.

Lemma readState_env self w r w' :
  MultiProgress.readState self w = (r, w') -> same_env w w' /\ files w' = files w.
Proof.
  unfold MultiProgress.readState, bind, existsSync, readFileSync, ret.
  destruct (bool_decide _); simpl; intros Heq; inversion Heq; subst;
    repeat split; reflexivity.
Qed.


Lemma readState_doc self w j :
  files w !! MultiProgress.filePath self = Some (Doc j) ->
  MultiProgress.readState self w
  = (Ok (as_parsed j), after_read (MultiProgress.filePath self) w).
Proof.
  intros H. unfold MultiProgress.readState, bind, existsSync, readFileSync, ret.
  rewrite bool_decide_eq_true_2 by (rewrite H; eauto).
  simpl. now rewrite H.
Qed.


(** [sync] only reads when the instance knows every member of the
    aggregate: no file changes, no handle is added, and [status()] returns
    afterwards what it returned before. *)
Lemma sync_entries_known es :
  forall self w,
    Forall (fun e => is_Some (get_field (fst e) (MultiProgress.trackers self))) es ->
    MultiProgress.sync_entries self es w = ((Some (Returned tt), self), w).
Proof.
  induction es as [|[i v] es IH]; intros self w Hk; [reflexivity|].
  inversion Hk as [|? ? [tr Htr] Hk']; subst. simpl in Htr. simpl.
  rewrite Htr. now apply IH.
Qed.

Lemma readState_files self w w' :
  files w = files w' ->
  fst (MultiProgress.readState self w) = fst (MultiProgress.readState self w').
Proof.
  intros Hf. unfold MultiProgress.readState, bind, existsSync, readFileSync, ret.
  rewrite Hf. destruct (bool_decide _); simpl; [|reflexivity].
  now rewrite Hf.
Qed.

Lemma sync_reads_only self w value :
  fst (MultiProgress.readState self w) = Ok value ->
  knows_all self value ->
  fst (MultiProgress.sync self w) = (Some (Returned (Ok tt)), self)
  /\ files (snd (MultiProgress.sync self w)) = files w
  /\ fst (MultiProgress.status self (snd (MultiProgress.sync self w)))
     = fst (MultiProgress.status self w).
Proof.
  intros Hr (es & He & Hk). unfold MultiProgress.sync, bind.
  destruct (MultiProgress.readState self w) as [r w1] eqn:Hrs.
  simpl in Hr. subst r. rewrite He.
  rewrite (sync_entries_known es self w1 Hk). simpl.
  pose proof Hrs as Hrs'. apply readState_env in Hrs' as [_ Hf].
  split; [reflexivity|]. split; [exact Hf|].
  unfold MultiProgress.status. now apply readState_files.
Qed.






Lemma add_member_id self config w :
  MultiProgress.add self config w
  = (let trackerId := member_id config w in
     let* created := ProgressTracker.new (member_config self config w) in
     match created with
     | Threw e => ret (Threw e, self)
     | Returned tracker =>
         let self := MultiProgress.with_trackers self
                       (set_field trackerId tracker (MultiProgress.trackers self)) in
         let* stateResult := MultiProgress.readState self in
         match stateResult with
         | Ok value =>
             let* trackerState := ProgressTracker.get tracker in
             match trackerState with
             | Ok ts =>
                 match MultiProgress.assign_in "trackers" trackerId (JObj ts) value with
                 | None => ret (Threw MultiProgress.TypeError, self)
                 | Some value =>
                     let* written := MultiProgress.touch_and_write self value in
                     ret (match written with
                          | Returned _ => Returned tracker
                          | Threw e => Threw e
                          end, self)
                 end
             | Err _ => ret (Returned tracker, self)
             end
         | Err _ => ret (Returned tracker, self)
         end
     end) w.
Proof.
  unfold MultiProgress.add, member_config, member_id.
  destruct (truthy (mc_trackerId config)); reflexivity.
Qed.

(** [add] validates the member identifier through the tracker it constructs:
    when [validateId] rejects the identifier made of the group's and the
    member's, [add] throws before any file is touched and the registry does
    not keep the member. *)
Lemma add_rejects_invalid_member_id self config w e :
  JSNumber.ltb 0 (mc_total config) = true ->
  validateId (MultiProgress.id self +:+ "-" +:+ member_id config w) = Err e ->
  MultiProgress.add self config w
  = ((Threw ("Failed to initialize progress tracker: " +:+ e), self), w).
Proof.
  intros Ht He. rewrite add_member_id. cbv zeta. unfold bind.
  unfold ProgressTracker.new, ProgressTracker.construct, member_config, bind.
  cbn [tc_total tc_message tc_id tc_filePath].
  unfold init_with. apply JSNumberFacts.positive_total in Ht. rewrite Ht.
  unfold bind, Date_now, getProgressFilePath. simpl.
  assert (Hne : (MultiProgress.id self +:+ "-" +:+ member_id config w)%string
                <> EmptyString).
  { destruct (MultiProgress.id self); discriminate. }
  unfold or_default.
  destruct (MultiProgress.id self +:+ "-" +:+ member_id config w)%string
    as [|a s] eqn:Hs; [congruence|].
  simpl. rewrite He. reflexivity.
Qed.






(** *** The staleness scenario, call by call *)

Lemma or_default_Some s d : s <> EmptyString -> or_default (Some s) d = s.
Proof. destruct s; [congruence|reflexivity]. Qed.

Lemma truthy_nonempty s : s <> EmptyString -> truthy (Some s) = Some s.
Proof. destruct s; [congruence|reflexivity]. Qed.

Lemma append_nonempty s t : s <> EmptyString -> (s +:+ t)%string <> EmptyString.
Proof. destruct s; [congruence|discriminate]. Qed.

Lemma member_file_path groupId trackerId :
  groupId <> EmptyString ->
  validateId (groupId +:+ "-" +:+ trackerId) = Ok (groupId +:+ "-" +:+ trackerId) ->
  getProgressFilePath (mkConfig (Some (groupId +:+ "-" +:+ trackerId)) None)
  = Ok (member_path groupId trackerId).
Proof.
  intros Hg Hid. unfold getProgressFilePath. simpl.
  rewrite or_default_Some by now apply append_nonempty.
  rewrite Hid. reflexivity.
Qed.

Lemma init_run (t : Z) message config path w :
  0 < t ->
  getProgressFilePath config = Ok path ->
  (path ∉ readonly w) ->
  init t message config w
  = (Ok (state_object
           {| total := t; current := 0; message := message; percentage := 0;
              startTime := clock w; updatedTime := clock w; complete := false |}),
     after_write path
       (Doc (JObj (state_object
          {| total := t; current := 0; message := message; percentage := 0;
             startTime := clock w; updatedTime := clock w; complete := false |}))) w).
Proof.
  intros Ht Hp Hw. unfold init.
  rewrite (init_with_run t _ config path w); auto.
  simpl. now apply Z.ltb_lt.
Qed.

Lemma writeState_ok self value w :
  (MultiProgress.filePath self ∉ readonly w) ->
  MultiProgress.writeState self value w
  = (Returned tt, after_write (MultiProgress.filePath self) (Doc value) w).
Proof.
  intros H. unfold MultiProgress.writeState, bind, randomHex, writeTempAndRename, ret.
  now rewrite bool_decide_eq_false_2.
Qed.

Lemma get_stored tracker path state w :
  getProgressFilePath (ProgressTracker.config tracker) = Ok path ->
  stored w path state ->
  ProgressTracker.get tracker w = (Ok state, after_read path w).
Proof.
  intros Hp Hs. unfold ProgressTracker.get, get. rewrite Hp.
  now apply readProgress_stored.
Qed.

(** C4 fails for a member named [__proto__], an identifier that
    [validateId] accepts.  The mirror update
    [stateResult.value.trackers[trackerId] = trackerState.value] then
    reaches the setter of [Object.prototype]: the parsed aggregate gets no
    property, and [JSON.stringify] writes it without the member.  In the
    group "build" the member is added, incremented by 5 through its handle
    and completed by [done()]; its own file follows, but [status()] never
    lists it: there is no snapshot of the member before the increment, and
    none with [complete = true] and [current = total] after [done()].  The
    same calls with the member "compile" go as the claim says; [sync()]
    leaves the snapshot as it is in both. *)
Theorem C4_member_named_proto_is_never_mirrored :
  validateId "build-__proto__" = Ok "build-__proto__"%string
  /\ (exists seen,
        staleness_scenario "build" "__proto__" 100 "compiling" (Some 5) None
          10 10 10 10 10 (fresh_world 1000) = Some seen
        /\ status_after_add seen = Ok (aggregate [] 1000 1010)
        /\ snapshot "__proto__" (status_after_increment seen) = None
        /\ result_field "current" (member_after_increment seen) = Some (JNum 5)
        /\ sync_result seen = Some (Returned (Ok tt))
        /\ snapshot "__proto__" (status_after_sync seen) = None
        /\ status_after_done seen = Ok (aggregate [] 1000 1050)
        /\ result_field "complete" (member_after_done seen) = Some (JBool true)
        /\ result_field "current" (member_after_done seen) = Some (JNum 100))
  /\ (exists seen,
        staleness_scenario "build" "compile" 100 "compiling" (Some 5) None
          10 10 10 10 10 (fresh_world 1000) = Some seen
        /\ snapshot "compile" (status_after_add seen)
           = Some (JObj (state_object
                {| total := 100; current := 0; message := "compiling"; percentage := 0;
                   startTime := 1010; updatedTime := 1010; complete := false |}))
        /\ snapshot "compile" (status_after_increment seen)
           = snapshot "compile" (status_after_add seen)
        /\ result_field "current" (member_after_increment seen) = Some (JNum 5)
        /\ sync_result seen = Some (Returned (Ok tt))
        /\ snapshot "compile" (status_after_sync seen)
           = snapshot "compile" (status_after_add seen)
        /\ snapshot "compile" (status_after_done seen)
           = Some (JObj (state_object
                {| total := 100; current := 100; message := "compiling";
                   percentage := 100; startTime := 1010; updatedTime := 1050;
                   complete := true |}))).
Proof.
  split; [reflexivity|]. split.
  - eexists. split; [vm_compute; reflexivity|]. repeat split; reflexivity.
  - eexists. split; [vm_compute; reflexivity|]. repeat split; reflexivity.
Qed.

(** A member whose file is the aggregate file: in the group "multi" the
    member "multi" is stored at the path of the aggregate itself. *)
Example member_and_aggregate_can_share_a_file :
  member_path "multi" "multi" = group_path "multi".
Proof. reflexivity. Qed.

(* ================================================================= *)
(** ** More about the single tracker *)

Lemma readProgress_files path w w' :
  files w = files w' -> fst (readProgress path w) = fst (readProgress path w').
Proof.
  intros H. unfold readProgress, bind, existsSync, readFileSync, ret.
  rewrite H. destruct (bool_decide _); simpl; [|reflexivity].
  now rewrite H.
Qed.

Lemma get_files config w w' :
  files w = files w' -> fst (get config w) = fst (get config w').
Proof.
  intros H. unfold get. destruct (getProgressFilePath config); [|reflexivity].
  now apply readProgress_files.
Qed.

Lemma get_frame config w :
  files (snd (get config w)) = files w
  /\ readonly (snd (get config w)) = readonly w
  /\ clock (snd (get config w)) = clock w.
Proof.
  unfold get. destruct (getProgressFilePath config) as [path|e]; [|now simpl].
  destruct (readProgress path w) as [r w'] eqn:Hr.
  apply readProgress_log in Hr. simpl. tauto.
Qed.

(** X1.  [get] only reads: it leaves every file, the set of read-only paths
    and the clock as they were, and asking again gives the same answer. *)
Theorem get_only_reads :
  forall config w,
    files (snd (get config w)) = files w
    /\ readonly (snd (get config w)) = readonly w
    /\ clock (snd (get config w)) = clock w
    /\ fst (get config (snd (get config w))) = fst (get config w).
Proof.
  intros config w. destruct (get_frame config w) as (Hf & Hr & Hc).
  repeat split; auto. now apply get_files.
Qed.

Lemma clear_run config path w :
  getProgressFilePath config = Ok path ->
  clear config w
  = match files w !! path with
    | None => (Ok tt, record_event (EExists path) w)
    | Some _ =>
        if bool_decide (path ∈ readonly w)
        then (Err "Failed to clear progress: permission denied",
              record_event (EUnlink path) (record_event (EExists path) w))
        else (Ok tt,
              with_files (delete path (files w))
                (record_event (EUnlink path) (record_event (EExists path) w)))
    end.
Proof.
  intros Hp. unfold clear. rewrite Hp. unfold bind, existsSync, unlinkSync, ret.
  destruct (files w !! path) as [c|] eqn:Hf.
  - rewrite bool_decide_eq_true_2 by eauto. simpl. rewrite Hf.
    destruct (bool_decide (path ∈ readonly w)); reflexivity.
  - rewrite bool_decide_eq_false_2; [reflexivity|].
    intros [x Hx]. discriminate.
Qed.

Lemma clear_path config w :
  fst (clear config w) = Ok tt -> exists path, getProgressFilePath config = Ok path.
Proof.
  unfold clear. destruct (getProgressFilePath config) as [path|e]; [eauto|].
  simpl. discriminate.
Qed.

(** X2.  When [clear] succeeds the progress file is gone and no other file
    has changed; [get] then reports that the file does not exist, and a
    second [clear] succeeds without changing anything. *)
Theorem clear_removes_the_file :
  forall config w,
    fst (clear config w) = Ok tt ->
    exists path,
      getProgressFilePath config = Ok path
      /\ files (snd (clear config w)) = delete path (files w)
      /\ fst (get config (snd (clear config w))) = Err "Progress file does not exist"
      /\ fst (clear config (snd (clear config w))) = Ok tt
      /\ files (snd (clear config (snd (clear config w)))) = files (snd (clear config w)).
Proof.
  intros config w Hok. destruct (clear_path _ _ Hok) as [path Hp].
  exists path. split; [exact Hp|].
  assert (Hfiles : files (snd (clear config w)) = delete path (files w)).
  { revert Hok. rewrite (clear_run _ _ _ Hp).
    destruct (files w !! path) eqn:Hf.
    - destruct (bool_decide _); simpl; [discriminate|reflexivity].
    - simpl. intros _. symmetry. now apply delete_id. }
  assert (Hnone : files (snd (clear config w)) !! path = None).
  { rewrite Hfiles. apply lookup_delete_eq. }
  split; [exact Hfiles|]. split.
  - unfold get. rewrite Hp. unfold readProgress, bind, existsSync, ret.
    rewrite bool_decide_eq_false_2; [reflexivity|].
    rewrite Hnone. intros [x Hx]. discriminate.
  - rewrite (clear_run _ _ _ Hp), Hnone. simpl. auto.
Qed.

Lemma clear_removes_the_file_witness :
  fst (clear job (world_with job_path job_running 3000)) = Ok tt
  /\ exists path,
       getProgressFilePath job = Ok path
       /\ files (snd (clear job (world_with job_path job_running 3000)))
          = delete path (files (world_with job_path job_running 3000))
       /\ fst (get job (snd (clear job (world_with job_path job_running 3000))))
          = Err "Progress file does not exist"
       /\ fst (clear job (snd (clear job (world_with job_path job_running 3000)))) = Ok tt
       /\ files (snd (clear job (snd (clear job (world_with job_path job_running 3000)))))
          = files (snd (clear job (world_with job_path job_running 3000))).
Proof.
  split; [reflexivity|].
  apply (clear_removes_the_file job (world_with job_path job_running 3000)).
  reflexivity.
Defined.

Lemma get_after_write config path state w :
  getProgressFilePath config = Ok path ->
  parsed_value (JObj state) ->
  is_number (get_field "total" state) = true ->
  is_number (get_field "current" state) = true ->
  fst (get config (after_write path (Doc (JObj state)) w)) = Ok state.
Proof.
  intros Hp Hv Ht Hc. unfold get. rewrite Hp.
  now rewrite (readProgress_stored _ _ _ (stored_after_write w path state Hv Ht Hc)).
Qed.

Lemma increment_state_fields a message now state :
  let state' := increment_state a message now state in
  let c' := JSNumber.min (JSNumber.add (number_field "current" state) a)
                         (number_field "total" state) in
  get_field "total" state' = get_field "total" state
  /\ get_field "current" state' = Some (json_of_number c')
  /\ get_field "percentage" state'
     = Some (json_of_number (JSNumber.percentage c' (number_field "total" state)))
  /\ get_field "startTime" state' = get_field "startTime" state
  /\ get_field "complete" state'
     = (if JSNumber.geb c' (number_field "total" state) then Some (JBool true)
        else get_field "complete" state)
  /\ get_field "message" state'
     = match truthy message with
       | Some m => Some (JStr m)
       | None => get_field "message" state
       end.
Proof.
  cbv zeta. unfold increment_state.
  match goal with
  | |- context [update_state ?c ?m ?n ?s] =>
      destruct (update_state_fields c m n s) as (H1 & H2 & H3 & _ & H5 & H6 & H7)
  end.
  auto 10.
Qed.

Lemma is_number_json_of_number n : is_number (Some (json_of_number n)) = true.
Proof. now destruct n. Qed.

(** What a mutation returns it has written; the total and the counter of
    what it returns are numbers. *)
Lemma run_mutation_written m config w state :
  fst (run_mutation m config w) = Ok state ->
  exists path,
    getProgressFilePath config = Ok path
    /\ files (snd (run_mutation m config w)) !! path = Some (Doc (JObj state))
    /\ is_number (get_field "total" state) = true
    /\ is_number (get_field "current" state) = true.
Proof.
  intros Hok.
  destruct (run_mutation m config w) as [r w'] eqn:Hrun. simpl in Hok. subst r.
  simpl. destruct (is_update m) eqn:Hu.
  - destruct (update_inv _ _ _ _ _ Hu Hrun)
      as (path & state0 & f & Hp & Hs & Hstate & -> & Hm).
    exists path. split; [exact Hp|]. split; [apply after_write_lookup|].
    destruct (stored_total _ _ _ Hs) as [Ht _].
    destruct m as [| amount message | c message | message]; try discriminate;
      [destruct Hm as [_ ->] | destruct Hm as [_ ->] | subst f]; subst state.
    + destruct (increment_state_fields (default (Int 1) amount) message (clock w) state0)
        as (H1 & H2 & _). rewrite H1, H2, Ht. split; [reflexivity|].
      apply is_number_json_of_number.
    + unfold set_state.
      match goal with
      | |- context [update_state ?c ?m ?n ?s] =>
          destruct (update_state_fields c m n s) as (H1 & H2 & _)
      end.
      rewrite H1, H2, Ht. split; [reflexivity|]. apply is_number_json_of_number.
    + destruct (finish_state_fields message (clock w) state0) as (H1 & H2 & _).
      rewrite H1, H2, Ht. split; [reflexivity|]. apply is_number_json_of_number.
  - destruct m as [t message| | |]; try discriminate. simpl in Hrun.
    destruct (init_inv _ _ _ _ _ _ Hrun) as (path & Hp & _ & -> & ->).
    exists path. split; [exact Hp|]. split; [apply after_write_lookup|].
    split; [apply is_number_json_of_number|reflexivity].
Qed.

(** What [finish] returns holds only finite numbers, and can be read
    back. *)
Lemma finish_stored message config w state :
  fst (finish message config w) = Ok state ->
  exists path,
    getProgressFilePath config = Ok path
    /\ stored (snd (finish message config w)) path state.
Proof.
  rewrite finish_mutate.
  destruct (mutate config (finish_state message) w) as [r w'] eqn:Hm.
  simpl. intros ->.
  destruct (mutate_inv _ _ _ _ _ Hm) as (path & state0 & Hp & Hs & Hro & -> & ->).
  exists path. split; [exact Hp|].
  destruct (stored_total _ _ _ Hs) as [Ht Hn].
  destruct (finish_state_fields message (clock w) state0) as (F1 & F2 & _).
  apply stored_after_write.
  - apply parsed_finish_state; [eapply stored_parsed; eauto|].
    now destruct Hs as (j & _ & _ & Hnum & _).
  - now rewrite F1, Ht.
  - now rewrite F2, Hn.
Qed.

(** X3.  What a successful [init], [increment], [set] or [finish] returns is
    what it has written.  A [get] that follows reads it back with [null] in
    the place of every number that is not finite: it returns the same state
    when all its numbers are finite, that state with [null]s when the
    total and the counter are finite, and fails otherwise. *)
Theorem get_returns_what_was_written :
  forall m config w state,
    fst (run_mutation m config w) = Ok state ->
    (exists path,
       getProgressFilePath config = Ok path
       /\ files (snd (run_mutation m config w)) !! path = Some (Doc (JObj state)))
    /\ fst (get config (snd (run_mutation m config w)))
       = (if is_number (get_field "total" (as_parsed_fields state))
             && is_number (get_field "current" (as_parsed_fields state))
          then Ok (as_parsed_fields state)
          else Err "Invalid progress file format")
    /\ (parsed_value (JObj state) ->
        fst (get config (snd (run_mutation m config w))) = Ok state).
Proof.
  intros m config w state Hok.
  destruct (run_mutation_written m config w state Hok) as (path & Hp & Hf & Ht & Hc).
  split; [eauto|].
  assert (Hget : fst (get config (snd (run_mutation m config w)))
                 = (if is_number (get_field "total" (as_parsed_fields state))
                       && is_number (get_field "current" (as_parsed_fields state))
                    then Ok (as_parsed_fields state)
                    else Err "Invalid progress file format")).
  { unfold get. rewrite Hp, (readProgress_doc _ _ _ Hf), as_parsed_obj.
    destruct (is_number (get_field "total" (as_parsed_fields state)));
      destruct (is_number (get_field "current" (as_parsed_fields state)));
      reflexivity. }
  split; [exact Hget|].
  intros Hv. rewrite Hget. apply parsed_value_obj in Hv. rewrite Hv, Ht, Hc.
  reflexivity.
Qed.

Lemma get_returns_what_was_written_witness :
  fst (run_mutation (MIncrement (Some 5) None) job (world_with job_path job_running 3000))
  = Ok (state_object
          {| total := 100; current := 45; message := "copying"; percentage := 45;
             startTime := 1000; updatedTime := 3000; complete := false |})
  /\ parsed_value
       (JObj (state_object
          {| total := 100; current := 45; message := "copying"; percentage := 45;
             startTime := 1000; updatedTime := 3000; complete := false |}))
  /\ fst (get job (snd (run_mutation (MIncrement (Some 5) None) job
                          (world_with job_path job_running 3000))))
     = Ok (state_object
             {| total := 100; current := 45; message := "copying"; percentage := 45;
                startTime := 1000; updatedTime := 3000; complete := false |}).
Proof.
  split; [reflexivity|]. split; [reflexivity|].
  apply (proj2 (proj2 (get_returns_what_was_written (MIncrement (Some 5) None) job
                         (world_with job_path job_running 3000) _ eq_refl))).
  reflexivity.
Defined.



(* ----------------------------------------------------------------- *)
(** *** Paths *)

Lemma list_ascii_app s1 s2 :
  list_ascii_of_string (s1 +:+ s2)
  = (list_ascii_of_string s1 ++ list_ascii_of_string s2)%list.
Proof.
  induction s1 as [|a s1 IH]; [reflexivity|].
  change (String a s1 +:+ s2) with (String a (s1 +:+ s2)). simpl. now rewrite IH.
Qed.

Lemma append_inj_l s1 s2 t : s1 +:+ t = s2 +:+ t -> s1 = s2.
Proof.
  intros H. apply (f_equal list_ascii_of_string) in H.
  rewrite !list_ascii_app in H. apply app_inv_tail in H.
  rewrite <- (string_of_list_ascii_of_string s1),
          <- (string_of_list_ascii_of_string s2).
  now rewrite H.
Qed.

Lemma append_inj_r s t1 t2 : s +:+ t1 = s +:+ t2 -> t1 = t2.
Proof. apply String.app_inj. Qed.

Lemma progress_file_name_inj id1 id2 :
  progress_file_name id1 = progress_file_name id2 -> id1 = id2.
Proof.
  unfold progress_file_name. intros H.
  apply append_inj_r in H. now apply append_inj_l in H.
Qed.

Lemma validateId_nonempty i : validateId i = Ok i -> i <> EmptyString.
Proof. intros H ->. discriminate. Qed.

Lemma validateId_Ok i j : validateId i = Ok j -> j = i.
Proof.
  unfold validateId. repeat (destruct (_ : bool); [discriminate|]).
  now intros [= ->].
Qed.

Lemma path_of_valid_id i :
  validateId i = Ok i ->
  getProgressFilePath (mkConfig (Some i) None) = Ok (join tmpdir (progress_file_name i)).
Proof.
  intros Hv. unfold getProgressFilePath. simpl.
  rewrite (or_default_Some i "default" (validateId_nonempty _ Hv)).
  now rewrite Hv.
Qed.

(** [join] leaves a file name without separator where it is. *)
Lemma segments_no_slash s :
  ~ In "/"%char (list_ascii_of_string s) -> segments s = [s].
Proof.
  induction s as [|a s IH]; simpl; intros Hs; [reflexivity|].
  destruct (Ascii.eqb_spec a "/") as [->|Hne]; [tauto|].
  rewrite IH by tauto. reflexivity.
Qed.

Lemma ends_with_slash_no_slash s :
  ~ In "/"%char (list_ascii_of_string s) -> ends_with_slash s = false.
Proof.
  induction s as [|a s IH]; simpl; intros Hs; [reflexivity|].
  destruct s as [|b s].
  - destruct (Ascii.eqb_spec a "/") as [->|Hne]; [tauto|reflexivity].
  - apply IH. tauto.
Qed.

Lemma append_empty_r s : s +:+ "" = s.
Proof. induction s as [|a s IH]; [reflexivity|]. simpl. unfold String.app in *. simpl. now f_equal. Qed.

Lemma join_tmpdir_plain name :
  ~ In "/"%char (list_ascii_of_string name) ->
  name <> ""%string -> name <> "."%string -> name <> ".."%string ->
  join tmpdir name = tmpdir +:+ "/" +:+ name.
Proof.
  intros Hs H0 H1 H2. unfold join, tmpdir.
  destruct (String.eqb_spec name "") as [?|_]; [contradiction|].
  cbn [String.eqb Ascii.eqb Bool.eqb].
  unfold normalize.
  change ("/tmp" +:+ "/" +:+ name) with (String "/" (String "t" (String "m" (String "p" (String "/" name))))).
  cbn [String.eqb starts_with_slash Ascii.eqb Bool.eqb negb].
  assert (Hend : ends_with_slash
                   (String "/" (String "t" (String "m" (String "p" (String "/" name)))))
                 = false).
  { destruct name as [|a name]; [contradiction|].
    simpl. apply (ends_with_slash_no_slash (String a name) Hs). }
  rewrite Hend.
  assert (Hseg : segments
                   (String "/" (String "t" (String "m" (String "p" (String "/" name)))))
                 = [""; "tmp"; name]%string).
  { simpl. rewrite (segments_no_slash name Hs). reflexivity. }
  rewrite Hseg. cbn [fold_left]. unfold resolve_segment at 3. cbn [String.eqb orb].
  unfold resolve_segment at 2. cbn [String.eqb Ascii.eqb Bool.eqb orb andb].
  unfold resolve_segment.
  destruct (String.eqb_spec name "") as [?|_]; [contradiction|].
  destruct (String.eqb_spec name ".") as [?|_]; [contradiction|].
  destruct (String.eqb_spec name "..") as [?|_]; [contradiction|].
  cbn [orb rev app String.concat].
  cbn [String.eqb Ascii.eqb Bool.eqb].
  change (("tmp" ++ "/" ++ name)%string) with (String "t" (String "m" (String "p" (String "/" name)))).
  cbn [String.eqb Ascii.eqb Bool.eqb].
  change (("/" +:+ String "t" (String "m" (String "p" (String "/" name))) +:+ ""))
    with (String "/" (String "t" (String "m" (String "p" (String "/" (name +:+ "")))))).
  now rewrite append_empty_r.
Qed.

Lemma is_id_char_not_slash a : is_id_char a = true -> a <> "/"%char.
Proof. intros H ->. discriminate. Qed.

Lemma progress_file_name_no_slash i :
  validateId i = Ok i -> ~ In "/"%char (list_ascii_of_string (progress_file_name i)).
Proof.
  intros Hv. apply validateId_spec in Hv as [_ Hchars].
  unfold progress_file_name. rewrite !list_ascii_app.
  rewrite !in_app_iff. intros [H|[H|H]].
  - simpl in H. repeat (destruct H as [H|H]; [discriminate|]). exact H.
  - apply Hchars in H. discriminate.
  - simpl in H. repeat (destruct H as [H|H]; [discriminate|]). exact H.
Qed.

(** The path of a valid identifier is the directory of the progress files
    followed by the file name. *)
Lemma join_progress_file_name i :
  validateId i = Ok i ->
  join tmpdir (progress_file_name i) = tmpdir +:+ "/" +:+ progress_file_name i.
Proof.
  intros Hv. apply join_tmpdir_plain; [now apply progress_file_name_no_slash| | |];
    discriminate.
Qed.

Lemma run_mutation_elsewhere m config w q :
  (forall path, getProgressFilePath config = Ok path -> path <> q) ->
  files (snd (run_mutation m config w)) !! q = files w !! q.
Proof.
  intros Hq. destruct (run_mutation m config w) as [[state|e] w'] eqn:Hrun.
  - destruct (is_update m) eqn:Hu.
    + destruct (update_inv _ _ _ _ _ Hu Hrun) as (path & s0 & f & Hp & _ & _ & -> & _).
      simpl. apply lookup_insert_ne. now apply Hq.
    + destruct m as [t message| | |]; try discriminate. simpl in Hrun.
      destruct (init_inv _ _ _ _ _ _ Hrun) as (path & Hp & _ & _ & ->).
      simpl. apply lookup_insert_ne. now apply Hq.
  - destruct (run_mutation_frame _ _ _ _ _ Hrun) as (_ & _ & _ & H & _). simpl.
    now rewrite (proj1 (H e eq_refl)).
Qed.

Lemma clear_elsewhere config w q :
  (forall path, getProgressFilePath config = Ok path -> path <> q) ->
  files (snd (clear config w)) !! q = files w !! q.
Proof.
  intros Hq. destruct (getProgressFilePath config) as [path|e] eqn:Hp.
  - rewrite (clear_run _ _ _ Hp). destruct (files w !! path); [|reflexivity].
    destruct (bool_decide _); simpl; [reflexivity|].
    apply lookup_delete_ne. now apply Hq.
  - unfold clear. now rewrite Hp.
Qed.

Lemma readProgress_at path w w' :
  files w !! path = files w' !! path ->
  fst (readProgress path w) = fst (readProgress path w').
Proof.
  intros H. unfold readProgress, bind, existsSync, readFileSync, ret.
  rewrite H. destruct (bool_decide _); simpl; [|reflexivity].
  now rewrite H.
Qed.

(** X5.  Trackers with different valid identifiers do not interfere: no
    [init], [increment], [set], [finish] or [clear] on one of them changes
    the file of the other, or what [get] returns for the other. *)
Theorem distinct_ids_do_not_interfere :
  forall id1 id2 w,
    validateId id1 = Ok id1 ->
    validateId id2 = Ok id2 ->
    id1 <> id2 ->
    let c1 := mkConfig (Some id1) None in
    let c2 := mkConfig (Some id2) None in
    let file2 := join tmpdir (progress_file_name id2) in
    getProgressFilePath c2 = Ok file2
    /\ (forall m,
          files (snd (run_mutation m c1 w)) !! file2 = files w !! file2
          /\ fst (get c2 (snd (run_mutation m c1 w))) = fst (get c2 w))
    /\ files (snd (clear c1 w)) !! file2 = files w !! file2
    /\ fst (get c2 (snd (clear c1 w))) = fst (get c2 w).
Proof.
  intros id1 id2 w H1 H2 Hne c1 c2 file2.
  pose proof (path_of_valid_id _ H1) as Hp1.
  pose proof (path_of_valid_id _ H2) as Hp2.
  assert (Hq : forall path, getProgressFilePath c1 = Ok path -> path <> file2).
  { intros path Hp. unfold c1 in Hp. rewrite Hp1 in Hp. injection Hp as <-.
    unfold file2. rewrite !join_progress_file_name by assumption.
    intros Heq. apply append_inj_r in Heq.
    apply append_inj_r in Heq. now apply progress_file_name_inj in Heq. }
  split; [exact Hp2|].
  assert (Hget : forall w', files w' !! file2 = files w !! file2 ->
                            fst (get c2 w') = fst (get c2 w)).
  { intros w' H. unfold get, c2. rewrite Hp2. now apply readProgress_at. }
  split; [intros m; split|split].
  - now apply run_mutation_elsewhere.
  - apply Hget. now apply run_mutation_elsewhere.
  - now apply clear_elsewhere.
  - apply Hget. now apply clear_elsewhere.
Qed.

Lemma distinct_ids_do_not_interfere_witness :
  validateId "build" = Ok "build"%string
  /\ validateId "job" = Ok "job"%string
  /\ "build"%string <> "job"%string
  /\ fst (get job (snd (run_mutation (MInit 7 "start") (mkConfig (Some "build"%string) None)
                          (world_with job_path job_running 3000))))
     = fst (get job (world_with job_path job_running 3000)).
Proof.
  split; [reflexivity|]. split; [reflexivity|]. split; [discriminate|].
  apply (distinct_ids_do_not_interfere "build" "job"
           (world_with job_path job_running 3000)
           eq_refl eq_refl ltac:(discriminate)).
Defined.

(** X6.  A valid identifier cannot leave the directory of the progress
    files: the path of the tracker is that directory followed by a file name
    which contains no path separator. *)
Theorem valid_id_stays_in_tmpdir :
  forall i,
    validateId i = Ok i ->
    getProgressFilePath (mkConfig (Some i) None)
    = Ok (tmpdir +:+ "/" +:+ progress_file_name i)
    /\ ~ In "/"%char (list_ascii_of_string (progress_file_name i)).
Proof.
  intros i Hv. split; [|now apply progress_file_name_no_slash].
  rewrite <- join_progress_file_name by exact Hv. now apply path_of_valid_id.
Qed.

Lemma valid_id_stays_in_tmpdir_witness :
  validateId "job" = Ok "job"%string
  /\ getProgressFilePath job = Ok (tmpdir +:+ "/" +:+ progress_file_name "job")
  /\ ~ In "/"%char (list_ascii_of_string (progress_file_name "job")).
Proof.
  split; [reflexivity|]. apply (valid_id_stays_in_tmpdir "job"). reflexivity.
Defined.

(* ----------------------------------------------------------------- *)
(** *** How increments compose *)

Lemma increment_run (a : Z) message config w path state0 :
  getProgressFilePath config = Ok path ->
  stored w path state0 ->
  (path ∉ readonly w) ->
  0 <= a ->
  increment (Some a) message config w
  = (Ok (increment_state a message (clock w) state0),
     after_write path (Doc (JObj (increment_state a message (clock w) state0)))
       (after_read path w)).
Proof.
  intros Hp Hs Hro Ha. rewrite increment_mutate.
  change (default (Int 1) (Some (Int a))) with (Int a).
  change (JSNumber.ltb a 0) with (a <? 0).
  destruct (Z.ltb_spec a 0); [lia|]. now apply mutate_run.
Qed.

(** The fields an increment by an integer writes, for a counter and a
    total within the range of exact integers. *)
Lemma increment_state_exact (a : Z) message now state w path :
  stored w path state ->
  0 <= a ->
  - 2 ^ 53 <= num_field "current" state ->
  num_field "total" state <= 2 ^ 53 ->
  let state' := increment_state a message now state in
  let c' := Z.min (num_field "current" state + a) (num_field "total" state) in
  get_field "total" state' = get_field "total" state
  /\ get_field "current" state' = Some (JNum c')
  /\ get_field "percentage" state'
     = Some (json_of_number (JSNumber.percentage c' (num_field "total" state)))
  /\ get_field "startTime" state' = get_field "startTime" state
  /\ get_field "complete" state'
     = (if num_field "total" state <=? c' then Some (JBool true)
        else get_field "complete" state)
  /\ get_field "message" state'
     = match truthy message with
       | Some m => Some (JStr m)
       | None => get_field "message" state
       end.
Proof.
  intros Hs Ha Hc Ht. cbv zeta.
  destruct (increment_state_fields a message now state)
    as (H1 & H2 & H3 & H4 & H5 & H6).
  rewrite (proj2 (stored_current _ _ _ Hs)), (proj2 (stored_total _ _ _ Hs)) in *.
  rewrite JSNumberFacts.min_add_exact in * by assumption.
  auto 10.
Qed.

(** X7.  Increments accumulate.  On a tracker whose counter and total are
    within the range of exact integers (between -2^53 and 2^53), two
    successive increments by [a] and by [b], with [a + b] in that range,
    leave the counter, the percentage, the completion flag and every other
    field except the time of the update as one increment by [a + b] would;
    in particular the clamping at the total loses nothing. *)
Theorem increments_accumulate :
  forall config path w state0 (a b : Z) dt,
    getProgressFilePath config = Ok path ->
    stored w path state0 ->
    (path ∉ readonly w) ->
    0 <= a ->
    0 <= b ->
    - 2 ^ 53 <= num_field "current" state0 ->
    - 2 ^ 53 <= num_field "total" state0 <= 2 ^ 53 ->
    exists state1 state2 state12,
      fst (increment (Some a) None config w) = Ok state1
      /\ fst (increment (Some b) None config
                (advance dt (snd (increment (Some a) None config w)))) = Ok state2
      /\ fst (increment (Some (a + b)) None config w) = Ok state12
      /\ (forall k, In k ["total"; "current"; "message"; "percentage"; "startTime";
                          "complete"]%string ->
                    get_field k state2 = get_field k state12).
Proof.
  intros config path w state0 a b dt Hp Hs Hro Ha Hb Hc0 [Ht0' Ht0].
  rewrite (increment_run a None config w path state0 Hp Hs Hro Ha).
  set (state1 := increment_state a None (clock w) state0).
  destruct (increment_state_exact a None (clock w) state0 w path Hs Ha Hc0 Ht0)
    as (T1 & C1 & P1 & S1 & F1 & M1).
  fold state1 in T1, C1, P1, S1, F1, M1.
  destruct (stored_total _ _ _ Hs) as [Ht _].
  assert (Hs1 : stored (advance dt (after_write path (Doc (JObj state1))
                                      (after_read path w))) path
                  (as_parsed_fields state1)).
  { apply stored_intro; [apply after_write_lookup| |].
    - now rewrite get_as_parsed_fields, T1, Ht.
    - now rewrite get_as_parsed_fields, C1. }
  cbn [snd].
  rewrite (increment_run b None config _ path _ Hp Hs1 Hro Hb).
  rewrite (increment_run (a + b) None config w path state0 Hp Hs Hro ltac:(lia)).
  eexists. eexists. eexists.
  split; [reflexivity|]. split; [reflexivity|]. split; [reflexivity|].
  set (now2 := clock _).
  assert (Ht1 : num_field "total" (as_parsed_fields state1) = num_field "total" state0).
  { unfold num_field. now rewrite get_as_parsed_fields, T1, Ht. }
  assert (Hc1 : num_field "current" (as_parsed_fields state1)
                = Z.min (num_field "current" state0 + a) (num_field "total" state0)).
  { unfold num_field at 1. now rewrite get_as_parsed_fields, C1. }
  destruct (increment_state_exact b None now2 (as_parsed_fields state1) _ path Hs1 Hb
              ltac:(lia) ltac:(lia))
    as (T2 & C2 & P2 & S2 & F2 & M2).
  destruct (increment_state_exact (a + b) None (clock w) state0 w path Hs
              ltac:(lia) Hc0 Ht0)
    as (T3 & C3 & P3 & S3 & F3 & M3).
  assert (Hcur : Z.min (num_field "current" (as_parsed_fields state1) + b)
                       (num_field "total" (as_parsed_fields state1))
                 = Z.min (num_field "current" state0 + (a + b))
                         (num_field "total" state0)).
  { rewrite Ht1, Hc1. lia. }
  pose proof (stored_parsed _ _ _ Hs) as Hv0.
  assert (Hkeep : forall k,
            get_field k state1 = get_field k state0 ->
            get_field k (as_parsed_fields state1) = get_field k state0).
  { intros k H. rewrite get_as_parsed_fields, H.
    destruct (get_field k state0) as [v|] eqn:Hk0; [|reflexivity].
    simpl. f_equal. exact (parsed_value_field _ _ _ Hv0 Hk0). }
  intros k Hk. simpl in Hk.
  destruct Hk as [<-|[<-|[<-|[<-|[<-|[<-|[]]]]]]].
  - rewrite T2, T3. now apply Hkeep.
  - rewrite C2, C3. now rewrite Hcur.
  - rewrite M2, M3. simpl. now apply Hkeep.
  - rewrite P2, P3. now rewrite Hcur, Ht1.
  - rewrite S2, S3. now apply Hkeep.
  - rewrite F2, F3, Hcur, Ht1.
    destruct (Z.leb_spec (num_field "total" state0)
                (Z.min (num_field "current" state0 + (a + b))
                       (num_field "total" state0))) as [Hle|Hlt]; [reflexivity|].
    apply Hkeep. rewrite F1.
    destruct (Z.leb_spec (num_field "total" state0)
                (Z.min (num_field "current" state0 + a)
                       (num_field "total" state0))); [lia|reflexivity].
Qed.

Lemma increments_accumulate_witness :
  getProgressFilePath job = Ok job_path
  /\ stored (world_with job_path job_running 3000) job_path (state_object job_running)
  /\ exists state1 state2 state12,
       fst (increment (Some 30) None job (world_with job_path job_running 3000))
       = Ok state1
       /\ fst (increment (Some 50) None job
                 (advance 10 (snd (increment (Some 30) None job
                                     (world_with job_path job_running 3000))))) = Ok state2
       /\ fst (increment (Some (30 + 50)) None job
                 (world_with job_path job_running 3000)) = Ok state12
       /\ (forall k, In k ["total"; "current"; "message"; "percentage"; "startTime";
                           "complete"]%string ->
                     get_field k state2 = get_field k state12).
Proof.
  assert (Hp : getProgressFilePath job = Ok job_path) by reflexivity.
  assert (Hs : stored (world_with job_path job_running 3000) job_path
                 (state_object job_running)) by holds_entity (state_object job_running).
  split; [exact Hp|]. split; [exact Hs|].
  apply (increments_accumulate job job_path (world_with job_path job_running 3000)
           (state_object job_running) 30 50 10 Hp Hs).
  - apply not_elem_of_empty.
  - lia.
  - lia.
  - vm_compute. discriminate.
  - vm_compute. split; discriminate.
Defined.

(** X8.  A finished tracker absorbs increments: once [finish] has succeeded
    on a tracker whose total is a positive safe integer, any further
    [increment] succeeds and leaves the counter at the total, the percentage
    at 100 and the tracker complete. *)
Theorem finished_tracker_absorbs_increments :
  forall config w message amount note dt state,
    fst (finish message config w) = Ok state ->
    0 < num_field "total" state <= JSNumber.MAX_SAFE_INTEGER ->
    0 <= amount ->
    exists state',
      fst (increment (Some amount) note config
             (advance dt (snd (finish message config w)))) = Ok state'
      /\ get_field "total" state' = get_field "total" state
      /\ get_field "current" state' = Some (JNum (num_field "total" state))
      /\ get_field "percentage" state' = Some (JNum 100)
      /\ get_field "complete" state' = Some (JBool true).
Proof.
  intros config w message amount note dt state Hok Ht Ha.
  destruct (finish_stored _ _ _ _ Hok) as (path & Hp & Hs).
  assert (Hro : path ∉ readonly (advance dt (snd (finish message config w)))).
  { revert Hok. rewrite finish_mutate.
    destruct (mutate config (finish_state message) w) as [r w'] eqn:Hm.
    simpl. intros ->.
    destruct (mutate_inv _ _ _ _ _ Hm) as (p & s0 & Hp' & _ & Hro & _ & ->).
    assert (p = path) by congruence. subst p. exact Hro. }
  assert (Hs1 : stored (advance dt (snd (finish message config w))) path state).
  { destruct Hs as (j & Hf & Hj). exists j. auto. }
  assert (Hfields : get_field "current" state = get_field "total" state
                    /\ get_field "percentage" state = Some (JNum 100)
                    /\ get_field "complete" state = Some (JBool true)).
  { revert Hok. rewrite finish_mutate.
    destruct (mutate config (finish_state message) w) as [r w'] eqn:Hm.
    simpl. intros ->.
    destruct (mutate_inv _ _ _ _ _ Hm) as (p & s0 & _ & Hs0 & _ & -> & _).
    destruct (finish_state_fields message (clock w) s0)
      as (T1 & C1 & P1 & _ & _ & F1 & _).
    destruct (stored_total _ _ _ Hs0) as [Ht0 Hn0].
    rewrite C1, T1, Hn0, Ht0. auto. }
  destruct Hfields as (Hcur & Hpc & Hcomplete).
  rewrite (increment_run amount note config _ path state Hp Hs1 Hro Ha).
  eexists. split; [reflexivity|].
  set (now2 := clock _).
  assert (Hc : num_field "current" state = num_field "total" state).
  { unfold num_field. now rewrite Hcur. }
  unfold JSNumber.MAX_SAFE_INTEGER in Ht.
  destruct (increment_state_exact amount note now2 state _ path Hs1 Ha
              ltac:(lia) ltac:(lia))
    as (T2 & C2 & P2 & _ & F2 & _).
  assert (Hmin : Z.min (num_field "current" state + amount) (num_field "total" state)
                 = num_field "total" state) by lia.
  rewrite Hmin in C2, P2, F2.
  repeat split; auto.
  - rewrite P2, JSNumberFacts.percentage_full; [reflexivity|].
    unfold JSNumber.MAX_SAFE_INTEGER. lia.
  - rewrite F2, Z.leb_refl. reflexivity.
Qed.

Lemma finished_tracker_absorbs_increments_witness :
  fst (finish None job (world_with job_path job_running 3000))
  = Ok (state_object
          {| total := 100; current := 100; message := "copying"; percentage := 100;
             startTime := 1000; updatedTime := 3000; complete := true |})
  /\ exists state',
       fst (increment (Some 7) None job
              (advance 10 (snd (finish None job (world_with job_path job_running 3000)))))
       = Ok state'
       /\ get_field "total" state' = Some (JNum 100)
       /\ get_field "current" state' = Some (JNum 100)
       /\ get_field "percentage" state' = Some (JNum 100)
       /\ get_field "complete" state' = Some (JBool true).
Proof.
  split; [reflexivity|].
  apply (finished_tracker_absorbs_increments job (world_with job_path job_running 3000)
           None 7 None 10 _ eq_refl).
  - vm_compute. split; [reflexivity|discriminate].
  - lia.
Defined.

(* ----------------------------------------------------------------- *)
(** *** When an operation succeeds *)

Lemma mutate_ok_iff config f w :
  is_ok (fst (mutate config f w)) = true
  <-> exists path,
        getProgressFilePath config = Ok path
        /\ (path ∉ readonly w)
        /\ exists state, stored w path state.
Proof.
  split.
  - destruct (mutate config f w) as [[state'|e] w'] eqn:Hm; [|discriminate].
    intros _. destruct (mutate_inv _ _ _ _ _ Hm) as (path & state & Hp & Hs & Hro & _).
    eauto.
  - intros (path & Hp & Hro & state & Hs). now rewrite (mutate_run _ _ _ _ _ Hp Hs Hro).
Qed.

Lemma init_ok_iff t message config w :
  is_ok (fst (init t message config w)) = true
  <-> JSNumber.ltb 0 t = true
      /\ exists path, getProgressFilePath config = Ok path /\ (path ∉ readonly w).
Proof.
  split.
  - destruct (init t message config w) as [[state|e] w'] eqn:Hi; [|discriminate].
    intros _. unfold init in Hi.
    apply init_with_inv in Hi as (path & Hp & Ht & Hro & _). eauto.
  - intros (Ht & path & Hp & Hro). unfold init.
    now rewrite (init_with_run _ _ _ _ _ Ht Hp Hro).
Qed.

(** X28.  When an operation succeeds: [init], [increment], [set] and
    [finish] return a state exactly when their numeric argument passes the
    test of the operation (a total above 0; an amount or a counter that is
    not below 0, which [NaN] is not), the configuration names a valid path
    that can be written, and, for the three updates, the file holds an
    entity with numeric [total] and [current].  Nothing else, the message in
    particular, makes them fail. *)
Theorem operation_succeeds_iff :
  forall m config w,
    is_ok (fst (run_mutation m config w)) = true
    <-> accepts m
        /\ exists path,
             getProgressFilePath config = Ok path
             /\ (path ∉ readonly w)
             /\ (is_update m = true -> exists state, stored w path state).
Proof.
  intros [t message|amount message|c message|message] config w; simpl.
  - rewrite init_ok_iff. split.
    + intros (Ht & path & Hp & Hro). split; [exact Ht|].
      exists path. repeat split; auto. discriminate.
    + intros (Ht & path & Hp & Hro & _). eauto.
  - rewrite increment_mutate.
    destruct (JSNumber.ltb (default (Int 1) amount) 0) eqn:Hlt.
    + simpl. split; [discriminate|]. intros [H _].
      apply JSNumberFacts.not_ltb_zero in H. congruence.
    + rewrite mutate_ok_iff. apply JSNumberFacts.not_ltb_zero in Hlt. split.
      * intros (path & Hp & Hro & Hs). split; [exact Hlt|]. eauto.
      * intros (_ & path & Hp & Hro & Hs). eauto.
  - rewrite set_mutate. destruct (JSNumber.ltb c 0) eqn:Hlt.
    + simpl. split; [discriminate|]. intros [H _].
      apply JSNumberFacts.not_ltb_zero in H. congruence.
    + rewrite mutate_ok_iff. apply JSNumberFacts.not_ltb_zero in Hlt. split.
      * intros (path & Hp & Hro & Hs). split; [exact Hlt|]. eauto.
      * intros (_ & path & Hp & Hro & Hs). eauto.
  - rewrite finish_mutate, mutate_ok_iff. split.
    + intros (path & Hp & Hro & Hs). split; [exact I|]. eauto.
    + intros (_ & path & Hp & Hro & Hs). eauto.
Qed.

(** [set(NaN)] succeeds on the running job. *)
Lemma operation_succeeds_iff_witness :
  is_ok (fst (run_mutation (MSet NaN (Some long_message)) job
                (world_with job_path job_running 3000))) = true.
Proof.
  apply (proj2 (operation_succeeds_iff (MSet NaN (Some long_message)) job
                  (world_with job_path job_running 3000))).
  split; [now left|].
  exists job_path. split; [reflexivity|]. split; [apply not_elem_of_empty|].
  intros _. exists (state_object job_running). holds_entity (state_object job_running).
Defined.

(* ================================================================= *)
(** ** The tracker class, its builder and the iterator *)



(** The initial state of a tracker whose total is the integer [t]. *)
Lemma initial_state_object (t : Z) m now :
  initial_state t (Some (JStr m)) now
  = state_object
      {| total := t; current := 0; message := m; percentage := 0;
         startTime := now; updatedTime := now; complete := false |}.
Proof. reflexivity. Qed.





(* ----------------------------------------------------------------- *)
(** *** ProgressStream *)

Lemma next_run self w path state0 (a : Z) :
  ProgressStream.isDone self = false ->
  getProgressFilePath (ProgressTracker.config (ProgressStream.tracker self)) = Ok path ->
  stored w path state0 ->
  (path ∉ readonly w) ->
  ProgressStream.incrementAmount self = Int a ->
  0 <= a ->
  let state1 := increment_state a None (clock w) state0 in
  ProgressStream.next self w
  = ((Returned (ProgressStream.mkResult false (Some state1)), self),
     after_write path (Doc (JObj state1)) (after_read path w)).
Proof.
  intros Hopen Hp Hs Hro Hamount Ha. cbv zeta.
  unfold ProgressStream.next. rewrite Hopen, Hamount.
  unfold bind, ProgressTracker.increment.
  now rewrite (increment_run _ None _ w path state0 Hp Hs Hro Ha).
Qed.

(** X11.  An open iterator counts and never ends by itself.  On a tracker
    whose counter and total are within the range of exact integers, with
    an amount that is an integer and not negative, every call of [next]
    returns a result that is not done and carries the state after one more
    increment, so the [k]-th result shows the counter at
    [min (current + k * incrementAmount) total]; reaching the total does not
    close the stream. *)
Theorem next_counts_up_and_never_ends :
  forall dts self w path state0 (a : Z),
    ProgressStream.isDone self = false ->
    getProgressFilePath (ProgressTracker.config (ProgressStream.tracker self)) = Ok path ->
    stored w path state0 ->
    (path ∉ readonly w) ->
    ProgressStream.incrementAmount self = Int a ->
    0 <= a ->
    - 2 ^ 53 <= num_field "current" state0 ->
    - 2 ^ 53 <= num_field "total" state0 <= 2 ^ 53 ->
    snd (fst (nexts dts self w)) = self
    /\ length (fst (fst (nexts dts self w))) = length dts
    /\ forall k r,
         nth_error (fst (fst (nexts dts self w))) k = Some r ->
         exists state,
           r = Returned (ProgressStream.mkResult false (Some state))
           /\ get_field "total" state = get_field "total" state0
           /\ get_field "current" state
              = Some (JNum (Z.min (num_field "current" state0 + (Z.of_nat k + 1) * a)
                                  (num_field "total" state0))).
Proof.
  intros dts.
  induction dts as [|dt rest IH];
    intros self w path state0 a Hopen Hp Hs Hro Hamount Ha Hc0 [Ht0' Ht0].
  - simpl. repeat split; auto. intros [|k] r; discriminate.
  - simpl.
    assert (Hs' : stored (advance dt w) path state0) by exact Hs.
    pose proof (next_run self (advance dt w) path state0 a Hopen Hp Hs' Hro Hamount Ha)
      as Hn.
    cbv zeta in Hn. rewrite Hn. clear Hn.
    set (state1 := increment_state a None (clock (advance dt w)) state0).
    set (w1 := after_write path (Doc (JObj state1)) (after_read path (advance dt w))).
    destruct (increment_state_exact a None (clock (advance dt w)) state0 _ path
                Hs' Ha Hc0 Ht0)
      as (T1 & C1 & _).
    fold state1 in T1, C1.
    destruct (stored_total _ _ _ Hs) as [Ht _].
    assert (Hs1 : stored w1 path (as_parsed_fields state1)).
    { apply stored_intro; [apply after_write_lookup| |].
      - now rewrite get_as_parsed_fields, T1, Ht.
      - now rewrite get_as_parsed_fields, C1. }
    assert (Ht1 : num_field "total" (as_parsed_fields state1) = num_field "total" state0).
    { unfold num_field. now rewrite get_as_parsed_fields, T1, Ht. }
    assert (Hc1 : num_field "current" (as_parsed_fields state1)
                  = Z.min (num_field "current" state0 + a) (num_field "total" state0)).
    { unfold num_field at 1. now rewrite get_as_parsed_fields, C1. }
    simpl snd.
    destruct (IH self w1 path (as_parsed_fields state1) a Hopen Hp Hs1 Hro Hamount Ha
                ltac:(lia) ltac:(lia)) as (Hself & Hlen & Hnth).
    destruct (nexts rest self w1) as [[rs self2] w2]. simpl in *.
    split; [exact Hself|]. split; [now rewrite Hlen|].
    intros [|k] r Hr; simpl in Hr.
    + injection Hr as <-. exists state1. split; [reflexivity|]. split; [exact T1|].
      rewrite C1. do 2 f_equal. lia.
    + destruct (Hnth k r Hr) as (state & -> & T & C).
      exists state. split; [reflexivity|].
      split; [now rewrite T, get_as_parsed_fields, T1, Ht|].
      rewrite C, Ht1, Hc1. do 2 f_equal.
      assert (0 <= Z.of_nat k * a) by nia.
      assert (0 <= (Z.of_nat k + 1) * a) by nia.
      nia.
Qed.

Lemma next_counts_up_and_never_ends_witness :
  stored (world_with job_path job_running 3000) job_path (state_object job_running)
  /\ ProgressStream.incrementAmount (job_iterator 40) = Int 40
  /\ snd (fst (nexts [5; 5; 5] (job_iterator 40) (world_with job_path job_running 3000)))
     = job_iterator 40
  /\ forall k r,
       nth_error (fst (fst (nexts [5; 5; 5] (job_iterator 40)
                              (world_with job_path job_running 3000)))) k = Some r ->
       exists state,
         r = Returned (ProgressStream.mkResult false (Some state))
         /\ get_field "total" state = get_field "total" (state_object job_running)
         /\ get_field "current" state
            = Some (JNum (Z.min (num_field "current" (state_object job_running)
                                 + (Z.of_nat k + 1) * 40)
                                (num_field "total" (state_object job_running)))).
Proof.
  assert (Hs : stored (world_with job_path job_running 3000) job_path
                 (state_object job_running)) by holds_entity (state_object job_running).
  split; [exact Hs|]. split; [reflexivity|].
  destruct (next_counts_up_and_never_ends [5; 5; 5] (job_iterator 40)
              (world_with job_path job_running 3000) job_path
              (state_object job_running) 40 eq_refl eq_refl Hs
              (not_elem_of_empty job_path) eq_refl ltac:(lia))
    as (H1 & _ & H3).
  - vm_compute. discriminate.
  - vm_compute. split; discriminate.
  - split; [exact H1|exact H3].
Defined.

Lemma finish_run message config w path state0 :
  getProgressFilePath config = Ok path ->
  stored w path state0 ->
  (path ∉ readonly w) ->
  finish message config w
  = (Ok (finish_state message (clock w) state0),
     after_write path (Doc (JObj (finish_state message (clock w) state0)))
       (after_read path w)).
Proof. intros Hp Hs Hro. rewrite finish_mutate. now apply mutate_run. Qed.

Lemma closed_next self w :
  ProgressStream.isDone self = true ->
  ProgressStream.next self w
  = ((Returned (ProgressStream.mkResult true None), self), w).
Proof. intros H. unfold ProgressStream.next. now rewrite H. Qed.

Lemma return_closes self v w :
  ProgressStream.isDone (snd (fst (ProgressStream.return_ self v w))) = true.
Proof.
  unfold ProgressStream.return_. destruct (ProgressStream.isDone self) eqn:Hd; simpl.
  - exact Hd.
  - unfold bind. destruct (ProgressTracker.done _ _ w) as [[state|e] w1]; reflexivity.
Qed.

Lemma throw_closes self m w :
  ProgressStream.isDone (snd (fst (ProgressStream.throw self m w))) = true.
Proof.
  unfold ProgressStream.throw. destruct (ProgressStream.isDone self) eqn:Hd; simpl.
  - exact Hd.
  - unfold bind. destruct (ProgressTracker.done _ _ w) as [[state|e] w1]; reflexivity.
Qed.

(** X12.  [return] and [throw] close the stream whether or not marking the
    tracker succeeded; a closed stream is inert: [next] reports done with no
    value, [return] hands back its argument, [throw] rethrows, and none of
    them touches the world. *)
Theorem closed_stream_is_inert :
  forall self w v m self',
    self' = snd (fst (ProgressStream.return_ self v w))
    \/ self' = snd (fst (ProgressStream.throw self m w)) ->
    forall w',
      ProgressStream.next self' w'
      = ((Returned (ProgressStream.mkResult true None), self'), w')
      /\ (forall v', ProgressStream.return_ self' v' w'
                     = ((Returned (ProgressStream.mkResult true v'), self'), w'))
      /\ (forall m', ProgressStream.throw self' m' w'
                     = ((ProgressStream.Rethrown, self'), w')).
Proof.
  intros self w v m self' Hself' w'.
  assert (Hd : ProgressStream.isDone self' = true).
  { destruct Hself' as [-> | ->]; [apply return_closes|apply throw_closes]. }
  split; [now apply closed_next|]. split.
  - intros v'. unfold ProgressStream.return_. now rewrite Hd.
  - intros m'. unfold ProgressStream.throw. now rewrite Hd.
Qed.

Lemma closed_stream_is_inert_witness :
  ProgressStream.next
    (snd (fst (ProgressStream.return_ (job_iterator 1) None (fresh_world 1000))))
    (fresh_world 2000)
  = ((Returned (ProgressStream.mkResult true None),
      snd (fst (ProgressStream.return_ (job_iterator 1) None (fresh_world 1000)))),
     fresh_world 2000).
Proof.
  apply (closed_stream_is_inert (job_iterator 1) (fresh_world 1000) None ""
           _ (or_introl eq_refl) (fresh_world 2000)).
Defined.

Lemma throw_run self m w path state0 :
  ProgressStream.isDone self = false ->
  getProgressFilePath (ProgressTracker.config (ProgressStream.tracker self)) = Ok path ->
  stored w path state0 ->
  (path ∉ readonly w) ->
  let state := finish_state (Some ("Failed: " +:+ m)) (clock w) state0 in
  ProgressStream.throw self m w
  = ((ProgressStream.Rethrown,
      ProgressStream.mk (ProgressStream.tracker self)
        (ProgressStream.incrementAmount self) true),
     after_write path (Doc (JObj state)) (after_read path w)).
Proof.
  intros Hopen Hp Hs Hro. cbv zeta.
  unfold ProgressStream.throw. rewrite Hopen.
  cbn [negb ProgressStream.tracker]. unfold bind, ProgressTracker.done.
  now rewrite (finish_run _ _ w path state0 Hp Hs Hro).
Qed.

(** X13.  [throw] on an open stream records the failure as a completed
    run: when marking succeeds the error is rethrown and the file shows the
    counter at the total, 100 percent, complete, with the message
    [Failed: ] followed by the text of the error. *)
Theorem throw_records_failure_as_complete :
  forall self w m path state0,
    ProgressStream.isDone self = false ->
    getProgressFilePath (ProgressTracker.config (ProgressStream.tracker self)) = Ok path ->
    stored w path state0 ->
    (path ∉ readonly w) ->
    exists state,
      fst (fst (ProgressStream.throw self m w)) = ProgressStream.Rethrown
      /\ fst (ProgressTracker.get (ProgressStream.tracker self)
                (snd (ProgressStream.throw self m w))) = Ok state
      /\ get_field "message" state = Some (JStr ("Failed: " +:+ m))
      /\ get_field "complete" state = Some (JBool true)
      /\ get_field "percentage" state = Some (JNum 100)
      /\ get_field "current" state = Some (JNum (num_field "total" state0))
      /\ get_field "total" state = get_field "total" state0.
Proof.
  intros self w m path state0 Hopen Hp Hs Hro.
  pose proof (throw_run self m w path state0 Hopen Hp Hs Hro) as Hrun.
  cbv zeta in Hrun. rewrite Hrun.
  set (state := finish_state (Some ("Failed: " +:+ m)) (clock w) state0).
  destruct (finish_state_fields (Some ("Failed: " +:+ m)) (clock w) state0)
    as (T & C & P & _ & _ & F & M).
  fold state in T, C, P, F, M.
  destruct (stored_total _ _ _ Hs) as [Ht Hn]. rewrite Hn in C.
  exists state. simpl. split; [reflexivity|]. split.
  - unfold ProgressTracker.get. apply get_after_write; [exact Hp| | |].
    + apply parsed_finish_state; [eapply stored_parsed; eauto|]. now rewrite Ht.
    + now rewrite T, Ht.
    + now rewrite C.
  - repeat split; auto.
Qed.

Lemma throw_records_failure_as_complete_witness :
  exists state,
    fst (ProgressTracker.get (ProgressTracker.mk job)
           (snd (ProgressStream.throw (job_iterator 1) "disk full"
                   (world_with job_path job_running 3000)))) = Ok state
    /\ get_field "message" state = Some (JStr "Failed: disk full")
    /\ get_field "complete" state = Some (JBool true)
    /\ get_field "percentage" state = Some (JNum 100).
Proof.
  destruct (throw_records_failure_as_complete (job_iterator 1)
              (world_with job_path job_running 3000) "disk full" job_path
              (state_object job_running) eq_refl eq_refl)
    as (state & _ & Hget & M & F & P & _).
  - holds_entity (state_object job_running).
  - simpl. apply not_elem_of_empty.
  - exists state. auto.
Defined.

(* ================================================================= *)
(** ** More about the push adapter *)

Lemma transform_step self c w :
  let s := fst (ProgressTransform._transform self c w) in
  ProgressTransform.tracker (ProgressTransform.self' s) = ProgressTransform.tracker self
  /\ ProgressTransform.updateInterval (ProgressTransform.self' s)
     = ProgressTransform.updateInterval self
  /\ ProgressTransform.bytesProcessed (ProgressTransform.self' s)
     = JSNumber.add (ProgressTransform.bytesProcessed self)
                    (ProgressTransform.chunkSize c)
  /\ (forall pushed, ProgressTransform.called s = ProgressTransform.CbOk pushed ->
                     pushed = Some c)
  /\ (length (ProgressTransform.emitted s) <= 1)%nat
  /\ (forall pushed, ProgressTransform.called s = ProgressTransform.CbOk pushed ->
                     ProgressTransform.updateInterval self = 0 ->
                     length (ProgressTransform.emitted s) = 1%nat).
Proof.
  cbv zeta. rewrite transform_spec. cbv zeta.
  destruct (ProgressTracker.update _ _ _ w) as [[value|e] w1]; simpl.
  - destruct (_ || _) eqn:Hcond; simpl; repeat split; auto; try congruence.
    intros pushed _ H0. rewrite H0 in Hcond. discriminate.
  - repeat split; auto; discriminate.
Qed.

Lemma flush_step self w :
  let s := fst (ProgressTransform._flush self w) in
  ProgressTransform.self' s = self
  /\ (length (ProgressTransform.emitted s) <= 1)%nat
  /\ (forall pushed, ProgressTransform.called s = ProgressTransform.CbOk pushed ->
                     length (ProgressTransform.emitted s) = 1%nat
                     /\ exists value,
                          ProgressTransform.emitted s = [value]
                          /\ ProgressTracker.done (ProgressTransform.tracker self) None w
                             = (Ok value, snd (ProgressTransform._flush self w))).
Proof.
  cbv zeta. unfold ProgressTransform._flush, bind.
  destruct (ProgressTracker.done _ _ w) as [[value|e] w1]; simpl.
  - repeat split; auto. eauto.
  - repeat split; auto; discriminate.
Qed.

Lemma concat_with_bytes chunks : concat (with_bytes chunks) = concat chunks.
Proof.
  induction chunks as [|c chunks IH]; [reflexivity|].
  unfold with_bytes in *. cbn [List.filter].
  destruct (ProgressTransform.chunkSize c =? 0) eqn:H; cbn [negb].
  - apply Z.eqb_eq in H. destruct c as [|x c].
    + exact IH.
    + unfold ProgressTransform.chunkSize in H. simpl length in H. lia.
  - cbn [concat]. rewrite IH. reflexivity.
Qed.

Lemma run_passes_through chunks :
  forall self w,
    let r := fst (ProgressTransform.run self chunks w) in
    (exists rest, with_bytes chunks = ProgressTransform.output r ++ rest)
    /\ ProgressTransform.tracker (ProgressTransform.final r)
       = ProgressTransform.tracker self
    /\ (length (ProgressTransform.events r) <= length chunks + 1)%nat
    /\ (ProgressTransform.failure r = None ->
        ProgressTransform.output r = with_bytes chunks
        /\ ProgressTransform.bytesProcessed (ProgressTransform.final r)
           = counted (ProgressTransform.bytesProcessed self) chunks
        /\ (ProgressTransform.updateInterval self = 0 ->
            length (ProgressTransform.events r) = (length chunks + 1)%nat)).
Proof.
  induction chunks as [|c rest IH]; intros self w; cbv zeta.
  - rewrite run_nil. pose proof (flush_step self w) as H. cbv zeta in H.
    destruct (ProgressTransform._flush self w) as [s w1]. simpl in *.
    destruct H as (Hself & Hlen & Hok). rewrite Hself.
    split; [exists []; reflexivity|]. split; [reflexivity|]. split; [exact Hlen|].
    destruct (ProgressTransform.called s) as [e|pushed]; [discriminate|].
    intros _. split; [reflexivity|]. split; [reflexivity|].
    intros _. now destruct (Hok pushed eq_refl).
  - rewrite run_cons. pose proof (transform_step self c w) as H. cbv zeta in H.
    destruct (ProgressTransform._transform self c w) as [s w1]. simpl in H.
    destruct H as (Htr & Hint & Hbytes & Hpush & Hlen & Hone).
    destruct (ProgressTransform.called s) as [e|pushed]; simpl.
    + split; [exists (with_bytes (c :: rest)); reflexivity|]. split; [exact Htr|].
      split; [lia|discriminate].
    + rewrite (Hpush pushed eq_refl).
      specialize (IH (ProgressTransform.self' s) w1). cbv zeta in IH.
      destruct (ProgressTransform.run (ProgressTransform.self' s) rest w1) as [r w2].
      simpl in *. destruct IH as ((tl & Htl) & Htr' & Hlen' & Hok).
      unfold with_bytes in *. cbn [List.filter].
      unfold ProgressTransform.readable_push.
      split.
      { destruct (ProgressTransform.chunkSize c =? 0); simpl;
          [exists tl; exact Htl|exists tl; now rewrite Htl]. }
      split; [now rewrite Htr', Htr|].
      split; [rewrite length_app; lia|].
      intros Hnone. destruct (Hok Hnone) as (Hout & Hb & Hev).
      split.
      { destruct (ProgressTransform.chunkSize c =? 0); simpl; now rewrite Hout. }
      split; [unfold counted in *; simpl; now rewrite Hb, Hbytes|].
      intros H0. rewrite length_app, (Hone pushed eq_refl H0), Hev; [lia|].
      now rewrite Hint.
Qed.

Lemma counted_exact chunks :
  forall b : Z,
    0 <= b -> b + total_size chunks <= 2 ^ 53 ->
    counted (Int b) chunks = Int (b + total_size chunks).
Proof.
  induction chunks as [|c chunks IH]; intros b Hb Hsafe; unfold counted in *; simpl.
  - f_equal. lia.
  - assert (Hn : 0 <= ProgressTransform.chunkSize c)
      by (unfold ProgressTransform.chunkSize; lia).
    assert (Hrest : 0 <= total_size chunks).
    { clear. induction chunks as [|c' rest IH]; simpl; [lia|].
      unfold ProgressTransform.chunkSize. lia. }
    simpl in Hsafe.
    change (JSNumber.add (Int b) (Int (ProgressTransform.chunkSize c)))
      with (JSNumber.round (b + ProgressTransform.chunkSize c)).
    rewrite JSNumberFacts.round_exact by lia.
    rewrite IH by lia. f_equal. lia.
Qed.

(** X14.  The adapter never alters the data.  What the reader of the stream
    receives is a prefix of the chunks that hold a byte, unchanged and in
    order (a chunk without a byte is counted but not queued); when the run
    does not fail it is all of them, so the bytes received are the bytes
    sent, and the adapter has counted every chunk: exactly their bytes as
    long as the count stays within the range of exact integers. *)
Theorem chunks_pass_through_unchanged :
  forall chunks self w,
    (exists rest,
       with_bytes chunks
       = ProgressTransform.output (fst (ProgressTransform.run self chunks w)) ++ rest)
    /\ (ProgressTransform.failure (fst (ProgressTransform.run self chunks w)) = None ->
        ProgressTransform.output (fst (ProgressTransform.run self chunks w))
        = with_bytes chunks
        /\ concat (ProgressTransform.output (fst (ProgressTransform.run self chunks w)))
           = concat chunks
        /\ ProgressTransform.bytesProcessed
             (ProgressTransform.final (fst (ProgressTransform.run self chunks w)))
           = counted (ProgressTransform.bytesProcessed self) chunks
        /\ (forall b : Z,
              ProgressTransform.bytesProcessed self = Int b ->
              0 <= b -> b + total_size chunks <= 2 ^ 53 ->
              ProgressTransform.bytesProcessed
                (ProgressTransform.final (fst (ProgressTransform.run self chunks w)))
              = Int (b + total_size chunks))).
Proof.
  intros chunks self w.
  destruct (run_passes_through chunks self w) as (Hpre & _ & _ & Hok).
  split; [exact Hpre|]. intros Hnone. destruct (Hok Hnone) as (H1 & H2 & _).
  split; [exact H1|]. split; [rewrite H1; apply concat_with_bytes|].
  split; [exact H2|].
  intros b Hb Hb0 Hsafe. rewrite H2, Hb. now apply counted_exact.
Qed.

(** Two chunks of ten bytes around one without a byte: the reader receives
    the two. *)
Lemma chunks_pass_through_unchanged_witness :
  ProgressTransform.failure
    (fst (ProgressTransform.run (job_stream 0) [ten_bytes; []; ten_bytes]
            (world_with job_path job_created 3000))) = None
  /\ ProgressTransform.output
       (fst (ProgressTransform.run (job_stream 0) [ten_bytes; []; ten_bytes]
               (world_with job_path job_created 3000)))
     = [ten_bytes; ten_bytes]
  /\ ProgressTransform.bytesProcessed
       (ProgressTransform.final
          (fst (ProgressTransform.run (job_stream 0) [ten_bytes; []; ten_bytes]
                  (world_with job_path job_created 3000))))
     = Int 20.
Proof.
  assert (Hf : ProgressTransform.failure
                 (fst (ProgressTransform.run (job_stream 0) [ten_bytes; []; ten_bytes]
                         (world_with job_path job_created 3000))) = None)
    by reflexivity.
  split; [exact Hf|].
  destruct (proj2 (chunks_pass_through_unchanged [ten_bytes; []; ten_bytes]
                     (job_stream 0) (world_with job_path job_created 3000)) Hf)
    as (Hout & _ & _ & Hcount).
  split; [exact Hout|].
  apply (Hcount 0 eq_refl); [lia|vm_compute; discriminate].
Defined.

(** X15.  A run never notifies more often than once per chunk plus once at
    the end, and with the default interval (0) a run that does not fail
    notifies exactly that often. *)
Theorem notifications_are_counted :
  forall chunks self w,
    (length (ProgressTransform.events (fst (ProgressTransform.run self chunks w)))
     <= length chunks + 1)%nat
    /\ (ProgressTransform.failure (fst (ProgressTransform.run self chunks w)) = None ->
        ProgressTransform.updateInterval self = 0 ->
        length (ProgressTransform.events (fst (ProgressTransform.run self chunks w)))
        = (length chunks + 1)%nat).
Proof.
  intros chunks self w.
  destruct (run_passes_through chunks self w) as (_ & _ & Hlen & Hok).
  split; [exact Hlen|]. intros Hnone H0. destruct (Hok Hnone) as (_ & _ & H). auto.
Qed.

Lemma notifications_are_counted_witness :
  ProgressTransform.failure
    (fst (ProgressTransform.run (job_stream 0) [ten_bytes; ten_bytes]
            (world_with job_path job_created 3000))) = None
  /\ ProgressTransform.updateInterval (job_stream 0) = 0
  /\ length (ProgressTransform.events
               (fst (ProgressTransform.run (job_stream 0) [ten_bytes; ten_bytes]
                       (world_with job_path job_created 3000))))
     = (length [ten_bytes; ten_bytes] + 1)%nat.
Proof.
  split; [reflexivity|]. split; [reflexivity|].
  apply (proj2 (notifications_are_counted [ten_bytes; ten_bytes] (job_stream 0)
                  (world_with job_path job_created 3000))); reflexivity.
Defined.

Lemma run_final_state chunks :
  forall self w,
    ProgressTransform.failure (fst (ProgressTransform.run self chunks w)) = None ->
    exists value,
      final_event (fst (ProgressTransform.run self chunks w)) = Some value
      /\ fst (ProgressTracker.get (ProgressTransform.tracker self)
                (snd (ProgressTransform.run self chunks w))) = Ok value.
Proof.
  induction chunks as [|c rest IH]; intros self w.
  - rewrite run_nil. pose proof (flush_step self w) as H. cbv zeta in H.
    destruct (ProgressTransform._flush self w) as [s w1]. simpl in *.
    destruct H as (_ & _ & Hok).
    destruct (ProgressTransform.called s) as [e|pushed]; [discriminate|].
    intros _. destruct (Hok pushed eq_refl) as (_ & value & Hev & Hdone).
    exists value. unfold final_event. simpl. rewrite Hev. split; [reflexivity|].
    destruct (finish_stored None
                (ProgressTracker.config (ProgressTransform.tracker self)) w value)
      as (path & Hp & Hs).
    { unfold ProgressTracker.done in Hdone. now rewrite Hdone. }
    unfold ProgressTracker.done in Hdone. rewrite Hdone in Hs.
    simpl in Hs.
    unfold ProgressTracker.get, get. rewrite Hp.
    now rewrite (readProgress_stored _ _ _ Hs).
  - rewrite run_cons. pose proof (transform_step self c w) as H. cbv zeta in H.
    destruct (ProgressTransform._transform self c w) as [s w1]. simpl in H.
    destruct H as (Htr & _).
    destruct (ProgressTransform.called s) as [e|pushed]; simpl; [discriminate|].
    specialize (IH (ProgressTransform.self' s) w1).
    destruct (ProgressTransform.run (ProgressTransform.self' s) rest w1) as [r w2].
    simpl in *. intros Hnone. destruct (IH Hnone) as (value & Hlast & Hget).
    exists value. split; [|now rewrite <- Htr].
    unfold final_event in *. simpl. rewrite last_app, Hlast. reflexivity.
Qed.

(** X16.  After a run that did not fail, [getProgress] returns the state of
    the last notification: the final event is what the file holds. *)
Theorem getProgress_returns_the_final_event :
  forall chunks self w,
    ProgressTransform.failure (fst (ProgressTransform.run self chunks w)) = None ->
    exists value,
      final_event (fst (ProgressTransform.run self chunks w)) = Some value
      /\ fst (getProgress (ProgressTransform.final (fst (ProgressTransform.run self chunks w)))
                (snd (ProgressTransform.run self chunks w))) = Ok value.
Proof.
  intros chunks self w Hnone.
  destruct (run_final_state chunks self w Hnone) as (value & Hlast & Hget).
  exists value. split; [exact Hlast|]. unfold getProgress.
  destruct (run_passes_through chunks self w) as (_ & Htr & _).
  now rewrite Htr.
Qed.

Lemma getProgress_returns_the_final_event_witness :
  exists value,
    final_event (fst (ProgressTransform.run (job_stream 0) [ten_bytes; ten_bytes]
                        (world_with job_path job_created 3000))) = Some value
    /\ fst (getProgress
              (ProgressTransform.final
                 (fst (ProgressTransform.run (job_stream 0) [ten_bytes; ten_bytes]
                         (world_with job_path job_created 3000))))
              (snd (ProgressTransform.run (job_stream 0) [ten_bytes; ten_bytes]
                      (world_with job_path job_created 3000)))) = Ok value.
Proof.
  apply (getProgress_returns_the_final_event [ten_bytes; ten_bytes] (job_stream 0)
           (world_with job_path job_created 3000)).
  reflexivity.
Defined.

(* ================================================================= *)
(** ** More about the group registry *)

Lemma stored_files w w' path state :
  files w' !! path = files w !! path -> stored w path state -> stored w' path state.
Proof. intros H (j & Hf & Hrest). exists j. split; [now rewrite H|exact Hrest]. Qed.

Lemma touch_and_write_elsewhere self value w q :
  q <> MultiProgress.filePath self ->
  files (snd (MultiProgress.touch_and_write self value w)) !! q = files w !! q.
Proof.
  intros Hq. unfold MultiProgress.touch_and_write, bind, Date_now.
  destruct (MultiProgress.assign_in _ _ _ value); [|reflexivity].
  unfold MultiProgress.writeState, bind, randomHex, writeTempAndRename, removeTemp, ret.
  destruct (bool_decide _); simpl; [reflexivity|].
  apply lookup_insert_ne. congruence.
Qed.

Lemma clear_deletes config path w :
  getProgressFilePath config = Ok path ->
  (path ∉ readonly w) ->
  files (snd (clear config w)) !! path = None.
Proof.
  intros Hp Hro. rewrite (clear_run _ _ _ Hp).
  destruct (files w !! path) eqn:Hf; [|exact Hf].
  rewrite bool_decide_eq_false_2 by exact Hro. simpl. apply lookup_delete_eq.
Qed.

Lemma clear_creates_nothing config w q :
  files w !! q = None -> files (snd (clear config w)) !! q = None.
Proof.
  intros Hq. destruct (getProgressFilePath config) as [path|e] eqn:Hp.
  - rewrite (clear_run _ _ _ Hp). destruct (files w !! path); [|exact Hq].
    destruct (bool_decide _); simpl; [exact Hq|].
    apply lookup_delete_None. now right.
  - unfold clear. now rewrite Hp.
Qed.

Lemma clear_readonly config w : readonly (snd (clear config w)) = readonly w.
Proof.
  destruct (ProgressTracker.clear (ProgressTracker.mk config) w) as [r w'] eqn:Hc.
  destruct (clear_env _ _ _ _ Hc) as (H & _). unfold ProgressTracker.clear in Hc.
  simpl in Hc. now rewrite Hc.
Qed.

(* ----------------------------------------------------------------- *)
(** *** add, get, remove *)

Lemma add_registry self config w :
  snd (fst (MultiProgress.add self config w))
  = match fst (ProgressTracker.new (member_config self config w) w) with
    | Returned tracker =>
        MultiProgress.with_trackers self
          (set_field (member_id config w) tracker (MultiProgress.trackers self))
    | Threw _ => self
    end.
Proof.
  rewrite add_member_id. cbv zeta. unfold bind at 1.
  destruct (ProgressTracker.new _ w) as [[tracker|e] w1]; simpl; [|reflexivity].
  unfold bind at 1. destruct (MultiProgress.readState _ w1) as [[value|e] w2];
    simpl; [|reflexivity].
  unfold bind at 1. destruct (ProgressTracker.get tracker w2) as [[ts|e] w3];
    simpl; [|reflexivity].
  destruct (MultiProgress.assign_in _ _ _ value); simpl; [|reflexivity].
  unfold bind. destruct (MultiProgress.touch_and_write _ _ w3) as [[[]|e] w4];
    reflexivity.
Qed.

(** X17.  [add] registers the member before it updates the aggregate: if
    the member's tracker could be constructed, the instance knows it under
    its identifier afterwards, also when the update of the aggregate was
    skipped or threw; no other member of the registry is affected; and if the
    tracker could not be constructed the registry is unchanged. *)
Theorem add_registers_the_member :
  forall self config w,
    match fst (ProgressTracker.new (member_config self config w) w) with
    | Returned tracker =>
        MultiProgress.get (snd (fst (MultiProgress.add self config w)))
          (member_id config w) = Ok tracker
        /\ forall other,
             other <> member_id config w ->
             MultiProgress.get (snd (fst (MultiProgress.add self config w))) other
             = MultiProgress.get self other
    | Threw _ => snd (fst (MultiProgress.add self config w)) = self
    end.
Proof.
  intros self config w. rewrite add_registry.
  destruct (fst (ProgressTracker.new _ w)) as [tracker|e]; [|reflexivity].
  unfold MultiProgress.get. simpl. split.
  - now rewrite get_set_eq.
  - intros other Hne. rewrite get_set_ne by congruence. reflexivity.
Qed.

Lemma remove_registry self trackerId w :
  snd (fst (MultiProgress.remove self trackerId w))
  = match get_field trackerId (MultiProgress.trackers self) with
    | Some _ =>
        MultiProgress.with_trackers self
          (delete_field trackerId (MultiProgress.trackers self))
    | None => self
    end.
Proof.
  unfold MultiProgress.remove.
  destruct (get_field trackerId (MultiProgress.trackers self)) as [tracker|];
    [|reflexivity].
  unfold bind at 1. destruct (ProgressTracker.clear tracker w) as [r w1].
  unfold bind at 1. destruct (MultiProgress.readState _ w1) as [[value|e] w2];
    simpl; [|reflexivity].
  destruct (MultiProgress.delete_in _ _ value); simpl; [|reflexivity].
  unfold bind. destruct (MultiProgress.touch_and_write _ _ w2) as [[[]|e] w3];
    reflexivity.
Qed.

Lemma remove_files self trackerId tracker w q :
  get_field trackerId (MultiProgress.trackers self) = Some tracker ->
  q <> MultiProgress.filePath self ->
  files (snd (MultiProgress.remove self trackerId w)) !! q
  = files (snd (ProgressTracker.clear tracker w)) !! q.
Proof.
  intros Hg Hq. unfold MultiProgress.remove. rewrite Hg.
  unfold bind at 1. destruct (ProgressTracker.clear tracker w) as [r w1]. simpl snd.
  unfold bind at 1.
  destruct (MultiProgress.readState
              (MultiProgress.with_trackers self
                 (delete_field trackerId (MultiProgress.trackers self))) w1)
    as [[value|e] w2] eqn:Hr;
    apply readState_env in Hr as [_ Hf]; simpl; [|now rewrite Hf].
  destruct (MultiProgress.delete_in _ _ value) as [value'|]; simpl; [|now rewrite Hf].
  unfold bind.
  pose proof (touch_and_write_elsewhere
                (MultiProgress.with_trackers self
                   (delete_field trackerId (MultiProgress.trackers self)))
                value' w2 q Hq) as Ht.
  destruct (MultiProgress.touch_and_write _ _ w2) as [[[]|e] w3]; simpl in *;
    now rewrite Ht, Hf.
Qed.

(** X18.  [remove] forgets the member and deletes its file: afterwards the
    instance does not find the identifier, the other members are still
    registered, and the member's file is gone, whatever became of the update
    of the aggregate. *)
Theorem remove_forgets_the_member :
  forall self trackerId tracker path w,
    get_field trackerId (MultiProgress.trackers self) = Some tracker ->
    getProgressFilePath (ProgressTracker.config tracker) = Ok path ->
    (path ∉ readonly w) ->
    path <> MultiProgress.filePath self ->
    MultiProgress.get (snd (fst (MultiProgress.remove self trackerId w))) trackerId
    = Err ("Tracker not found: " +:+ trackerId)
    /\ (forall other,
          other <> trackerId ->
          MultiProgress.get (snd (fst (MultiProgress.remove self trackerId w))) other
          = MultiProgress.get self other)
    /\ files (snd (MultiProgress.remove self trackerId w)) !! path = None.
Proof.
  intros self trackerId tracker path w Hg Hp Hro Hne.
  rewrite remove_registry, Hg. unfold MultiProgress.get. simpl.
  split; [now rewrite get_delete_eq|]. split.
  - intros other Ho. rewrite get_delete_ne by congruence. reflexivity.
  - rewrite (remove_files _ _ _ _ _ Hg Hne). unfold ProgressTracker.clear.
    now apply clear_deletes.
Qed.

Lemma remove_forgets_the_member_witness :
  MultiProgress.get (snd (fst (MultiProgress.remove build_group "compile" build_world)))
    "compile"
  = Err ("Tracker not found: " +:+ "compile")
  /\ files (snd (MultiProgress.remove build_group "compile" build_world))
       !! member_path "build" "compile" = None.
Proof.
  destruct (remove_forgets_the_member build_group "compile"
              (ProgressTracker.mk (mkConfig (Some "build-compile"%string) None))
              (member_path "build" "compile") build_world eq_refl eq_refl
              (not_elem_of_empty _) ltac:(discriminate))
    as (H1 & _ & H3).
  split; [exact H1|exact H3].
Defined.

(* ----------------------------------------------------------------- *)
(** *** clear *)

Lemma clear_all_creates_nothing ts q :
  forall w,
    files w !! q = None -> files (snd (MultiProgress.clear_all ts w)) !! q = None.
Proof.
  induction ts as [|[i tracker] rest IH]; intros w Hq; [exact Hq|].
  simpl. unfold bind.
  pose proof (clear_creates_nothing (ProgressTracker.config tracker) w q Hq) as H.
  unfold ProgressTracker.clear.
  destruct (clear (ProgressTracker.config tracker) w) as [r w1]. simpl in H.
  now apply IH.
Qed.

Lemma clear_all_readonly ts :
  forall w, readonly (snd (MultiProgress.clear_all ts w)) = readonly w.
Proof.
  induction ts as [|[i tracker] rest IH]; intros w; [reflexivity|].
  simpl. unfold bind.
  pose proof (clear_readonly (ProgressTracker.config tracker) w) as H.
  unfold ProgressTracker.clear.
  destruct (clear (ProgressTracker.config tracker) w) as [r w1]. simpl in H.
  now rewrite IH.
Qed.

Lemma clear_all_deletes ts trackerId tracker path :
  forall w,
    In (trackerId, tracker) ts ->
    getProgressFilePath (ProgressTracker.config tracker) = Ok path ->
    (path ∉ readonly w) ->
    files (snd (MultiProgress.clear_all ts w)) !! path = None.
Proof.
  induction ts as [|[i tracker0] rest IH]; intros w Hin Hp Hro; [contradiction|].
  simpl. unfold bind. unfold ProgressTracker.clear.
  destruct Hin as [[= -> ->]|Hin].
  - pose proof (clear_deletes _ _ w Hp Hro) as H.
    destruct (clear (ProgressTracker.config tracker) w) as [r w1]. simpl in H.
    now apply clear_all_creates_nothing.
  - pose proof (clear_readonly (ProgressTracker.config tracker0) w) as H.
    destruct (clear (ProgressTracker.config tracker0) w) as [r w1]. simpl in H.
    apply IH; auto. now rewrite H.
Qed.

Lemma group_clear_run self w :
  exists r w',
    MultiProgress.clear self w = ((r, MultiProgress.with_trackers self []), w')
    /\ (files w' = files (snd (MultiProgress.clear_all (MultiProgress.trackers self) w))
        \/ files w'
           = delete (MultiProgress.filePath self)
               (files (snd (MultiProgress.clear_all (MultiProgress.trackers self) w))))
    /\ (r = Ok tt -> files w' !! MultiProgress.filePath self = None).
Proof.
  unfold MultiProgress.clear, bind.
  destruct (MultiProgress.clear_all (MultiProgress.trackers self) w) as [[] w1].
  simpl snd. unfold existsSync, unlinkSync, ret, MultiProgress.with_trackers.
  cbn [MultiProgress.filePath].
  destruct (files w1 !! MultiProgress.filePath self) as [c|] eqn:Hf.
  - rewrite bool_decide_eq_true_2 by eauto. simpl. rewrite Hf.
    destruct (bool_decide _); simpl; eexists; eexists; (split; [reflexivity|]); simpl.
    + split; [left; reflexivity|intros [=]].
    + split; [right; reflexivity|]. intros _. apply lookup_delete_eq.
  - rewrite bool_decide_eq_false_2 by (intros [x Hx]; congruence). simpl.
    eexists; eexists; (split; [reflexivity|]); simpl.
    split; [left; reflexivity|]. intros _. exact Hf.
Qed.

(** X19.  [clear] on a group empties the registry, creates no file, and
    removes the file of every registered member that can be removed; when it
    reports success the aggregate file is gone as well. *)
Theorem group_clear_removes_members_and_aggregate :
  forall self w,
    MultiProgress.trackers (snd (fst (MultiProgress.clear self w))) = []
    /\ (forall q, files w !! q = None ->
                  files (snd (MultiProgress.clear self w)) !! q = None)
    /\ (forall trackerId tracker path,
          In (trackerId, tracker) (MultiProgress.trackers self) ->
          getProgressFilePath (ProgressTracker.config tracker) = Ok path ->
          (path ∉ readonly w) ->
          files (snd (MultiProgress.clear self w)) !! path = None)
    /\ (fst (fst (MultiProgress.clear self w)) = Ok tt ->
        files (snd (MultiProgress.clear self w)) !! MultiProgress.filePath self = None).
Proof.
  intros self w. destruct (group_clear_run self w) as (r & w' & -> & Hfiles & Hok).
  simpl fst. simpl snd. split; [reflexivity|].
  assert (Hnone : forall q,
            files (snd (MultiProgress.clear_all (MultiProgress.trackers self) w)) !! q
            = None ->
            files w' !! q = None).
  { intros q Hq. simpl. destruct Hfiles as [-> | ->]; [exact Hq|].
    apply lookup_delete_None. now right. }
  split; [|split; [|exact Hok]].
  - intros q Hq. apply Hnone. now apply clear_all_creates_nothing.
  - intros trackerId tracker path Hin Hp Hro. apply Hnone.
    now apply (clear_all_deletes _ trackerId tracker).
Qed.

Lemma group_clear_removes_members_and_aggregate_witness :
  fst (fst (MultiProgress.clear build_group build_aggregate_world)) = Ok tt
  /\ files (snd (MultiProgress.clear build_group build_aggregate_world))
       !! MultiProgress.filePath build_group = None
  /\ files (snd (MultiProgress.clear build_group build_aggregate_world))
       !! member_path "build" "compile" = None.
Proof.
  split; [reflexivity|].
  destruct (group_clear_removes_members_and_aggregate build_group build_aggregate_world)
    as (_ & _ & Hm & Ha).
  split; [apply Ha; reflexivity|].
  apply (Hm "compile"%string
            (ProgressTracker.mk (mkConfig (Some "build-compile"%string) None))).
  - left. reflexivity.
  - reflexivity.
  - apply not_elem_of_empty.
Defined.

Lemma add_registers_the_member_witness :
  MultiProgress.get
    (snd (fst (MultiProgress.add stranger (mkMemberConfig 10 "linking" (Some "link"%string))
                 build_aggregate_world))) "link"
  = Ok (ProgressTracker.mk (mkConfig (Some "build-link"%string) None))
  /\ MultiProgress.get
       (snd (fst (MultiProgress.add stranger (mkMemberConfig 10 "linking" (Some "link"%string))
                    build_aggregate_world))) "compile"
     = MultiProgress.get stranger "compile".
Proof.
  pose proof (add_registers_the_member stranger
                (mkMemberConfig 10 "linking" (Some "link"%string))
                build_aggregate_world) as H.
  change (fst (ProgressTracker.new _ build_aggregate_world))
    with (Returned (T := ProgressTracker.t)
            (ProgressTracker.mk (mkConfig (Some "build-link"%string) None))) in H.
  cbv iota in H. destruct H as [H1 H2].
  split; [exact H1|]. apply H2. discriminate.
Defined.

(* ----------------------------------------------------------------- *)
(** *** done *)

Lemma finish_state_stored message now state w0 w path :
  stored w0 path state ->
  stored (after_write path (Doc (JObj (finish_state message now state))) w) path
    (finish_state message now state).
Proof.
  intros Hs. destruct (stored_total _ _ _ Hs) as [Ht Hn].
  destruct (finish_state_fields message now state) as (F1 & F2 & _).
  apply stored_after_write.
  - apply parsed_finish_state; [eapply stored_parsed; eauto|].
    now destruct Hs as (j & _ & _ & Hnum & _).
  - now rewrite F1, Ht.
  - now rewrite F2, Hn.
Qed.

Lemma finish_result message config w :
  (exists path state0,
     getProgressFilePath config = Ok path
     /\ stored w path state0
     /\ (path ∉ readonly w)
     /\ snd (finish message config w)
        = after_write path (Doc (JObj (finish_state message (clock w) state0)))
            (after_read path w))
  \/ files (snd (finish message config w)) = files w.
Proof.
  rewrite finish_mutate.
  destruct (mutate config (finish_state message) w) as [[state'|e] w'] eqn:Hm.
  - left. destruct (mutate_inv _ _ _ _ _ Hm) as (path & state0 & Hp & Hs & Hro & -> & ->).
    exists path, state0. auto.
  - right. destruct (mutate_frame _ _ _ _ _ Hm) as (_ & _ & _ & H & _). simpl.
    exact (proj1 (H e eq_refl)).
Qed.

Lemma finish_readonly message config w :
  readonly (snd (finish message config w)) = readonly w.
Proof.
  rewrite finish_mutate.
  destruct (mutate config (finish_state message) w) as [r w'] eqn:Hm.
  destruct (mutate_env _ _ _ _ _ Hm) as (H & _). exact H.
Qed.

Lemma finish_keeps_total message config w path t :
  holds_total w path t -> holds_total (snd (finish message config w)) path t.
Proof.
  intros (state & Hs & Ht).
  destruct (finish_result message config w)
    as [(path' & state0 & Hp & Hs0 & Hro & ->)|Hf].
  - destruct (String.eqb_spec path' path) as [->|Hne].
    + rewrite (stored_inj _ _ _ _ Hs0 Hs).
      destruct (finish_state_fields message (clock w) state) as (T & _).
      exists (finish_state message (clock w) state). split.
      * eapply finish_state_stored; eauto.
      * now rewrite T.
    + exists state. split; [|exact Ht].
      apply (stored_files w); [|exact Hs]. simpl. now apply lookup_insert_ne.
  - exists state. split; [|exact Ht]. apply (stored_files w); [|exact Hs].
    now rewrite Hf.
Qed.

Lemma finish_state_completed message now state t :
  get_field "total" state = Some (JNum t) ->
  let state' := finish_state message now state in
  get_field "total" state' = Some (JNum t)
  /\ get_field "current" state' = Some (JNum t)
  /\ get_field "percentage" state' = Some (JNum 100)
  /\ get_field "complete" state' = Some (JBool true).
Proof.
  intros Ht. cbv zeta.
  destruct (finish_state_fields message now state) as (T & C & P & _ & _ & F & _).
  rewrite T, C, P, F, Ht, (number_field_get _ _ _ Ht). auto.
Qed.

Lemma finish_keeps_completed message config w path t :
  completed_at w path t -> completed_at (snd (finish message config w)) path t.
Proof.
  intros (state & Hfile & Hs & Ht & Hc & Hp100 & Hcomplete).
  destruct (finish_result message config w)
    as [(path' & state0 & Hp & Hs0 & Hro & ->)|Hf].
  - destruct (String.eqb_spec path' path) as [->|Hne].
    + rewrite (stored_inj _ _ _ _ Hs0 Hs).
      destruct (finish_state_completed message (clock w) state t Ht) as (T & C & P & F).
      exists (finish_state message (clock w) state).
      split; [apply after_write_lookup|].
      split; [eapply finish_state_stored; eauto|]. auto.
    + exists state. split; [simpl; now rewrite lookup_insert_ne|].
      split; [|auto].
      apply (stored_files w); [|exact Hs]. simpl. now apply lookup_insert_ne.
  - exists state. split; [now rewrite Hf|]. split; [|auto].
    apply (stored_files w); [|exact Hs]. now rewrite Hf.
Qed.

Lemma finish_completes message config w path t :
  getProgressFilePath config = Ok path ->
  holds_total w path t ->
  (path ∉ readonly w) ->
  completed_at (snd (finish message config w)) path t.
Proof.
  intros Hp (state & Hs & Ht) Hro. rewrite (finish_run _ _ _ _ _ Hp Hs Hro).
  destruct (finish_state_completed message (clock w) state t Ht) as (T & C & P & F).
  exists (finish_state message (clock w) state).
  split; [apply after_write_lookup|].
  split; [eapply finish_state_stored; eauto|]. auto.
Qed.

Lemma done_all_keeps_completed ts path t :
  forall w,
    completed_at w path t ->
    completed_at (snd (MultiProgress.done_all ts w)) path t.
Proof.
  induction ts as [|[i tracker] rest IH]; intros w H; [exact H|].
  simpl. unfold bind, ProgressTracker.done.
  pose proof (finish_keeps_completed None (ProgressTracker.config tracker) w path t H)
    as H1.
  destruct (finish None (ProgressTracker.config tracker) w) as [r w1]. now apply IH.
Qed.

Lemma done_all_completes ts trackerId tracker path t :
  forall w,
    In (trackerId, tracker) ts ->
    getProgressFilePath (ProgressTracker.config tracker) = Ok path ->
    holds_total w path t ->
    (path ∉ readonly w) ->
    completed_at (snd (MultiProgress.done_all ts w)) path t.
Proof.
  induction ts as [|[i tracker0] rest IH]; intros w Hin Hp Ht Hro; [contradiction|].
  simpl. unfold bind, ProgressTracker.done.
  destruct Hin as [[= -> ->]|Hin].
  - pose proof (finish_completes None _ w path t Hp Ht Hro) as H1.
    destruct (finish None (ProgressTracker.config tracker) w) as [r w1].
    now apply done_all_keeps_completed.
  - pose proof (finish_keeps_total None (ProgressTracker.config tracker0) w path t Ht)
      as H1.
    pose proof (finish_readonly None (ProgressTracker.config tracker0) w) as H2.
    destruct (finish None (ProgressTracker.config tracker0) w) as [r w1].
    simpl in H1, H2. apply IH; auto. now rewrite H2.
Qed.

Lemma done_files_elsewhere self w q :
  q <> MultiProgress.filePath self ->
  files (snd (MultiProgress.done self w)) !! q
  = files (snd (MultiProgress.done_all (MultiProgress.trackers self) w)) !! q.
Proof.
  intros Hq. unfold MultiProgress.done. unfold bind at 1.
  destruct (MultiProgress.done_all (MultiProgress.trackers self) w) as [[] w1].
  simpl snd. unfold bind at 1.
  destruct (MultiProgress.readState self w1) as [[value|e] w2] eqn:Hr;
    apply readState_env in Hr as [_ Hf]; simpl; [|now rewrite Hf].
  unfold bind at 1.
  destruct (mirror_all_env (MultiProgress.trackers self) value w2) as [_ Hm].
  destruct (MultiProgress.mirror_all (MultiProgress.trackers self) value w2)
    as [[value'|e] w3]; simpl in *; [|now rewrite Hm, Hf].
  unfold bind.
  pose proof (touch_and_write_elsewhere self value' w3 q Hq) as Ht.
  destruct (MultiProgress.touch_and_write self value' w3) as [[[]|e] w4]; simpl in *;
    now rewrite Ht, Hm, Hf.
Qed.

(** X20.  [done] on a group completes every registered member: the file of
    each member that holds an entity and can be written shows, afterwards,
    the counter at the total, 100 percent and the completion flag,
    whatever becomes of the update of the aggregate. *)
Theorem group_done_completes_every_member :
  forall self w trackerId tracker path state0,
    In (trackerId, tracker) (MultiProgress.trackers self) ->
    getProgressFilePath (ProgressTracker.config tracker) = Ok path ->
    stored w path state0 ->
    (path ∉ readonly w) ->
    path <> MultiProgress.filePath self ->
    exists state,
      files (snd (MultiProgress.done self w)) !! path = Some (Doc (JObj state))
      /\ get_field "total" state = get_field "total" state0
      /\ get_field "current" state = get_field "total" state0
      /\ get_field "percentage" state = Some (JNum 100)
      /\ get_field "complete" state = Some (JBool true).
Proof.
  intros self w trackerId tracker path state0 Hin Hp Hs Hro Hne.
  destruct (stored_total _ _ _ Hs) as [Htotal _].
  assert (Ht : holds_total w path (num_field "total" state0)).
  { exists state0. split; [exact Hs|exact Htotal]. }
  destruct (done_all_completes _ _ _ _ _ w Hin Hp Ht Hro)
    as (state & Hf & _ & T & C & P & F).
  exists state. rewrite (done_files_elsewhere _ _ _ Hne).
  rewrite Htotal. auto.
Qed.

Lemma group_done_completes_every_member_witness :
  exists state,
    files (snd (MultiProgress.done build_group build_aggregate_world))
      !! member_path "build" "compile" = Some (Doc (JObj state))
    /\ get_field "total" state = get_field "total" (state_object job_running)
    /\ get_field "current" state = get_field "total" (state_object job_running)
    /\ get_field "percentage" state = Some (JNum 100)
    /\ get_field "complete" state = Some (JBool true).
Proof.
  apply (group_done_completes_every_member build_group build_aggregate_world
           "compile" (ProgressTracker.mk (mkConfig (Some "build-compile"%string) None))
           (member_path "build" "compile") (state_object job_running)).
  - left. reflexivity.
  - reflexivity.
  - holds_entity (state_object job_running).
  - apply not_elem_of_empty.
  - discriminate.
Defined.

(* ----------------------------------------------------------------- *)
(** *** sync *)

Lemma member_id_nonempty g i : (g +:+ "-" +:+ i)%string <> EmptyString.
Proof. destruct g; discriminate. Qed.

(** A member whose tracker could be constructed has a valid identifier,
    and its file lies in the directory of the progress files. *)
Lemma member_config_path g i path :
  getProgressFilePath (mkConfig (Some (g +:+ "-" +:+ i)) None) = Ok path ->
  validateId (g +:+ "-" +:+ i) = Ok (g +:+ "-" +:+ i) /\ path = member_path g i.
Proof.
  unfold getProgressFilePath. cbn [filePath id truthy].
  rewrite (or_default_Some _ "default" (member_id_nonempty g i)).
  destruct (validateId _) as [v|e] eqn:Hv; [|discriminate]. intros [= <-].
  split; [|reflexivity]. f_equal. exact (validateId_Ok _ _ Hv).
Qed.

Lemma member_path_inj g i j :
  validateId (g +:+ "-" +:+ i) = Ok (g +:+ "-" +:+ i) ->
  validateId (g +:+ "-" +:+ j) = Ok (g +:+ "-" +:+ j) ->
  member_path g i = member_path g j -> i = j.
Proof.
  intros Hi Hj. unfold member_path.
  change ("progress-" +:+ (g +:+ "-" +:+ i) +:+ ".json")
    with (progress_file_name (g +:+ "-" +:+ i)).
  change ("progress-" +:+ (g +:+ "-" +:+ j) +:+ ".json")
    with (progress_file_name (g +:+ "-" +:+ j)).
  rewrite (join_progress_file_name _ Hi), (join_progress_file_name _ Hj). intros H.
  do 2 apply append_inj_r in H. apply progress_file_name_inj in H.
  now do 2 apply append_inj_r in H.
Qed.

Lemma construct_inv total message i fp w tracker w1 :
  ProgressTracker.construct total message i fp w = (Returned tracker, w1) ->
  tracker = ProgressTracker.mk (mkConfig i fp)
  /\ JSNumber.ltb 0 total = true
  /\ exists path,
       getProgressFilePath (mkConfig i fp) = Ok path
       /\ (path ∉ readonly w)
       /\ w1 = after_write path (Doc (JObj (initial_state total message (clock w)))) w.
Proof.
  unfold ProgressTracker.construct, bind, ret.
  destruct (init_with _ _ _ w) as [[state|e] w'] eqn:Hinit; [|discriminate].
  intros [= <- <-]. split; [reflexivity|].
  destruct (init_with_inv _ _ _ _ _ _ Hinit) as (path & Hp & Ht & Hro & -> & ->).
  eauto 7.
Qed.

(** The loop of [sync] when it reaches its end: the handles the instance
    had are kept; every entry it did not know has a valid identifier, has
    been given a handle on the member's file, and that file has been
    written anew from the total and the message of the entry; no other
    file has changed. *)
Lemma sync_entries_spec es :
  forall self w self' w',
    MultiProgress.sync_entries self es w = ((Some (Returned tt), self'), w') ->
    MultiProgress.id self' = MultiProgress.id self
    /\ clock w' = clock w
    /\ (forall i, is_Some (get_field i (MultiProgress.trackers self)) ->
                  get_field i (MultiProgress.trackers self')
                  = get_field i (MultiProgress.trackers self))
    /\ (forall i, In i (map fst es) ->
                  is_Some (get_field i (MultiProgress.trackers self')))
    /\ (forall i, In i (map fst es) ->
                  get_field i (MultiProgress.trackers self) = None ->
                  validateId (MultiProgress.id self +:+ "-" +:+ i)
                  = Ok (MultiProgress.id self +:+ "-" +:+ i)
                  /\ get_field i (MultiProgress.trackers self')
                     = Some (ProgressTracker.mk
                               (mkConfig (Some (MultiProgress.id self +:+ "-" +:+ i)) None)))
    /\ (forall i entry,
          get_field i es = Some entry ->
          get_field i (MultiProgress.trackers self) = None ->
          restarted_at w' (member_path (MultiProgress.id self) i) entry (clock w))
    /\ (forall q,
          (forall i, In i (map fst es) ->
                     get_field i (MultiProgress.trackers self) = None ->
                     q <> member_path (MultiProgress.id self) i) ->
          files w' !! q = files w !! q).
Proof.
  induction es as [|[i0 st0] rest IH]; intros self w self' w' Hrun.
  - simpl in Hrun. injection Hrun as <- <-.
    split; [reflexivity|]. split; [reflexivity|]. split; [auto|].
    split; [intros i []|]. split; [intros i []|].
    split; [intros i entry [=]|]. intros q _. reflexivity.
  - simpl in Hrun.
    destruct (get_field i0 (MultiProgress.trackers self)) as [known|] eqn:Hk.
    + destruct (IH _ _ _ _ Hrun)
        as (Hid & Hclock & Hkeep & Hadopt & Hvalid & Hrestart & Hframe).
      split; [exact Hid|]. split; [exact Hclock|]. split; [exact Hkeep|].
      split; [|split; [|split]].
      * intros i [Heq|Hin]; [simpl in Heq; subst i|now apply Hadopt].
        rewrite Hkeep by (rewrite Hk; eauto). rewrite Hk. eauto.
      * intros i [Heq|Hin] Hnone; [simpl in Heq; congruence|now apply Hvalid].
      * intros i entry Hg Hnone. simpl in Hg.
        destruct (String.eqb_spec i i0) as [->|Hne]; [congruence|].
        now apply Hrestart.
      * intros q Hq. apply Hframe. intros i Hin. apply Hq. now right.
    + destruct (MultiProgress.entry_arguments_of st0) as [|total message|] eqn:Hargs;
        [discriminate Hrun| |discriminate Hrun].
      unfold bind in Hrun.
      destruct (ProgressTracker.construct total message _ None w)
        as [[newTracker|e] w1] eqn:Hnew; [|discriminate Hrun].
      destruct (construct_inv _ _ _ _ _ _ _ Hnew) as (Hnt & Ht & path & Hp & _ & Hw1).
      apply member_config_path in Hp as [Hv0 ->].
      set (self1 := MultiProgress.with_trackers self
                      (set_field i0 newTracker (MultiProgress.trackers self))) in *.
      destruct (IH _ _ _ _ Hrun)
        as (Hid & Hclock & Hkeep & Hadopt & Hvalid & Hrestart & Hframe).
      change (MultiProgress.id self1) with (MultiProgress.id self) in *.
      assert (Hclock1 : clock w1 = clock w) by (now subst w1).
      assert (Hother : forall i, i <> i0 ->
                get_field i (MultiProgress.trackers self1)
                = get_field i (MultiProgress.trackers self)).
      { intros i Hi. unfold self1. simpl. apply get_set_ne. congruence. }
      assert (Hhead : get_field i0 (MultiProgress.trackers self1) = Some newTracker).
      { unfold self1. simpl. apply get_set_eq. }
      assert (Hlater : forall q,
                (forall i, In i (map fst rest) ->
                           i <> i0 ->
                           get_field i (MultiProgress.trackers self) = None ->
                           q <> member_path (MultiProgress.id self) i) ->
                files w' !! q = files w1 !! q).
      { intros q Hq. apply Hframe. intros i Hin Hnone.
        destruct (String.eqb_spec i i0) as [->|Hi]; [congruence|].
        rewrite Hother in Hnone by exact Hi. now apply Hq. }
      split; [exact Hid|]. split; [congruence|].
      split; [|split; [|split; [|split]]].
      * intros i Hsome. destruct (String.eqb_spec i i0) as [->|Hi].
        { rewrite Hk in Hsome. destruct Hsome as [x Hx]. discriminate. }
        rewrite Hkeep by (rewrite Hother by exact Hi; exact Hsome). now apply Hother.
      * intros i [Heq|Hin]; [simpl in Heq; subst i|now apply Hadopt].
        rewrite Hkeep by (rewrite Hhead; eauto). rewrite Hhead. eauto.
      * intros i Hin Hnone. destruct (String.eqb_spec i i0) as [->|Hi].
        { split; [exact Hv0|].
          rewrite Hkeep by (rewrite Hhead; eauto). now rewrite Hhead, Hnt. }
        destruct Hin as [Heq|Hin]; [simpl in Heq; congruence|].
        apply Hvalid; [exact Hin|]. now rewrite Hother.
      * intros i entry Hg Hnone. simpl in Hg.
        destruct (String.eqb_spec i i0) as [->|Hi].
        { injection Hg as <-. exists total, message.
          split; [exact Hargs|]. split; [exact Ht|]. rewrite Hlater.
          - subst w1. apply after_write_lookup.
          - intros j Hin Hj Hnone' Heq.
            apply member_path_inj in Heq; [congruence|exact Hv0|].
            apply Hvalid; [exact Hin|]. now rewrite Hother. }
        rewrite <- Hclock1. apply Hrestart; [exact Hg|]. now rewrite Hother.
      * intros q Hq. rewrite Hlater.
        { subst w1. simpl. apply lookup_insert_ne.
          intros Heq. apply (Hq i0); [now left|exact Hk|now symmetry]. }
        intros i Hin _. apply Hq. now right.
Qed.

Lemma sync_inv self w :
  fst (fst (MultiProgress.sync self w)) = Some (Returned (Ok tt)) ->
  exists value es,
    fst (MultiProgress.readState self w) = Ok value
    /\ MultiProgress.entries value = Some es
    /\ MultiProgress.sync_entries self es (after_read (MultiProgress.filePath self) w)
       = ((Some (Returned tt), snd (fst (MultiProgress.sync self w))),
          snd (MultiProgress.sync self w)).
Proof.
  unfold MultiProgress.sync, bind.
  destruct (MultiProgress.readState self w) as [[value|e] w0] eqn:Hr;
    [|simpl; intros H; discriminate H].
  assert (Hw0 : w0 = after_read (MultiProgress.filePath self) w).
  { revert Hr. unfold MultiProgress.readState, bind, existsSync, readFileSync, ret.
    destruct (bool_decide _); simpl; [|intros H; discriminate H].
    destruct (files w !! _) as [text|]; simpl; intros H; inversion H; reflexivity. }
  subst w0.
  destruct (MultiProgress.entries value) as [es|] eqn:He;
    [|simpl; intros H; discriminate H].
  destruct (MultiProgress.sync_entries self es _) as [[r self'] w'] eqn:Hs.
  simpl. destruct r as [[[]|e]|]; intros H; try discriminate H.
  exists value, es. auto.
Qed.

Lemma get_field_In {V : Type} k (o : list (string * V)) v :
  get_field k o = Some v -> In (k, v) o /\ In k (map fst o).
Proof.
  induction o as [|[k' v'] o IH]; simpl; [discriminate|].
  destruct (String.eqb_spec k k') as [->|Hne].
  - intros [= ->]. split; now left.
  - intros H. destruct (IH H). split; now right.
Qed.

(** X21.  A [sync] that returns success leaves the instance knowing every
    member the aggregate lists.  The handles it had are kept.  Every member
    it did not know gets a handle on the file of that member, and is
    started afresh: its file then holds the initial state made from the
    total and the message of the entry (counter 0, not complete, started
    now, no message when the entry has none), so the progress recorded
    there before is lost. *)
Theorem sync_adopts_every_listed_member :
  forall self w,
    fst (fst (MultiProgress.sync self w)) = Some (Returned (Ok tt)) ->
    exists value es,
      fst (MultiProgress.status self w) = Ok value
      /\ MultiProgress.entries value = Some es
      /\ knows_all (snd (fst (MultiProgress.sync self w))) value
      /\ (forall trackerId tracker,
            MultiProgress.get self trackerId = Ok tracker ->
            MultiProgress.get (snd (fst (MultiProgress.sync self w))) trackerId
            = Ok tracker)
      /\ (forall trackerId entry,
            get_field trackerId es = Some entry ->
            get_field trackerId (MultiProgress.trackers self) = None ->
            MultiProgress.get (snd (fst (MultiProgress.sync self w))) trackerId
            = Ok (ProgressTracker.mk
                    (mkConfig (Some (MultiProgress.id self +:+ "-" +:+ trackerId)) None))
            /\ restarted_at (snd (MultiProgress.sync self w))
                 (member_path (MultiProgress.id self) trackerId) entry (clock w)).
Proof.
  intros self w Hok. destruct (sync_inv self w Hok) as (value & es & Hr & He & Hs).
  destruct (sync_entries_spec es _ _ _ _ Hs)
    as (_ & _ & Hkeep & Hadopt & Hvalid & Hrestart & _).
  exists value, es. split; [exact Hr|]. split; [exact He|]. split; [|split].
  - exists es. split; [exact He|]. apply List.Forall_forall. intros [i st] Hin.
    apply Hadopt. apply in_map_iff. exists (i, st). split; [reflexivity|exact Hin].
  - intros trackerId tracker. unfold MultiProgress.get.
    destruct (get_field trackerId (MultiProgress.trackers self)) as [known|] eqn:Hk;
      [|discriminate].
    intros [= <-]. rewrite Hkeep by (rewrite Hk; eauto). now rewrite Hk.
  - intros trackerId entry Hg Hnone. split.
    + unfold MultiProgress.get.
      destruct (Hvalid trackerId (proj2 (get_field_In _ _ _ Hg)) Hnone) as [_ ->].
      reflexivity.
    + exact (Hrestart trackerId entry Hg Hnone).
Qed.

(** The group "build" is opened by a process that knows no member: [sync]
    adopts the member "compile", whose file held 40 of 100, and starts it
    afresh. *)
Lemma sync_adopts_every_listed_member_witness :
  files build_aggregate_world !! member_path "build" "compile"
  = Some (Doc (JObj (state_object job_running)))
  /\ fst (fst (MultiProgress.sync stranger build_aggregate_world))
     = Some (Returned (Ok tt))
  /\ MultiProgress.get (snd (fst (MultiProgress.sync stranger build_aggregate_world)))
       "compile"
     = Ok (ProgressTracker.mk (mkConfig (Some "build-compile"%string) None))
  /\ restarted_at (snd (MultiProgress.sync stranger build_aggregate_world))
       (member_path "build" "compile") (JObj (state_object job_running)) 3000.
Proof.
  split; [reflexivity|].
  assert (H : fst (fst (MultiProgress.sync stranger build_aggregate_world))
              = Some (Returned (Ok tt))) by (vm_compute; reflexivity).
  split; [exact H|].
  destruct (sync_adopts_every_listed_member stranger build_aggregate_world H)
    as (value & es & H1 & H2 & _ & _ & H5).
  assert (Hes : es = [("compile"%string, JObj (state_object job_running))]).
  { assert (Hv : fst (MultiProgress.status stranger build_aggregate_world)
                 = Ok (aggregate [("compile"%string, JObj (state_object job_running))]
                         1000 2000)) by (vm_compute; reflexivity).
    rewrite Hv in H1. injection H1 as <-. simpl in H2. now injection H2 as <-. }
  subst es.
  exact (H5 "compile"%string (JObj (state_object job_running)) eq_refl eq_refl).
Defined.

(** An entry that holds a total and nothing else is adopted as well: the
    tracker is constructed with the message [undefined], and the file it
    writes has no message. *)
Example sync_adopts_an_entry_without_message :
  let w := with_files
             (<[group_path "build" :=
                  Doc (aggregate [("link"%string, JObj [("total", JNum 7)])] 1000 2000)]>
                (files build_aggregate_world)) build_aggregate_world in
  fst (fst (MultiProgress.sync stranger w)) = Some (Returned (Ok tt))
  /\ files (snd (MultiProgress.sync stranger w)) !! member_path "build" "link"
     = Some (Doc (JObj [("total", JNum 7); ("current", JNum 0); ("percentage", JNum 0);
                        ("startTime", JNum 3000); ("updatedTime", JNum 3000);
                        ("complete", JBool false)])).
Proof. vm_compute. split; reflexivity. Qed.

(* ----------------------------------------------------------------- *)
(** *** The constructor *)

(** X29.  Constructing a group never replaces an aggregate that exists:
    the constructor then changes no file and returns a registry that knows
    no member, so the members the aggregate lists are known only after
    [sync]. *)
Theorem group_constructor_keeps_the_aggregate :
  forall config w,
    let path :=
      or_default (mpc_filePath config)
        (group_path (or_default (mpc_id config) "default")) in
    is_Some (files w !! path) ->
    fst (MultiProgress.new config w)
    = Returned (MultiProgress.mk (or_default (mpc_id config) "default") path [])
    /\ files (snd (MultiProgress.new config w)) = files w
    /\ fst (MultiProgress.status
              (MultiProgress.mk (or_default (mpc_id config) "default") path [])
              (snd (MultiProgress.new config w)))
       = fst (MultiProgress.status
                (MultiProgress.mk (or_default (mpc_id config) "default") path []) w).
Proof.
  intros config w path Hsome.
  assert (Hnew : MultiProgress.new config w
                 = (Returned (MultiProgress.mk (or_default (mpc_id config) "default")
                                path []),
                    record_event (EExists path) w)).
  { unfold MultiProgress.new, bind, existsSync, ret. fold path.
    unfold group_path in path. fold path.
    now rewrite bool_decide_eq_true_2 by exact Hsome. }
  rewrite Hnew. simpl. repeat split. now apply readState_files.
Qed.

Lemma group_constructor_keeps_the_aggregate_witness :
  fst (MultiProgress.new (mkMultiConfig (Some "build"%string) None) build_aggregate_world)
  = Returned stranger
  /\ files (snd (MultiProgress.new (mkMultiConfig (Some "build"%string) None)
                   build_aggregate_world))
     = files build_aggregate_world.
Proof.
  destruct (group_constructor_keeps_the_aggregate
              (mkMultiConfig (Some "build"%string) None) build_aggregate_world)
    as (H1 & H2 & _).
  - vm_compute. eexists. reflexivity.
  - split; [exact H1|exact H2].
Defined.

(* ================================================================= *)
(** ** The command line *)

Lemma strlen_nonneg s : 0 <= strlen s.
Proof. unfold strlen. lia. Qed.

(** X23.  The command line accepts exactly the identifiers the library
    accepts: [isValidId] of the parser holds if and only if [validateId]
    succeeds. *)
Theorem cli_accepts_exactly_the_valid_ids :
  forall i, CLI.isValidId i = true <-> validateId i = Ok i.
Proof.
  intros i. unfold CLI.isValidId, validateId.
  pose proof (strlen_nonneg i) as Hlen.
  destruct (Z.eqb_spec (strlen i) 0) as [H0|H0].
  - rewrite H0. simpl. rewrite andb_false_r. simpl. split; discriminate.
  - destruct (Z.ltb_spec 255 (strlen i)) as [H255|H255].
    + destruct (Z.leb_spec (strlen i) 255); [lia|].
      rewrite andb_false_r. split; discriminate.
    + destruct (Z.leb_spec (strlen i) 255); [|lia].
      destruct (Z.ltb_spec 0 (strlen i)); [|lia].
      destruct (id_regex_test i); simpl; split; (discriminate || reflexivity).
Qed.

Lemma cli_accepts_exactly_the_valid_ids_witness :
  CLI.isValidId "job" = true /\ validateId "job" = Ok "job"%string.
Proof.
  split; [reflexivity|].
  apply (proj1 (cli_accepts_exactly_the_valid_ids "job")). reflexivity.
Defined.

Lemma indexOf_app pre x post :
  ~ In x pre -> CLI.indexOf (pre ++ x :: post) x = Z.of_nat (length pre).
Proof.
  induction pre as [|a pre IH]; intros Hnot; simpl.
  - now rewrite String.eqb_refl.
  - destruct (String.eqb_spec a x) as [->|Hne]; [exfalso; apply Hnot; now left|].
    rewrite IH by (intros H; apply Hnot; now right).
    destruct (Z.eqb_spec (Z.of_nat (length pre)) (-1)); lia.
Qed.

Lemma indexOf_spec args x :
  (CLI.indexOf args x = -1 /\ ~ In x args)
  \/ exists pre post, args = pre ++ x :: post /\ ~ In x pre.
Proof.
  induction args as [|a args IH]; simpl.
  - left. split; [reflexivity|tauto].
  - destruct (String.eqb_spec a x) as [->|Hne].
    + right. exists [], args. split; [reflexivity|tauto].
    + destruct IH as [[H1 Hnot]|(pre & post & -> & Hnot)].
      * left. rewrite H1. simpl. split; [reflexivity|]. intros [H|H]; auto.
      * right. exists (a :: pre), post. split; [reflexivity|].
        intros [H|H]; auto.
Qed.

Lemma parseFlag_app pre flag post :
  ~ In flag pre ->
  CLI.parseFlag (pre ++ flag :: post) flag = hd_error post.
Proof.
  intros Hnot. unfold CLI.parseFlag. rewrite (indexOf_app _ _ _ Hnot).
  destruct (Z.eqb_spec (Z.of_nat (length pre)) (-1)); [lia|]. simpl orb.
  rewrite length_app. simpl length.
  replace (Z.to_nat (Z.of_nat (length pre) + 1)) with (length pre + 1)%nat by lia.
  destruct post as [|v post]; simpl length.
  - destruct (Z.leb_spec (Z.of_nat (length pre + 1)) (Z.of_nat (length pre) + 1));
      [reflexivity|lia].
  - destruct (Z.leb_spec (Z.of_nat (length pre + S (S (length post))))
                (Z.of_nat (length pre) + 1)); [lia|].
    rewrite nth_error_app2 by lia.
    replace (length pre + 1 - length pre)%nat with 1%nat by lia. reflexivity.
Qed.

(** X24.  [parseFlag] returns the argument that follows the first
    occurrence of the flag, whatever that argument is, and nothing when the
    flag is absent or is the last argument. *)
Theorem parseFlag_takes_what_follows_the_first_flag :
  forall args flag v,
    CLI.parseFlag args flag = Some v
    <-> exists pre post, args = pre ++ flag :: v :: post /\ ~ In flag pre.
Proof.
  intros args flag v. split.
  - destruct (indexOf_spec args flag) as [[H1 _]|(pre & post & -> & Hnot)].
    + unfold CLI.parseFlag. rewrite H1. simpl. discriminate.
    + rewrite (parseFlag_app _ _ _ Hnot). destruct post as [|v' post]; [discriminate|].
      simpl. intros [= ->]. exists pre, post. auto.
  - intros (pre & post & -> & Hnot). now rewrite (parseFlag_app _ _ _ Hnot).
Qed.

Lemma parseFlag_takes_what_follows_the_first_flag_witness :
  CLI.parseFlag ["100"; "--message"; "--message"; "late"]%string "--message"
  = Some "--message"%string.
Proof.
  apply (proj2 (parseFlag_takes_what_follows_the_first_flag
                  ["100"; "--message"; "--message"; "late"]%string
                  "--message" "--message")).
  exists ["100"%string], ["late"%string]. split; [reflexivity|].
  intros [H|[]]. discriminate.
Defined.

(* ----------------------------------------------------------------- *)
(** *** The executor *)

Lemma group_new_inv multiId w multi w1 :
  MultiProgress.new (mkMultiConfig (Some multiId) None) w = (Returned multi, w1) ->
  multi = MultiProgress.mk (or_default (Some multiId) "default")
            (group_path (or_default (Some multiId) "default")) []
  /\ forall q, q <> group_path (or_default (Some multiId) "default") ->
               files w1 !! q = files w !! q.
Proof.
  unfold MultiProgress.new, bind, existsSync, Date_now, ret. simpl mpc_id.
  simpl mpc_filePath. change (or_default None ?d) with d.
  fold (group_path (or_default (Some multiId) "default")).
  destruct (bool_decide _); simpl.
  - intros [= <- <-]. auto.
  - unfold MultiProgress.writeState, bind, randomHex, writeTempAndRename, removeTemp, ret. simpl.
    destruct (bool_decide _); simpl; [discriminate|].
    intros [= <- <-]. split; [reflexivity|].
    intros q Hq. simpl. apply lookup_insert_ne.
    intros Heq. apply Hq. rewrite <- Heq. reflexivity.
Qed.

Lemma group_new_frame multiId w :
  forall q, q <> group_path (or_default (Some multiId) "default") ->
            files (snd (MultiProgress.new (mkMultiConfig (Some multiId) None) w)) !! q
            = files w !! q.
Proof.
  intros q Hq. unfold MultiProgress.new, bind, existsSync, Date_now, ret. simpl mpc_id.
  simpl mpc_filePath. change (or_default None ?d) with d.
  fold (group_path (or_default (Some multiId) "default")).
  destruct (bool_decide _); simpl; [reflexivity|].
  unfold MultiProgress.writeState, bind, randomHex, writeTempAndRename, removeTemp, ret. simpl.
  destruct (bool_decide _); simpl; [reflexivity|].
  apply lookup_insert_ne. intros Heq. apply Hq. rewrite <- Heq. reflexivity.
Qed.

Lemma status_frame multi w :
  files (snd (MultiProgress.status multi w)) = files w.
Proof.
  unfold MultiProgress.status.
  destruct (MultiProgress.readState multi w) as [r w'] eqn:Hr.
  now apply readState_env in Hr as [_ H].
Qed.

(** X25.  On the command line, [multi <id> done] completes nothing: the
    process builds a fresh registry, which knows no member, so the command
    does exactly what [multi <id> status] does, with the same output, and
    leaves every file other than the aggregate as it was. *)
Theorem cli_multi_done_completes_nothing :
  forall multiId w,
    CLI.executeMultiCommand (CLI.mkMultiCommand multiId CLI.MultiDone) w
    = CLI.executeMultiCommand (CLI.mkMultiCommand multiId CLI.MultiStatus) w
    /\ forall q,
         q <> group_path (or_default (Some multiId) "default") ->
         files (snd (CLI.executeMultiCommand (CLI.mkMultiCommand multiId CLI.MultiDone)
                       w)) !! q
         = files w !! q.
Proof.
  intros multiId w.
  assert (Heq : CLI.executeMultiCommand (CLI.mkMultiCommand multiId CLI.MultiDone) w
                = CLI.executeMultiCommand (CLI.mkMultiCommand multiId CLI.MultiStatus) w).
  { unfold CLI.executeMultiCommand, bind. simpl CLI.multiId. simpl CLI.action.
    destruct (MultiProgress.new _ w) as [[multi|e] w1] eqn:Hnew; [|reflexivity].
    destruct (group_new_inv _ _ _ _ Hnew) as [-> _]. reflexivity. }
  split; [exact Heq|]. intros q Hq. rewrite Heq.
  unfold CLI.executeMultiCommand, bind. simpl CLI.multiId. simpl CLI.action.
  pose proof (group_new_frame multiId w q Hq) as Hn.
  destruct (MultiProgress.new _ w) as [[multi|e] w1]; simpl in *; [|exact Hn].
  pose proof (status_frame multi w1) as Hs.
  destruct (MultiProgress.status multi w1) as [r w2]. simpl in *. now rewrite Hs.
Qed.

Lemma cli_multi_done_completes_nothing_witness :
  files (snd (CLI.executeMultiCommand (CLI.mkMultiCommand "build" CLI.MultiDone)
                build_aggregate_world)) !! member_path "build" "compile"
  = Some (Doc (JObj (state_object job_running))).
Proof.
  rewrite (proj2 (cli_multi_done_completes_nothing "build" build_aggregate_world)).
  - reflexivity.
  - discriminate.
Defined.

(** X26.  On the command line, [multi <id> clear] removes at most the
    aggregate: the fresh registry knows no member, so every other file, the
    members' files included, is left as it was; when the command reports
    success the aggregate file is gone. *)
Theorem cli_multi_clear_keeps_the_member_files :
  forall multiId w,
    multiId <> EmptyString ->
    (forall q,
       q <> group_path multiId ->
       files (snd (CLI.executeMultiCommand (CLI.mkMultiCommand multiId CLI.MultiClear)
                     w)) !! q
       = files w !! q)
    /\ (fst (CLI.executeMultiCommand (CLI.mkMultiCommand multiId CLI.MultiClear) w)
        = Returned CLI.Success ->
        files (snd (CLI.executeMultiCommand (CLI.mkMultiCommand multiId CLI.MultiClear)
                      w)) !! group_path multiId = None).
Proof.
  intros multiId w Hne.
  assert (Hd : or_default (Some multiId) "default" = multiId)
    by (now apply or_default_Some).
  unfold CLI.executeMultiCommand, bind. simpl CLI.multiId. simpl CLI.action.
  pose proof (group_new_frame multiId w) as Hn. rewrite Hd in Hn.
  destruct (MultiProgress.new _ w) as [[multi|e] w1] eqn:Hnew; simpl in Hn.
  - destruct (group_new_inv _ _ _ _ Hnew) as [-> _]. simpl.
    set (config := mkConfig (Some ("multi-" +:+ multiId)) None).
    assert (Hpath : forall path, getProgressFilePath config = Ok path ->
                                 path = group_path multiId).
    { unfold getProgressFilePath, config. simpl.
      rewrite or_default_Some by discriminate.
      destruct (validateId _); [|discriminate]. intros path [= <-]. reflexivity. }
    split.
    + intros q Hq.
      pose proof (clear_elsewhere config w1 q) as Hc.
      destruct (clear config w1) as [r w2]. simpl in *.
      rewrite Hc; [now apply Hn|].
      intros path Hp. apply Hpath in Hp. congruence.
    + destruct (getProgressFilePath config) as [path|e] eqn:Hp.
      * pose proof (Hpath path eq_refl) as ->.
        pose proof (clear_run config _ w1 Hp) as Hc. rewrite Hc.
        destruct (files w1 !! group_path multiId) eqn:Hf; simpl; [|auto].
        destruct (bool_decide _); simpl; [discriminate|].
        intros _. apply lookup_delete_eq.
      * unfold clear. rewrite Hp. simpl. discriminate.
  - simpl. split; [exact Hn|discriminate].
Qed.

Lemma cli_multi_clear_keeps_the_member_files_witness :
  fst (CLI.executeMultiCommand (CLI.mkMultiCommand "build" CLI.MultiClear)
         build_aggregate_world) = Returned CLI.Success
  /\ files (snd (CLI.executeMultiCommand (CLI.mkMultiCommand "build" CLI.MultiClear)
                   build_aggregate_world)) !! group_path "build" = None
  /\ files (snd (CLI.executeMultiCommand (CLI.mkMultiCommand "build" CLI.MultiClear)
                   build_aggregate_world)) !! member_path "build" "compile"
     = Some (Doc (JObj (state_object job_running))).
Proof.
  assert (Hok : fst (CLI.executeMultiCommand (CLI.mkMultiCommand "build" CLI.MultiClear)
                       build_aggregate_world) = Returned CLI.Success)
    by (vm_compute; reflexivity).
  destruct (cli_multi_clear_keeps_the_member_files "build" build_aggregate_world
              ltac:(discriminate)) as [Hkeep Hgone].
  split; [exact Hok|]. split; [exact (Hgone Hok)|].
  rewrite Hkeep by discriminate. reflexivity.
Defined.



(* ================================================================= *)
(** ** The aggregate as a mirror of the members *)

Lemma readState_at self w w' :
  files w !! MultiProgress.filePath self = files w' !! MultiProgress.filePath self ->
  fst (MultiProgress.readState self w) = fst (MultiProgress.readState self w').
Proof.
  intros H. unfold MultiProgress.readState, bind, existsSync, readFileSync, ret.
  rewrite H. destruct (bool_decide _); simpl; [|reflexivity].
  now rewrite H.
Qed.

Lemma readState_path self self' w :
  MultiProgress.filePath self' = MultiProgress.filePath self ->
  MultiProgress.readState self' w = MultiProgress.readState self w.
Proof. intros H. unfold MultiProgress.readState. now rewrite H. Qed.

(** What [status()] shows of a member once the aggregate has been
    written. *)
Lemma touch_and_write_ready self o meta w :
  get_field "meta" o = Some (JObj meta) ->
  (MultiProgress.filePath self ∉ readonly w) ->
  MultiProgress.touch_and_write self (JObj o) w
  = (Returned tt,
     after_write (MultiProgress.filePath self)
       (Doc (JObj (set_field "meta"
                     (JObj (js_assign "updated" (JNum (clock w)) meta)) o))) w).
Proof.
  intros Hm Hro. unfold MultiProgress.touch_and_write, bind, Date_now.
  unfold MultiProgress.assign_in. rewrite Hm.
  now rewrite writeState_ok.
Qed.

Lemma snapshot_after_write self o members meta now w i :
  get_field "trackers" o = Some (JObj members) ->
  snapshot i
    (fst (MultiProgress.status self
            (after_write (MultiProgress.filePath self)
               (Doc (JObj (set_field "meta" (JObj (js_assign "updated" (JNum now) meta)) o)))
               w)))
  = option_map as_parsed (get_field i members).
Proof.
  intros Ht. unfold MultiProgress.status.
  rewrite (readState_doc self _ _ (after_write_lookup _ _ _)).
  cbn [fst]. rewrite as_parsed_obj. unfold snapshot.
  rewrite get_as_parsed_fields, get_set_ne by discriminate.
  rewrite Ht. cbn [option_map]. rewrite as_parsed_obj.
  apply get_as_parsed_fields.
Qed.

(** The loop of [done] over an aggregate with a table of members: it does
    not throw, keeps every other property of the aggregate, and leaves in
    the table the state of every registered member that can be read,
    except under the name [__proto__]. *)
Lemma mirror_all_spec ts :
  forall o members w,
    get_field "trackers" o = Some (JObj members) ->
    exists o' members',
      fst (MultiProgress.mirror_all ts (JObj o) w) = Returned (JObj o')
      /\ get_field "trackers" o' = Some (JObj members')
      /\ (forall k, k <> "trackers"%string -> get_field k o' = get_field k o)
      /\ (forall i tracker st,
            NoDup (map fst ts) ->
            In (i, tracker) ts ->
            i <> "__proto__"%string ->
            fst (ProgressTracker.get tracker w) = Ok st ->
            get_field i members' = Some (JObj st))
      /\ (forall k, ~ In k (map fst ts) -> get_field k members' = get_field k members).
Proof.
  induction ts as [|[i0 tr0] rest IH]; intros o members w Ht.
  - exists o, members. simpl. repeat split; auto. intros i tracker st _ [].
  - simpl. unfold bind.
    destruct (ProgressTracker.get tr0 w) as [r w1] eqn:Hg.
    pose proof Hg as Henv. apply get_env in Henv as [_ Hf].
    assert (Hsame : forall tracker,
              fst (ProgressTracker.get tracker w1) = fst (ProgressTracker.get tracker w)).
    { intros tracker. unfold ProgressTracker.get. now apply get_files. }
    destruct r as [st0|e].
    + unfold MultiProgress.assign_in. rewrite Ht.
      set (members1 := js_assign i0 (JObj st0) members).
      set (o1 := set_field "trackers" (JObj members1) o).
      destruct (IH o1 members1 w1 (get_set_eq _ _ _))
        as (o' & members' & Hrun & Ht' & Hkeep & Hin & Hout).
      exists o', members'. split; [exact Hrun|]. split; [exact Ht'|].
      split; [|split].
      * intros k Hk. rewrite Hkeep by exact Hk. unfold o1. apply get_set_ne. congruence.
      * intros i tracker st Hnd [Heq|Hi] Hproto Hst.
        { injection Heq as <- <-. inversion Hnd as [|? ? Hnotin _]; subst.
          rewrite list_elem_of_In in Hnotin.
          rewrite Hout by exact Hnotin. unfold members1.
          rewrite Hg in Hst. simpl in Hst. injection Hst as <-.
          apply get_js_assign_eq. now left. }
        inversion Hnd as [|? ? _ Hnd']; subst.
        apply (Hin i tracker st Hnd' Hi Hproto). now rewrite Hsame.
      * intros k Hk. rewrite Hout by (intros H; apply Hk; now right).
        unfold members1. apply get_js_assign_ne. intros ->. apply Hk. now left.
    + destruct (IH o members w1 Ht)
        as (o' & members' & Hrun & Ht' & Hkeep & Hin & Hout).
      exists o', members'. split; [exact Hrun|]. split; [exact Ht'|].
      split; [exact Hkeep|]. split.
      * intros i tracker st Hnd [Heq|Hi] Hproto Hst.
        { injection Heq as <- <-. rewrite Hg in Hst. discriminate. }
        inversion Hnd as [|? ? _ Hnd']; subst.
        apply (Hin i tracker st Hnd' Hi Hproto). now rewrite Hsame.
      * intros k Hk. apply Hout. intros H. apply Hk. now right.
Qed.

Lemma done_all_elsewhere ts q :
  forall w,
    (forall k tracker path,
       In (k, tracker) ts ->
       getProgressFilePath (ProgressTracker.config tracker) = Ok path -> path <> q) ->
    files (snd (MultiProgress.done_all ts w)) !! q = files w !! q.
Proof.
  induction ts as [|[i tracker] rest IH]; intros w Hq; [reflexivity|].
  simpl. unfold bind, ProgressTracker.done.
  pose proof (run_mutation_elsewhere (MFinish None) (ProgressTracker.config tracker) w q)
    as H. simpl in H.
  destruct (finish None (ProgressTracker.config tracker) w) as [r w1]. simpl in H.
  rewrite IH by (intros k tr p Hin; apply (Hq k tr p); now right).
  apply H. intros path Hp. apply (Hq i tracker path); [now left|exact Hp].
Qed.

(** [done] over an aggregate that is ready: it returns success, and
    [status()] then shows every registered member that could be completed
    as completed. *)
Lemma done_refreshes self w i tracker path state0 :
  NoDup (map fst (MultiProgress.trackers self)) ->
  In (i, tracker) (MultiProgress.trackers self) ->
  i <> "__proto__"%string ->
  members_apart self ->
  getProgressFilePath (ProgressTracker.config tracker) = Ok path ->
  stored w path state0 ->
  (path ∉ readonly w) ->
  mirror_ready self w ->
  fst (MultiProgress.done self w) = Returned (Ok tt)
  /\ shows_completed (snapshot i (fst (MultiProgress.status self
                                         (snd (MultiProgress.done self w))))) state0.
Proof.
  intros Hnd Hin Hproto Hapart Hp Hs Hro [(j & o & members & meta & Hj & Ho & Ht & Hm) Hw].
  destruct (stored_total _ _ _ Hs) as [Htotal _].
  assert (Hh : holds_total w path (num_field "total" state0)).
  { exists state0. split; [exact Hs|exact Htotal]. }
  pose proof (done_all_completes _ _ _ _ _ w Hin Hp Hh Hro) as Hdone.
  pose proof (done_all_elsewhere (MultiProgress.trackers self)
                (MultiProgress.filePath self) w Hapart) as Hagg.
  pose proof (done_all_env (MultiProgress.trackers self) w) as (Hro1 & _).
  destruct (MultiProgress.done self w) as [result w'] eqn:Hd. cbn [fst snd].
  unfold MultiProgress.done in Hd. unfold bind at 1 in Hd.
  destruct (MultiProgress.done_all (MultiProgress.trackers self) w) as [[] w1].
  cbn [snd] in Hdone, Hagg, Hro1.
  destruct Hdone as (state & _ & Hst & T & C & P & F).
  unfold bind at 1 in Hd. rewrite (readState_doc self w1 j) in Hd by (now rewrite Hagg).
  rewrite Ho in Hd. set (w2 := after_read (MultiProgress.filePath self) w1) in *.
  unfold bind at 1 in Hd.
  destruct (mirror_all_spec (MultiProgress.trackers self) o members w2 Ht)
    as (o' & members' & Hrun & Ht' & Hkeep & Hin' & _).
  destruct (mirror_all_env (MultiProgress.trackers self) (JObj o) w2)
    as [(Hro3 & Hc3 & _) Hf3].
  destruct (MultiProgress.mirror_all (MultiProgress.trackers self) (JObj o) w2)
    as [r w3]. cbn [fst snd] in Hrun, Hro3, Hc3, Hf3. subst r.
  assert (Hget : fst (ProgressTracker.get tracker w2) = Ok state).
  { rewrite (get_stored tracker path state w2 Hp); [reflexivity|].
    apply (stored_files w1); [reflexivity|exact Hst]. }
  pose proof (Hin' i tracker state Hnd Hin Hproto Hget) as Hi.
  unfold bind in Hd.
  rewrite (touch_and_write_ready self o' meta w3) in Hd
    by (try (rewrite Hkeep by discriminate; exact Hm);
        rewrite Hro3; unfold w2; simpl; now rewrite Hro1).
  injection Hd as <- <-. split; [reflexivity|].
  rewrite (snapshot_after_write self o' members' meta (clock w3) w3 i Ht'), Hi.
  cbn [option_map].
  exists state. split.
  - f_equal. eapply stored_parsed; eauto.
  - rewrite Htotal. auto.
Qed.

Lemma member_path_of_valid_id g i :
  validateId (g +:+ "-" +:+ i) = Ok (g +:+ "-" +:+ i) ->
  getProgressFilePath (mkConfig (Some (g +:+ "-" +:+ i)) None) = Ok (member_path g i).
Proof.
  intros Hv. unfold getProgressFilePath. cbn [filePath id truthy].
  rewrite (or_default_Some _ "default" (member_id_nonempty g i)).
  now rewrite Hv.
Qed.

(** [add] into a group whose aggregate is ready: the member is registered
    and [status()] shows the state it starts with. *)
Lemma add_mirrors self config w i (t : Z) :
  truthy (mc_trackerId config) = Some i ->
  i <> "__proto__"%string ->
  mc_total config = Int t ->
  0 < t ->
  validateId (MultiProgress.id self +:+ "-" +:+ i)
  = Ok (MultiProgress.id self +:+ "-" +:+ i) ->
  member_path (MultiProgress.id self) i <> MultiProgress.filePath self ->
  (member_path (MultiProgress.id self) i ∉ readonly w) ->
  mirror_ready self w ->
  let tracker :=
    ProgressTracker.mk (mkConfig (Some (MultiProgress.id self +:+ "-" +:+ i)) None) in
  fst (MultiProgress.add self config w)
  = (Returned tracker,
     MultiProgress.with_trackers self (set_field i tracker (MultiProgress.trackers self)))
  /\ snapshot i (fst (MultiProgress.status self (snd (MultiProgress.add self config w))))
     = Some (JObj (initial_state (Int t) (Some (JStr (mc_message config))) (clock w))).
Proof.
  intros Hi Hproto Htotal Ht Hv Hne Hro [(j & o & members & meta & Hj & Ho & Htr & Hm) Hw].
  intros tracker.
  set (path := member_path (MultiProgress.id self) i) in *.
  set (state := initial_state (Int t) (Some (JStr (mc_message config))) (clock w)).
  pose proof (member_path_of_valid_id _ _ Hv) as Hp. fold path in Hp.
  destruct (MultiProgress.add self config w) as [result w'] eqn:Hd. cbn [fst snd].
  rewrite add_member_id in Hd. cbv zeta in Hd.
  assert (Hid : member_id config w = i) by (unfold member_id; now rewrite Hi).
  unfold member_config in Hd. rewrite Hid, Htotal in Hd.
  unfold bind at 1 in Hd.
  unfold ProgressTracker.new, ProgressTracker.construct in Hd.
  cbn [tc_total tc_message tc_id tc_filePath] in Hd. unfold bind at 1 in Hd.
  rewrite (init_with_run (Int t) _ _ path w) in Hd;
    [|simpl; now apply Z.ltb_lt|exact Hp|exact Hro].
  unfold ret at 1 in Hd. fold state tracker in Hd.
  set (w1 := after_write path (Doc (JObj state)) w) in *.
  set (self1 := MultiProgress.with_trackers self
                  (set_field i tracker (MultiProgress.trackers self))) in *.
  unfold bind at 1 in Hd.
  rewrite (readState_doc self1 w1 j) in Hd
    by (unfold w1; simpl; rewrite lookup_insert_ne by exact Hne; exact Hj).
  rewrite Ho in Hd. set (w2 := after_read (MultiProgress.filePath self1) w1) in *.
  assert (Hs : stored w2 path state).
  { apply (stored_files w1); [reflexivity|].
    apply stored_after_write; reflexivity. }
  unfold bind at 1 in Hd. rewrite (get_stored tracker path state w2 Hp Hs) in Hd.
  unfold MultiProgress.assign_in in Hd. rewrite Htr in Hd.
  set (members1 := js_assign i (JObj state) members) in *.
  set (o1 := set_field "trackers" (JObj members1) o) in *.
  unfold bind in Hd.
  rewrite (touch_and_write_ready self1 o1 meta) in Hd;
    [|unfold o1; rewrite get_set_ne by discriminate; exact Hm|exact Hw].
  unfold ret in Hd. injection Hd as <- <-. split; [reflexivity|].
  change (MultiProgress.filePath self1) with (MultiProgress.filePath self).
  rewrite (snapshot_after_write self o1 members1 meta _ _ i (get_set_eq _ _ _)).
  unfold members1. rewrite get_js_assign_eq by (now left). reflexivity.
Qed.

(** A mutation through the handle of a member does not reach the
    aggregate. *)
Lemma mutation_leaves_status self tracker path m w :
  getProgressFilePath (ProgressTracker.config tracker) = Ok path ->
  path <> MultiProgress.filePath self ->
  fst (MultiProgress.status self (snd (run_mutation m (ProgressTracker.config tracker) w)))
  = fst (MultiProgress.status self w).
Proof.
  intros Hp Hne. apply readState_at. apply run_mutation_elsewhere.
  intros p Hp'. congruence.
Qed.

(** The loop of [sync] writes no file but those of the members it
    adopts. *)
Lemma sync_entries_frame es q :
  forall self w r,
    fst (fst (MultiProgress.sync_entries self es w)) = Some r ->
    (forall k, In k (map fst es) ->
               get_field k (MultiProgress.trackers self) = None ->
               q <> member_path (MultiProgress.id self) k) ->
    files (snd (MultiProgress.sync_entries self es w)) !! q = files w !! q
    /\ MultiProgress.filePath (snd (fst (MultiProgress.sync_entries self es w)))
       = MultiProgress.filePath self.
Proof.
  induction es as [|[i0 st0] rest IH]; intros self w r Hr Hq; [now split|].
  simpl in *.
  destruct (get_field i0 (MultiProgress.trackers self)) as [known|] eqn:Hk.
  - apply (IH self w r Hr). intros k Hin. apply Hq. now right.
  - destruct (MultiProgress.entry_arguments_of st0) as [|total message|];
      [now split| |discriminate Hr].
    unfold bind in *.
    destruct (ProgressTracker.construct total message _ None w)
      as [[newTracker|e] w1] eqn:Hnew.
    + destruct (construct_inv _ _ _ _ _ _ _ Hnew) as (_ & _ & path & Hp & _ & Hw1).
      apply member_config_path in Hp as [_ ->].
      set (self1 := MultiProgress.with_trackers self _) in *.
      destruct (IH self1 w1 r Hr) as [Hf Hpath].
      { intros k Hin Hnone. apply Hq; [now right|].
        unfold self1 in Hnone. simpl in Hnone.
        destruct (String.eqb_spec k i0) as [->|Hne];
          [now rewrite get_set_eq in Hnone|].
        now rewrite get_set_ne in Hnone by congruence. }
      split; [|exact Hpath]. rewrite Hf. subst w1. simpl.
      apply lookup_insert_ne. intros Heq. apply (Hq i0); [now left|exact Hk|now symmetry].
    + simpl. split; [|reflexivity].
      unfold ProgressTracker.construct, bind, ret in Hnew.
      destruct (init_with total message _ w) as [[state|e'] w1'] eqn:Hinit;
        [discriminate|].
      injection Hnew as _ <-.
      destruct (init_with_frame _ _ _ _ _ _ Hinit) as (_ & _ & _ & H & _).
      now rewrite (proj1 (H e' eq_refl)).
Qed.

Lemma sync_leaves_status self w r :
  fst (fst (MultiProgress.sync self w)) = Some r ->
  (forall value es k,
     fst (MultiProgress.status self w) = Ok value ->
     MultiProgress.entries value = Some es ->
     In k (map fst es) ->
     get_field k (MultiProgress.trackers self) = None ->
     member_path (MultiProgress.id self) k <> MultiProgress.filePath self) ->
  fst (MultiProgress.status (snd (fst (MultiProgress.sync self w)))
         (snd (MultiProgress.sync self w)))
  = fst (MultiProgress.status self w).
Proof.
  intros Hr Hq. unfold MultiProgress.status in *.
  unfold MultiProgress.sync, bind in *.
  destruct (MultiProgress.readState self w) as [[value|e] w0] eqn:Hread;
    pose proof Hread as Henv; apply readState_env in Henv as [_ Hf0];
    cbn [fst snd] in *.
  - destruct (MultiProgress.entries value) as [es|] eqn:He; cbn [fst snd].
    + destruct (MultiProgress.sync_entries self es w0) as [[r' self'] w'] eqn:Hs.
      cbn [fst snd] in *.
      destruct r' as [r'|]; [|discriminate Hr].
      destruct (sync_entries_frame es (MultiProgress.filePath self) self w0 r') as [Hf Hp].
      { now rewrite Hs. }
      { intros k Hin Hnone Heq.
        apply (Hq value es k eq_refl He Hin Hnone). now symmetry. }
      rewrite Hs in Hf, Hp. cbn [fst snd] in Hf, Hp.
      unfold ret. cbn [fst snd].
      rewrite (readState_path self self' w' Hp).
      rewrite (readState_at self w' w) by (now rewrite Hf, Hf0).
      now rewrite Hread.
    + unfold ret. cbn [fst snd].
      rewrite (readState_at self w0 w) by (now rewrite Hf0). now rewrite Hread.
  - unfold ret. cbn [fst snd].
    rewrite (readState_at self w0 w) by (now rewrite Hf0). now rewrite Hread.
Qed.

(** X22.  The aggregate mirrors a member when the member is added and when
    [done()] is called, and at no other time.  Over an aggregate that can
    be read and replaced and holds its two tables: [add] of a member with a
    valid identifier other than [__proto__], whose file is not the
    aggregate file, registers the member, and [status()] shows the state it
    starts with; [done()] returns success, and [status()] then shows every
    registered member that could be completed, other than one named
    [__proto__], with the counter at the total, 100 percent and the
    completion flag.  In between the aggregate is stale: a mutation
    through the handle of a member leaves what [status()] returns as it
    was, and so does [sync()], which never copies the state of a member. *)
Theorem aggregate_is_stale_until_done :
  forall self w,
    (mirror_ready self w ->
     (forall config i (t : Z),
        truthy (mc_trackerId config) = Some i ->
        i <> "__proto__"%string ->
        mc_total config = Int t ->
        0 < t ->
        validateId (MultiProgress.id self +:+ "-" +:+ i)
        = Ok (MultiProgress.id self +:+ "-" +:+ i) ->
        member_path (MultiProgress.id self) i <> MultiProgress.filePath self ->
        (member_path (MultiProgress.id self) i ∉ readonly w) ->
        let tracker :=
          ProgressTracker.mk
            (mkConfig (Some (MultiProgress.id self +:+ "-" +:+ i)) None) in
        fst (MultiProgress.add self config w)
        = (Returned tracker,
           MultiProgress.with_trackers self
             (set_field i tracker (MultiProgress.trackers self)))
        /\ snapshot i (fst (MultiProgress.status self
                              (snd (MultiProgress.add self config w))))
           = Some (JObj (initial_state (Int t) (Some (JStr (mc_message config)))
                           (clock w))))
     /\ (forall i tracker path state0,
           NoDup (map fst (MultiProgress.trackers self)) ->
           In (i, tracker) (MultiProgress.trackers self) ->
           i <> "__proto__"%string ->
           members_apart self ->
           getProgressFilePath (ProgressTracker.config tracker) = Ok path ->
           stored w path state0 ->
           (path ∉ readonly w) ->
           fst (MultiProgress.done self w) = Returned (Ok tt)
           /\ shows_completed
                (snapshot i (fst (MultiProgress.status self
                                    (snd (MultiProgress.done self w))))) state0))
    /\ (forall tracker path m,
          getProgressFilePath (ProgressTracker.config tracker) = Ok path ->
          path <> MultiProgress.filePath self ->
          fst (MultiProgress.status self
                 (snd (run_mutation m (ProgressTracker.config tracker) w)))
          = fst (MultiProgress.status self w))
    /\ (forall r,
          fst (fst (MultiProgress.sync self w)) = Some r ->
          (forall value es k,
             fst (MultiProgress.status self w) = Ok value ->
             MultiProgress.entries value = Some es ->
             In k (map fst es) ->
             get_field k (MultiProgress.trackers self) = None ->
             member_path (MultiProgress.id self) k <> MultiProgress.filePath self) ->
          fst (MultiProgress.status (snd (fst (MultiProgress.sync self w)))
                 (snd (MultiProgress.sync self w)))
          = fst (MultiProgress.status self w)).
Proof.
  intros self w. split; [|split].
  - intros Hready. split.
    + intros config i t Hi Hproto Htotal Ht Hv Hne Hro.
      now apply add_mirrors.
    + intros i tracker path state0 Hnd Hin Hproto Hapart Hp Hs Hro.
      now apply (done_refreshes self w i tracker path state0).
  - intros tracker path m. apply mutation_leaves_status.
  - intros r. apply sync_leaves_status.
Qed.

(** The group "build" with its member "compile" at 40 of 100, which the
    aggregate shows: after [done()] the aggregate shows the member
    completed. *)
Lemma aggregate_is_stale_until_done_witness :
  snapshot "compile" (fst (MultiProgress.status build_group build_aggregate_world))
  = Some (JObj (state_object job_running))
  /\ fst (MultiProgress.done build_group build_aggregate_world) = Returned (Ok tt)
  /\ shows_completed
       (snapshot "compile"
          (fst (MultiProgress.status build_group
                  (snd (MultiProgress.done build_group build_aggregate_world)))))
       (state_object job_running).
Proof.
  split; [reflexivity|].
  assert (Hready : mirror_ready build_group build_aggregate_world).
  { split; [|apply not_elem_of_empty].
    exists (aggregate [("compile"%string, JObj (state_object job_running))] 1000 2000).
    do 3 eexists. repeat split; reflexivity. }
  destruct (aggregate_is_stale_until_done build_group build_aggregate_world) as [Hm _].
  destruct (Hm Hready) as [_ Hdone].
  apply (Hdone "compile"%string
           (ProgressTracker.mk (mkConfig (Some "build-compile"%string) None))
           (member_path "build" "compile") (state_object job_running)).
  - apply NoDup_singleton.
  - left. reflexivity.
  - discriminate.
  - intros k tr p [[= <- <-]|[]] Hp. injection Hp as <-. discriminate.
  - reflexivity.
  - holds_entity (state_object job_running).
  - apply not_elem_of_empty.
Defined.
